(** * Dopamine Reset Coach: scoring, coaching and persistence logic

    A shallow embedding of [src/components/DopamineResetCoachPrototype.tsx]
    and the properties its specification states about it.

    Numbers.  A TypeScript [number] is an IEEE-754 double.  It is modelled
    here by [number]: [NaN], the two infinities, and the finite values, a
    finite value being the rational it denotes with arithmetic carried out
    exactly (no rounding to 53 bits, no overflow, one zero).  Every
    threshold, clamp and special-value rule of the source is kept; what is
    idealised is the rounding error of finite arithmetic only. *)

From Stdlib Require Import ZArith QArith Qround Lqa Lia.
From Stdlib Require Import List String Ascii Bool Sorting Permutation.
From Stdlib Require Import DecimalString.
From stdpp Require Import base gmap strings.
Import ListNotations.

Set Default Proof Using "Type".
Set Warnings "-register-all".

(* ================================================================== *)
(** ** JavaScript numbers *)
(* ================================================================== *)

Inductive number : Type :=
| NaN
| PosInfinity
| NegInfinity
| Fin (q : Q).

Coercion Fin : Q >-> number.

Declare Scope js_scope.
Delimit Scope js_scope with js.
Bind Scope js_scope with number.

Module Num.

Local Open Scope Q_scope.

Definition neg (x : number) : number :=
  match x with
  | NaN => NaN
  | PosInfinity => NegInfinity
  | NegInfinity => PosInfinity
  | Fin a => Fin (- a)
  end.

Definition add (x y : number) : number :=
  match x, y with
  | NaN, _ | _, NaN => NaN
  | PosInfinity, NegInfinity | NegInfinity, PosInfinity => NaN
  | PosInfinity, _ | _, PosInfinity => PosInfinity
  | NegInfinity, _ | _, NegInfinity => NegInfinity
  | Fin a, Fin b => Fin (a + b)
  end.

Definition sub (x y : number) : number := add x (neg y).

(** Sign of a finite value, used by the rules for infinities. *)
Definition signed_inf (c : comparison) : number :=
  match c with
  | Eq => NaN
  | Gt => PosInfinity
  | Lt => NegInfinity
  end.

Definition mul (x y : number) : number :=
  match x, y with
  | NaN, _ | _, NaN => NaN
  | PosInfinity, PosInfinity | NegInfinity, NegInfinity => PosInfinity
  | PosInfinity, NegInfinity | NegInfinity, PosInfinity => NegInfinity
  | PosInfinity, Fin a | Fin a, PosInfinity => signed_inf (a ?= 0)
  | NegInfinity, Fin a | Fin a, NegInfinity => signed_inf (0 ?= a)
  | Fin a, Fin b => Fin (a * b)
  end.

Definition div (x y : number) : number :=
  match x, y with
  | NaN, _ | _, NaN => NaN
  | (PosInfinity | NegInfinity), (PosInfinity | NegInfinity) => NaN
  | PosInfinity, Fin b => if Qle_bool 0 b then PosInfinity else NegInfinity
  | NegInfinity, Fin b => if Qle_bool 0 b then NegInfinity else PosInfinity
  | Fin _, (PosInfinity | NegInfinity) => Fin 0
  | Fin a, Fin b => if Qeq_bool b 0 then signed_inf (a ?= 0) else Fin (a / b)
  end.

(** [x <= y] as JavaScript evaluates it: false as soon as a side is NaN. *)
Definition leb (x y : number) : bool :=
  match x, y with
  | NaN, _ | _, NaN => false
  | NegInfinity, _ | _, PosInfinity => true
  | PosInfinity, _ | _, NegInfinity => false
  | Fin a, Fin b => Qle_bool a b
  end.

Definition ltb (x y : number) : bool :=
  match x, y with
  | NaN, _ | _, NaN => false
  | PosInfinity, _ | _, NegInfinity => false
  | NegInfinity, _ | _, PosInfinity => true
  | Fin a, Fin b => negb (Qle_bool b a)
  end.

Definition geb (x y : number) : bool := leb y x.
Definition gtb (x y : number) : bool := ltb y x.

Definition of_nat (n : nat) : number := Fin (inject_Z (Z.of_nat n)).

End Num.

Infix "+" := Num.add : js_scope.
Infix "-" := Num.sub : js_scope.
Infix "*" := Num.mul : js_scope.
Infix "/" := Num.div : js_scope.
Notation "- x" := (Num.neg x) : js_scope.
Infix "<=?" := Num.leb : js_scope.
Infix "<?" := Num.ltb : js_scope.
Infix ">=?" := Num.geb (at level 70) : js_scope.
Infix ">?" := Num.gtb (at level 70) : js_scope.

(** [Math.max], [Math.min]: NaN if an argument is NaN. *)
Definition Math_max (x y : number) : number :=
  match x, y with
  | NaN, _ | _, NaN => NaN
  | _, _ => if Num.leb x y then y else x
  end.

Definition Math_min (x y : number) : number :=
  match x, y with
  | NaN, _ | _, NaN => NaN
  | _, _ => if Num.leb x y then x else y
  end.

(** [Math.round]: the nearest integer, a tie going up; NaN and the
    infinities are returned as they are. *)
Definition Math_round (x : number) : number :=
  match x with
  | Fin a => Fin (inject_Z (Qfloor (a + (1 # 2))%Q))
  | _ => x
  end.

(* ================================================================== *)
(** ** Helpers and types of the component *)
(* ================================================================== *)

Open Scope js_scope.
Open Scope Q_scope.
Open Scope js_scope.

Definition clamp (n min max : number) : number :=
  Math_max min (Math_min max n).

Record ToggleItem : Type := mkToggleItem {
  label : string;
  value : bool
}.

Inductive Strictness : Type := Light | Standard | Hard.

Record Virtues : Type := mkVirtues {
  study : bool;
  gym : bool;
  meditate : bool
}.

Record Checkin : Type := mkCheckin {
  date : string;
  loadItems : list ToggleItem;
  virtues : Virtues;
  sleepHours : number;
  sleepQuality : number;
  caffeineMg : number;
  socialMinutes : number;
  workout : bool;
  mood : number;
  energy : number;
  junkFood : bool;
  notes : string;
  calories : number;
  proteinG : number;
  carbsG : number;
  fatG : number
}.

Definition makeDefaultCheckin (date : string) : Checkin :=
  {| date := date;
     loadItems := [];
     virtues := {| study := false; gym := false; meditate := false |};
     sleepHours := 7.5;
     sleepQuality := 7;
     caffeineMg := 0;
     socialMinutes := 0;
     workout := false;
     mood := 7;
     energy := 7;
     junkFood := false;
     notes := EmptyString;
     calories := 0;
     proteinG := 0;
     carbsG := 0;
     fatG := 0 |}.

(* ================================================================== *)
(** ** Scoring *)
(* ================================================================== *)

Definition virtuesCount (v : Virtues) : number :=
  (if study v then 1 else 0) + (if gym v then 1 else 0)
  + (if meditate v then 1 else 0).

(** [(d.loadItems || [])] is [d.loadItems]: an array, even an empty one,
    is truthy, and the record type has no absent list. *)
Definition computeDLS (d : Checkin) : number :=
  let social := clamp ((socialMinutes d / 10) * 3) 0 30 in
  let caffeine := clamp ((caffeineMg d / 50) * 2.5) 0 20 in
  let junk : number := if junkFood d then 10 else 0 in
  let loadOn := Num.of_nat (length (List.filter value (loadItems d))) in
  let extraLoad := clamp (loadOn * 6) 0 30 in
  let virtues := clamp (virtuesCount (virtues d) * 3) 0 12 in
  let workout : number := if workout d then -10 else 0 in
  let goodSleep : number := if sleepHours d >=? 7.5 then -10 else 0 in
  let raw := social + caffeine + junk + extraLoad + workout + goodSleep - virtues in
  clamp (Math_round raw) 0 100.

(** [history.slice(-7)]: the last seven elements, all of them when there
    are fewer. *)
Definition slice_last (n : nat) {A : Type} (l : list A) : list A :=
  skipn (length l - n) l.

Definition computeNEI (history : list Checkin) : number :=
  let last7 := slice_last 7 history in
  match length last7 with
  | O => 50
  | _ =>
    let avgEnergy :=
      fold_left (fun a x => a + energy x) last7 (Fin 0)
      / Num.of_nat (length last7) in
    let avgSleep :=
      fold_left (fun a x => a + sleepHours x) last7 (Fin 0)
      / Num.of_nat (length last7) in
    let loadDays :=
      Num.of_nat (length (List.filter (fun x => existsb value (loadItems x)) last7)) in
    let virtueDays :=
      Num.of_nat (length (List.filter (fun x => virtuesCount (virtues x) >=? 1) last7)) in
    let score := avgEnergy * 10 in
    let score := if avgSleep >=? 7.5 then score + 5 else score in
    let score := if loadDays >=? 3 then score - 8 else score in
    let score := if virtueDays >=? 4 then score + 6 else score in
    clamp (Math_round score) 0 100
  end.

(* ================================================================== *)
(** ** Coach tasks *)
(* ================================================================== *)

Module Level.
Inductive t : Type := Easy | Medium | Hard.
End Level.

Record CoachTask : Type := mkCoachTask {
  level : Level.t;
  text : string;
  why : string
}.

(** [tasks.push(t)] *)
Definition push {A : Type} (tasks : list A) (t : A) : list A := tasks ++ [t].

Definition coachTasks (today : Checkin) (dayNumber : number)
    (strictness : Strictness) : list CoachTask :=
  let tasks : list CoachTask := [] in
  let dls := computeDLS today in
  let early := dayNumber <=? 10 in
  let late := dayNumber >? 40 in
  (* EASY *)
  let tasks :=
    if early then
      push tasks {| level := Level.Easy;
                    text := "5-minute grounding walk (no phone).";
                    why := "Early resets succeed through tiny stable habits, not intensity." |}
    else if negb late then
      push tasks {| level := Level.Easy;
                    text := "Set a 60-minute stimulus-free focus block.";
                    why := "Mid-phase: extend clarity windows gradually." |}
    else
      push tasks {| level := Level.Easy;
                    text := "Plan tomorrow’s top 3 in 90 seconds.";
                    why := "Late-phase: optimize momentum, not restriction." |} in
  (* MEDIUM *)
  let tasks :=
    if sleepHours today <? 7 then
      push tasks {| level := Level.Medium;
                    text := "Lights-out time tonight + 20-minute wind-down.";
                    why := "Sleep debt amplifies cravings and worsens baseline stability." |}
    else if caffeineMg today >? 200 then
      push tasks {| level := Level.Medium;
                    text := "Cap caffeine by 2PM; swap one dose for water.";
                    why := "Caffeine can mask fatigue and distort natural calibration." |}
    else
      push tasks {| level := Level.Medium;
                    text := "2–3 sets of light movement (push-ups or squats).";
                    why := "Light training boosts dopamine tone without spiking it." |} in
  (* HARD *)
  let anyLoad := existsb value (loadItems today) in
  let tasks :=
    if dls >? 70 then
      push tasks {| level := Level.Hard;
                    text := "Full evening detox: no social media after 8PM.";
                    why := "High-load days benefit most from removing high-density stimuli." |}
    else if anyLoad then
      push tasks {| level := Level.Hard;
                    text := "Recovery protocol: 20-min walk + protein + early bed.";
                    why := "A structured rebound stabilizes the next 48 hours." |}
    else if match strictness with Hard => true | _ => false end then
      push tasks {| level := Level.Hard;
                    text := "Phone out of bedroom + no screens final 45 minutes.";
                    why := "Hard mode uses environment control to maximize consistency." |}
    else if late then
      push tasks {| level := Level.Hard;
                    text := "24-hour low-stimulus cycle (no shortform content).";
                    why := "Late-phase: deepen discipline with bigger resets." |}
    else
      push tasks {| level := Level.Hard;
                    text := "No phone in bed tonight.";
                    why := "Prevents unconscious dopamine loops at night." |} in
  firstn 3 tasks.

(* ================================================================== *)
(** ** Saving a check-in *)
(* ================================================================== *)

(** [Array.prototype.sort(comparefn)].  The model is the stable insertion
    sort, in which [x] is placed after [y] exactly when
    [comparefn(x, y) > 0]; no element is compared with itself.  On records
    of pairwise distinct dates the comparator of [saveCheckin] is a strict
    total order, and every sort that orders by it returns the same list
    ([sorted_by_date_unique] below). *)
Section ArraySort.
Context {A : Type} (comparefn : A -> A -> number).

Fixpoint sort_insert (x : A) (l : list A) : list A :=
  match l with
  | [] => [x]
  | y :: l' => if comparefn x y >? 0 then y :: sort_insert x l' else x :: l
  end.

Fixpoint Array_sort (l : list A) : list A :=
  match l with
  | [] => []
  | x :: l' => sort_insert x (Array_sort l')
  end.
End ArraySort.

(** [a.date === b.date] and [a.date < b.date] on strings. *)
Definition date_eqb (a b : Checkin) : bool := String.eqb (date a) (date b).
Definition date_ltb (a b : Checkin) : bool := String.ltb (date a) (date b).

(** The state updater of [saveCheckin]; with no draft the handler returns
    before it touches the history. *)
Definition saveCheckin (draft : option Checkin) (prev : list Checkin)
    : list Checkin :=
  match draft with
  | None => prev
  | Some draft =>
    let exists_ := existsb (fun x => date_eqb x draft) prev in
    let next :=
      if exists_ then map (fun x => if date_eqb x draft then draft else x) prev
      else prev ++ [draft] in
    Array_sort (fun a b => if date_ltb a b then -1 else 1) next
  end.

(* ================================================================== *)
(** ** Record updates [{ ...d, field: v }] *)
(* ================================================================== *)

Definition set_loadItems (v : list ToggleItem) (d : Checkin) : Checkin :=
  mkCheckin (date d) v (virtues d) (sleepHours d) (sleepQuality d)
    (caffeineMg d) (socialMinutes d) (workout d) (mood d) (energy d)
    (junkFood d) (notes d) (calories d) (proteinG d) (carbsG d) (fatG d).

Definition set_virtues (v : Virtues) (d : Checkin) : Checkin :=
  mkCheckin (date d) (loadItems d) v (sleepHours d) (sleepQuality d)
    (caffeineMg d) (socialMinutes d) (workout d) (mood d) (energy d)
    (junkFood d) (notes d) (calories d) (proteinG d) (carbsG d) (fatG d).

Definition set_sleepHours (v : number) (d : Checkin) : Checkin :=
  mkCheckin (date d) (loadItems d) (virtues d) v (sleepQuality d)
    (caffeineMg d) (socialMinutes d) (workout d) (mood d) (energy d)
    (junkFood d) (notes d) (calories d) (proteinG d) (carbsG d) (fatG d).

Definition set_caffeineMg (v : number) (d : Checkin) : Checkin :=
  mkCheckin (date d) (loadItems d) (virtues d) (sleepHours d) (sleepQuality d)
    v (socialMinutes d) (workout d) (mood d) (energy d)
    (junkFood d) (notes d) (calories d) (proteinG d) (carbsG d) (fatG d).

Definition set_socialMinutes (v : number) (d : Checkin) : Checkin :=
  mkCheckin (date d) (loadItems d) (virtues d) (sleepHours d) (sleepQuality d)
    (caffeineMg d) v (workout d) (mood d) (energy d)
    (junkFood d) (notes d) (calories d) (proteinG d) (carbsG d) (fatG d).

Definition set_workout (v : bool) (d : Checkin) : Checkin :=
  mkCheckin (date d) (loadItems d) (virtues d) (sleepHours d) (sleepQuality d)
    (caffeineMg d) (socialMinutes d) v (mood d) (energy d)
    (junkFood d) (notes d) (calories d) (proteinG d) (carbsG d) (fatG d).

Definition set_junkFood (v : bool) (d : Checkin) : Checkin :=
  mkCheckin (date d) (loadItems d) (virtues d) (sleepHours d) (sleepQuality d)
    (caffeineMg d) (socialMinutes d) (workout d) (mood d) (energy d)
    v (notes d) (calories d) (proteinG d) (carbsG d) (fatG d).

Definition set_calories (v : number) (d : Checkin) : Checkin :=
  mkCheckin (date d) (loadItems d) (virtues d) (sleepHours d) (sleepQuality d)
    (caffeineMg d) (socialMinutes d) (workout d) (mood d) (energy d)
    (junkFood d) (notes d) v (proteinG d) (carbsG d) (fatG d).

Definition set_proteinG (v : number) (d : Checkin) : Checkin :=
  mkCheckin (date d) (loadItems d) (virtues d) (sleepHours d) (sleepQuality d)
    (caffeineMg d) (socialMinutes d) (workout d) (mood d) (energy d)
    (junkFood d) (notes d) (calories d) v (carbsG d) (fatG d).

Definition set_carbsG (v : number) (d : Checkin) : Checkin :=
  mkCheckin (date d) (loadItems d) (virtues d) (sleepHours d) (sleepQuality d)
    (caffeineMg d) (socialMinutes d) (workout d) (mood d) (energy d)
    (junkFood d) (notes d) (calories d) (proteinG d) v (fatG d).

Definition set_fatG (v : number) (d : Checkin) : Checkin :=
  mkCheckin (date d) (loadItems d) (virtues d) (sleepHours d) (sleepQuality d)
    (caffeineMg d) (socialMinutes d) (workout d) (mood d) (energy d)
    (junkFood d) (notes d) (calories d) (proteinG d) (carbsG d) v.

(* ================================================================== *)
(** ** Characters and digit scanning (shared by the two parsers) *)
(* ================================================================== *)

Definition code (c : ascii) : N := N_of_ascii c.

Definition is_digit (c : ascii) : bool :=
  (48 <=? code c)%N && (code c <=? 57)%N.

Definition digit_value (c : ascii) : Z := Z.of_N (code c) - 48.

(** Reads a maximal run of decimal digits: the value read (continuing
    [acc]), how many digits there were, and the rest of the input. *)
Fixpoint scan_digits (acc : Z) (cs : list ascii) : Z * nat * list ascii :=
  match cs with
  | c :: r =>
    if is_digit c then
      let '(v, n, rest) := scan_digits (acc * 10 + digit_value c) r in
      (v, S n, rest)
    else (acc, O, cs)
  | [] => (acc, O, [])
  end.

Definition is_sign (c : ascii) : bool :=
  Ascii.eqb c "+" || Ascii.eqb c "-".

Definition is_e (c : ascii) : bool :=
  Ascii.eqb c "e" || Ascii.eqb c "E".

(** The exponent part [e[+-]digits], if one starts here: [Some (e, rest)];
    [Some (0, cs)] when no exponent starts; [None] when [e] is followed by
    no digit. *)
Definition scan_exponent (cs : list ascii) : option (Z * list ascii) :=
  match cs with
  | c :: r =>
    if is_e c then
      let '(neg, r1) :=
        match r with
        | s :: r' => if is_sign s then (Ascii.eqb s "-", r') else (false, r)
        | [] => (false, r)
        end in
      let '(e, n, rest) := scan_digits 0 r1 in
      match n with
      | O => None
      | _ => Some (if neg then - e else e, rest)%Z
      end
    else Some (0%Z, cs)
  | [] => Some (0%Z, [])
  end.

(** The input after the word [p], if the input starts with it. *)
Fixpoint strip_prefix (p cs : list ascii) : option (list ascii) :=
  match p, cs with
  | [], _ => Some cs
  | a :: p', c :: cs' => if Ascii.eqb a c then strip_prefix p' cs' else None
  | _ :: _, [] => None
  end.

(** The shape of an unsigned decimal literal read from the input: how many
    digits stand before and after the point, whether there is a point, the
    value, and the input left. *)
Record Decimal : Type := mkDecimal {
  int_digits : nat;
  has_dot : bool;
  frac_digits : nat;
  dec_value : Q;
  dec_rest : list ascii
}.

Definition scan_decimal (cs : list ascii) : option Decimal :=
  let '(i, ni, r1) := scan_digits 0 cs in
  let '(m, dot, nf, r2) :=
    match r1 with
    | c :: r =>
      if Ascii.eqb c "." then
        let '(m, nf, r2) := scan_digits i r in (m, true, nf, r2)
      else (i, false, O, r1)
    | [] => (i, false, O, r1)
    end in
  match scan_exponent r2 with
  | None => None
  | Some (e, rest) =>
    Some {| int_digits := ni; has_dot := dot; frac_digits := nf;
            dec_value := Qred (inject_Z m * Qpower 10 (e - Z.of_nat nf))%Q;
            dec_rest := rest |}
  end.

(* ================================================================== *)
(** ** [Number(...)] and the numeric inputs of the check-in form *)
(* ================================================================== *)

(** The white space [Number] skips at both ends (TAB, LF, VT, FF, CR and
    SP; the white space outside ASCII is not modelled). *)
Definition is_StrWhiteSpaceChar (c : ascii) : bool :=
  ((9 <=? code c)%N && (code c <=? 13)%N) || (code c =? 32)%N.

Fixpoint skip_StrWhiteSpace (cs : list ascii) : list ascii :=
  match cs with
  | c :: r => if is_StrWhiteSpaceChar c then skip_StrWhiteSpace r else cs
  | [] => []
  end.

Definition digit_in_radix (radix : Z) (c : ascii) : option Z :=
  let n := Z.of_N (code c) in
  let v : Z :=
    if (48 <=? n)%Z && (n <=? 57)%Z then (n - 48)%Z
    else if (97 <=? n)%Z && (n <=? 102)%Z then (n - 87)%Z
    else if (65 <=? n)%Z && (n <=? 70)%Z then (n - 55)%Z
    else radix in
  if (v <? radix)%Z then Some v else None.

Fixpoint scan_radix (radix : Z) (acc : Z) (cs : list ascii)
    : Z * nat * list ascii :=
  match cs with
  | c :: r =>
    match digit_in_radix radix c with
    | Some v =>
      let '(x, n, rest) := scan_radix radix (acc * radix + v) r in
      (x, S n, rest)
    | None => (acc, O, cs)
    end
  | [] => (acc, O, [])
  end.

(** [0x..], [0o..], [0b..] integer literals. *)
Definition scan_NonDecimalIntegerLiteral (cs : list ascii)
    : option (Z * list ascii) :=
  match cs with
  | z :: p :: r =>
    let radix : Z :=
      if Ascii.eqb p "x" || Ascii.eqb p "X" then 16%Z
      else if Ascii.eqb p "o" || Ascii.eqb p "O" then 8%Z
      else if Ascii.eqb p "b" || Ascii.eqb p "B" then 2%Z
      else 0%Z in
    if Ascii.eqb z "0" && (0 <? radix)%Z then
      let '(x, n, rest) := scan_radix radix 0 r in
      match n with O => None | _ => Some (x, rest) end
    else None
  | _ => None
  end.

(** [Infinity] or an unsigned decimal literal with a digit in it, negated
    when a minus stood before it. *)
Definition scan_StrUnsignedDecimalLiteral (neg : bool) (body : list ascii)
    : option (number * list ascii) :=
  match strip_prefix (list_ascii_of_string "Infinity") body with
  | Some rest => Some (if neg then NegInfinity else PosInfinity, rest)
  | None =>
    match scan_decimal body with
    | Some d =>
      if (0 <? int_digits d)%nat || (0 <? frac_digits d)%nat then
        Some (Fin (if neg then Qred (- dec_value d) else dec_value d),
              dec_rest d)
      else None
    | None => None
    end
  end.

(** A signed decimal literal or a signed [Infinity]. *)
Definition scan_StrDecimalLiteral (cs : list ascii)
    : option (number * list ascii) :=
  match cs with
  | s :: r =>
    if is_sign s then scan_StrUnsignedDecimalLiteral (Ascii.eqb s "-") r
    else scan_StrUnsignedDecimalLiteral false cs
  | [] => None
  end.

(** A literal must be followed by white space only. *)
Definition complete {A : Type} (r : option (A * list ascii)) : option A :=
  match r with
  | Some (v, rest) =>
    match skip_StrWhiteSpace rest with
    | [] => Some v
    | _ => None
    end
  | None => None
  end.

(** [Number(s)] for a string [s] (StringToNumber): white space alone is 0,
    a decimal or non-decimal literal between white space is its value, and
    everything else is NaN. *)
Definition StringToNumber (s : string) : number :=
  match skip_StrWhiteSpace (list_ascii_of_string s) with
  | [] => Fin 0
  | cs =>
    match complete (scan_StrDecimalLiteral cs) with
    | Some n => n
    | None =>
      match complete (scan_NonDecimalIntegerLiteral cs) with
      | Some x => Fin (inject_Z x)
      | None => NaN
      end
    end
  end.

(** [<input type="number">], as the HTML standard defines its value (the
    value sanitization algorithm): the element reports the text it holds
    when that text is a valid floating-point number (an optional minus,
    digits and/or a point followed by digits, an optional exponent), and
    the empty string otherwise.  This is the platform's part; the source's
    part is the [type="number"] attribute of the six inputs and the
    handlers below. *)
Definition valid_floating_point_number (s : string) : bool :=
  let cs := list_ascii_of_string s in
  let body :=
    match cs with
    | c :: r => if Ascii.eqb c "-" then r else cs
    | [] => cs
    end in
  match scan_decimal body with
  | Some d =>
    ((0 <? int_digits d)%nat || has_dot d)
    && (if has_dot d then (0 <? frac_digits d)%nat else true)
    && match dec_rest d with [] => true | _ => false end
  | None => false
  end.




Definition requireDraft (fn : Checkin -> Checkin) (prev : option Checkin)
    : option Checkin :=
  match prev with
  | None => prev
  | Some d => Some (fn d)
  end.


(* ================================================================== *)
(** ** JSON values and [JSON.parse] *)
(* ================================================================== *)

Inductive json : Type :=
| JNull
| JBool (b : bool)
| JNumber (n : Q)
| JString (s : string)
| JArray (items : list json)
| JObject (members : list (string * json)).

Definition is_json_ws (c : ascii) : bool :=
  (code c =? 32)%N || (code c =? 9)%N || (code c =? 10)%N || (code c =? 13)%N.

Fixpoint skip_json_ws (cs : list ascii) : list ascii :=
  match cs with
  | c :: r => if is_json_ws c then skip_json_ws r else cs
  | [] => []
  end.

(** A JSON number: an optional minus, an integer part without a leading
    zero, an optional fraction with at least one digit, an optional
    exponent. *)
Definition parse_json_number (cs : list ascii) : option (json * list ascii) :=
  let '(neg, body) :=
    match cs with
    | c :: r => if Ascii.eqb c "-" then (true, r) else (false, cs)
    | [] => (false, cs)
    end in
  let leading_zero :=
    match body with
    | z :: d :: _ => Ascii.eqb z "0" && is_digit d
    | _ => false
    end in
  match scan_decimal body with
  | Some d =>
    if (0 <? int_digits d)%nat && negb leading_zero
       && (if has_dot d then (0 <? frac_digits d)%nat else true)
    then Some (JNumber (if neg then Qred (- dec_value d) else dec_value d),
               dec_rest d)
    else None
  | None => None
  end.

(** The UTF-8 bytes of the code unit of a [\uXXXX] escape. *)
Definition utf8_of_code_unit (u : N) : list ascii :=
  if (u <? 128)%N then [ascii_of_N u]
  else if (u <? 2048)%N then
    [ascii_of_N (192 + u / 64); ascii_of_N (128 + u mod 64)]
  else
    [ascii_of_N (224 + u / 4096); ascii_of_N (128 + (u / 64) mod 64);
     ascii_of_N (128 + u mod 64)].

Definition hex4 (a b c d : ascii) : option N :=
  match digit_in_radix 16 a, digit_in_radix 16 b,
        digit_in_radix 16 c, digit_in_radix 16 d with
  | Some x, Some y, Some z, Some w =>
    Some (Z.to_N (((x * 16 + y) * 16 + z) * 16 + w))
  | _, _, _, _ => None
  end.

(** The characters of a string literal after its opening quote. *)
Fixpoint parse_json_chars (cs : list ascii) : option (list ascii * list ascii) :=
  let cons_to (c : list ascii) (r : option (list ascii * list ascii)) :=
    match r with
    | Some (s, rest) => Some (c ++ s, rest)
    | None => None
    end in
  match cs with
  | [] => None
  | c :: r =>
    if Ascii.eqb c "034" then Some ([], r)
    else if Ascii.eqb c "\" then
      match r with
      | e :: r' =>
        if Ascii.eqb e "034" || Ascii.eqb e "\" || Ascii.eqb e "/"
        then cons_to [e] (parse_json_chars r')
        else if Ascii.eqb e "b" then cons_to ["008"%char] (parse_json_chars r')
        else if Ascii.eqb e "f" then cons_to ["012"%char] (parse_json_chars r')
        else if Ascii.eqb e "n" then cons_to ["010"%char] (parse_json_chars r')
        else if Ascii.eqb e "r" then cons_to ["013"%char] (parse_json_chars r')
        else if Ascii.eqb e "t" then cons_to ["009"%char] (parse_json_chars r')
        else if Ascii.eqb e "u" then
          match r' with
          | h1 :: h2 :: h3 :: h4 :: r'' =>
            match hex4 h1 h2 h3 h4 with
            | Some u => cons_to (utf8_of_code_unit u) (parse_json_chars r'')
            | None => None
            end
          | _ => None
          end
        else None
      | [] => None
      end
    else if (code c <? 32)%N then None
    else cons_to [c] (parse_json_chars r)
  end.

Definition parse_json_string (cs : list ascii) : option (string * list ascii) :=
  match parse_json_chars cs with
  | Some (s, rest) => Some (string_of_list_ascii s, rest)
  | None => None
  end.

(** The literal names of JSON. *)
Definition parse_json_literal (cs : list ascii) : option (json * list ascii) :=
  match strip_prefix (list_ascii_of_string "null") cs with
  | Some rest => Some (JNull, rest)
  | None =>
    match strip_prefix (list_ascii_of_string "true") cs with
    | Some rest => Some (JBool true, rest)
    | None =>
      match strip_prefix (list_ascii_of_string "false") cs with
      | Some rest => Some (JBool false, rest)
      | None => None
      end
    end
  end.

(** Values, the elements of an array after its bracket, and the members
    of an object after its brace.  Every call hands on less fuel; twice the
    length of the text plus two is enough for every text
    ([JSON_parse_fuel] below). *)
Fixpoint parse_json_value (fuel : nat) (cs : list ascii)
    : option (json * list ascii) :=
  match fuel with
  | O => None
  | S fuel =>
    match skip_json_ws cs with
    | [] => None
    | c :: r =>
      if Ascii.eqb c "[" then
        match skip_json_ws r with
        | c' :: rest =>
          if Ascii.eqb c' "]" then Some (JArray [], rest)
          else
            match parse_json_elements fuel r with
            | Some (items, rest') => Some (JArray items, rest')
            | None => None
            end
        | [] => None
        end
      else if Ascii.eqb c "{" then
        match skip_json_ws r with
        | c' :: rest =>
          if Ascii.eqb c' "}" then Some (JObject [], rest)
          else
            match parse_json_members fuel r with
            | Some (members, rest') => Some (JObject members, rest')
            | None => None
            end
        | [] => None
        end
      else if Ascii.eqb c "034" then
        match parse_json_string r with
        | Some (s, rest) => Some (JString s, rest)
        | None => None
        end
      else
        match parse_json_literal (c :: r) with
        | Some res => Some res
        | None => parse_json_number (c :: r)
        end
    end
  end
with parse_json_elements (fuel : nat) (cs : list ascii)
    : option (list json * list ascii) :=
  match fuel with
  | O => None
  | S fuel =>
    match parse_json_value fuel cs with
    | Some (v, rest) =>
      match skip_json_ws rest with
      | c :: rest' =>
        if Ascii.eqb c "]" then Some ([v], rest')
        else if Ascii.eqb c "," then
          match parse_json_elements fuel rest' with
          | Some (vs, rest'') => Some (v :: vs, rest'')
          | None => None
          end
        else None
      | [] => None
      end
    | None => None
    end
  end
with parse_json_members (fuel : nat) (cs : list ascii)
    : option (list (string * json) * list ascii) :=
  match fuel with
  | O => None
  | S fuel =>
    match skip_json_ws cs with
    | q :: r =>
      if Ascii.eqb q "034" then
        match parse_json_string r with
        | Some (k, r1) =>
          match skip_json_ws r1 with
          | colon :: r2 =>
            if Ascii.eqb colon ":" then
              match parse_json_value fuel r2 with
              | Some (v, rest) =>
                match skip_json_ws rest with
                | c :: rest' =>
                  if Ascii.eqb c "}" then Some ([(k, v)], rest')
                  else if Ascii.eqb c "," then
                    match parse_json_members fuel rest' with
                    | Some (ms, rest'') => Some ((k, v) :: ms, rest'')
                    | None => None
                    end
                  else None
                | [] => None
                end
              | None => None
              end
            else None
          | [] => None
          end
        | None => None
        end
      else None
    | [] => None
    end
  end.

(** [JSON.parse(s)]: [Some v] for the value it returns, [None] when it
    throws a [SyntaxError]. *)
Definition JSON_parse (s : string) : option json :=
  let cs := list_ascii_of_string s in
  match parse_json_value (2 * length cs + 2) cs with
  | Some (v, rest) =>
    match skip_json_ws rest with
    | [] => Some v
    | _ => None
    end
  | None => None
  end.

(* ================================================================== *)
(** ** Persistence *)
(* ================================================================== *)

Definition STORAGE_KEY : string := "drc_v1".

(** [localStorage]: [getItem] is the lookup, [setItem] the insertion. *)
Abbreviation Storage := (gmap string string).

(** [safeParse]; [null] is [JNull], the value [JSON.parse] gives for the
    text [null] as well. *)
Definition safeParse (s : option string) : json :=
  match s with
  | None => JNull
  | Some EmptyString => JNull
  | Some s =>
    match JSON_parse s with
    | Some v => v
    | None => JNull
    end
  end.

(** [o.key] on a parsed value, [None] for [undefined]: the last member of
    that name in an object, nothing in any other value (the four keys read
    below are no property of an array, a string, a number or a boolean). *)
Fixpoint lookup_member (key : string) (members : list (string * json))
    : option json :=
  match members with
  | [] => None
  | (k, v) :: r =>
    match lookup_member key r with
    | Some x => Some x
    | None => if String.eqb k key then Some v else None
    end
  end.

Definition get_prop (o : json) (key : string) : option json :=
  match o with
  | JObject members => lookup_member key members
  | _ => None
  end.

(** [saved?.key ?? dflt] *)
Definition optional_prop (saved : json) (key : string) : option json :=
  match saved with
  | JNull => None
  | _ => get_prop saved key
  end.

Definition nullish (v : option json) (dflt : json) : json :=
  match v with
  | None | Some JNull => dflt
  | Some x => x
  end.

Record TrackedMacros : Type := mkTrackedMacros {
  track_calories : bool;
  track_protein : bool;
  track_carbs : bool;
  track_fat : bool
}.

Definition DEFAULT_MACROS : TrackedMacros :=
  {| track_calories := true; track_protein := true;
     track_carbs := false; track_fat := false |}.





Definition Strictness_toJSON (s : Strictness) : json :=
  JString match s with
          | Light => "Light"
          | Standard => "Standard"
          | Hard => "Hard"
          end.

Definition TrackedMacros_toJSON (m : TrackedMacros) : json :=
  JObject [("calories", JBool (track_calories m));
           ("protein", JBool (track_protein m));
           ("carbs", JBool (track_carbs m));
           ("fat", JBool (track_fat m))].

Record PersistedState : Type := mkPersistedState {
  history : list Checkin;
  planDays : number;
  strictness : Strictness;
  trackedMacros : TrackedMacros
}.


(** The value of [initial]: the four fields are what was parsed, used at
    their declared types without a check, or the defaults. *)
Record Initial : Type := mkInitial {
  initial_history : json;
  initial_planDays : json;
  initial_strictness : json;
  initial_trackedMacros : json
}.

Definition default_initial : Initial :=
  {| initial_history := JArray [];
     initial_planDays := JNumber 100;
     initial_strictness := Strictness_toJSON Standard;
     initial_trackedMacros := TrackedMacros_toJSON DEFAULT_MACROS |}.

Definition initial (window_defined : bool) (localStorage : Storage) : Initial :=
  if negb window_defined then
    {| initial_history := JArray [];
       initial_planDays := JNumber 100;
       initial_strictness := Strictness_toJSON Standard;
       initial_trackedMacros := TrackedMacros_toJSON DEFAULT_MACROS |}
  else
    let saved := safeParse (localStorage !! STORAGE_KEY) in
    {| initial_history := nullish (optional_prop saved "history") (JArray []);
       initial_planDays := nullish (optional_prop saved "planDays") (JNumber 100);
       initial_strictness :=
         nullish (optional_prop saved "strictness") (Strictness_toJSON Standard);
       initial_trackedMacros :=
         nullish (optional_prop saved "trackedMacros")
                 (TrackedMacros_toJSON DEFAULT_MACROS) |}.

(** The state of the component and the values derived from it. *)
Record AppState : Type := mkAppState {
  st_history : list Checkin;
  st_planDays : number;
  st_strictness : Strictness;
  st_trackedMacros : TrackedMacros;
  st_draft : option Checkin
}.

Definition dayNumber (st : AppState) : number :=
  Num.of_nat (length (st_history st)).

Definition active (st : AppState) : option Checkin :=
  match st_draft st with
  | Some d => Some d
  | None => last (st_history st)
  end.

Definition dls (st : AppState) : number :=
  match active st with
  | Some a => computeDLS a
  | None => 0
  end.

Definition nei (st : AppState) : number := computeNEI (st_history st).

Definition tasks (st : AppState) : list CoachTask :=
  match active st with
  | Some a =>
    coachTasks a (match st_history st with [] => 1 | _ => dayNumber st end)
               (st_strictness st)
  | None => []
  end.

Definition payload (st : AppState) : PersistedState :=
  {| history := st_history st;
     planDays := st_planDays st;
     strictness := st_strictness st;
     trackedMacros := st_trackedMacros st |}.

(** The persistence effect; [JSON.stringify] is left abstract. *)
Section Persistence.
Variable JSON_stringify : json -> string.

End Persistence.


(* ================================================================== *)
(** ** Valid records, orders, and the formulas of the specification *)
(* ================================================================== *)

Definition is_finite (x : number) : bool :=
  match x with
  | Fin _ => true
  | _ => false
  end.

(** A check-in is valid when its ten numeric fields are finite. *)
Definition valid_checkin (d : Checkin) : bool :=
  is_finite (sleepHours d) && is_finite (sleepQuality d)
  && is_finite (caffeineMg d) && is_finite (socialMinutes d)
  && is_finite (mood d) && is_finite (energy d)
  && is_finite (calories d) && is_finite (proteinG d)
  && is_finite (carbsG d) && is_finite (fatG d).

(** [x] is an integer between [lo] and [hi]. *)
Definition integer_in (lo hi : Z) (x : number) : Prop :=
  exists z : Z, x = Fin (inject_Z z) /\ (lo <= z <= hi)%Z.

(** Equality of numbers up to the representation of a rational. *)
Definition num_eq (x y : number) : Prop :=
  match x, y with
  | Fin a, Fin b => (a == b)%Q
  | NaN, NaN | PosInfinity, PosInfinity | NegInfinity, NegInfinity => True
  | _, _ => False
  end.

Definition num_le (x y : number) : Prop := Num.leb x y = true.

Infix "≈" := num_eq (at level 70) : js_scope.
Infix "⪯" := num_le (at level 70) : js_scope.

(** Minimum, maximum and clamp on rationals, the finite case of
    [Math.min], [Math.max] and [clamp]. *)
Definition qmin (a b : Q) : Q := if Qle_bool a b then a else b.
Definition qmax (a b : Q) : Q := if Qle_bool a b then b else a.
Definition qclamp (n lo hi : Q) : Q := qmax lo (qmin hi n).

(** The specification's words for the DLS formula. *)
Definition count_on (items : list ToggleItem) : nat :=
  count_occ bool_dec (map value items) true.

Definition count_virtues (v : Virtues) : nat :=
  (Nat.b2n (study v) + Nat.b2n (gym v) + Nat.b2n (meditate v))%nat.

Definition DLS_formula (d : Checkin) : number :=
  clamp
    (Math_round
       (clamp (socialMinutes d / 10 * 3) 0 30
        + clamp (caffeineMg d / 50 * 2.5) 0 20
        + (if junkFood d then 10 else 0)
        + clamp (6 * Num.of_nat (count_on (loadItems d))) 0 30
        - clamp (3 * Num.of_nat (count_virtues (virtues d))) 0 12
        - (if workout d then 10 else 0)
        - (if sleepHours d >=? 7.5 then 10 else 0)))
    0 100.




Definition some_load_on (d : Checkin) : bool :=
  negb (Nat.eqb (count_on (loadItems d)) 0).

Definition some_virtue_on (d : Checkin) : bool :=
  study (virtues d) || gym (virtues d) || meditate (virtues d).



(** The specification's decision table for the coach. *)
Inductive Phase : Type := Early | Mid | Late.

Definition phase_of (dayNumber : number) : Phase :=
  if dayNumber >? 40 then Late
  else if dayNumber <=? 10 then Early
  else Mid.

Definition easy_task (p : Phase) : CoachTask :=
  match p with
  | Early =>
    mkCoachTask Level.Easy "5-minute grounding walk (no phone)."
      "Early resets succeed through tiny stable habits, not intensity."
  | Mid =>
    mkCoachTask Level.Easy "Set a 60-minute stimulus-free focus block."
      "Mid-phase: extend clarity windows gradually."
  | Late =>
    mkCoachTask Level.Easy "Plan tomorrow’s top 3 in 90 seconds."
      "Late-phase: optimize momentum, not restriction."
  end.

Definition medium_task (today : Checkin) : CoachTask :=
  if sleepHours today <? 7 then
    mkCoachTask Level.Medium "Lights-out time tonight + 20-minute wind-down."
      "Sleep debt amplifies cravings and worsens baseline stability."
  else if caffeineMg today >? 200 then
    mkCoachTask Level.Medium "Cap caffeine by 2PM; swap one dose for water."
      "Caffeine can mask fatigue and distort natural calibration."
  else
    mkCoachTask Level.Medium "2–3 sets of light movement (push-ups or squats)."
      "Light training boosts dopamine tone without spiking it.".

Definition environment_control : CoachTask :=
  mkCoachTask Level.Hard "Phone out of bedroom + no screens final 45 minutes."
    "Hard mode uses environment control to maximize consistency.".

Definition hard_task (today : Checkin) (p : Phase) (strictness : Strictness)
    : CoachTask :=
  if computeDLS today >? 70 then
    mkCoachTask Level.Hard "Full evening detox: no social media after 8PM."
      "High-load days benefit most from removing high-density stimuli."
  else if some_load_on today then
    mkCoachTask Level.Hard "Recovery protocol: 20-min walk + protein + early bed."
      "A structured rebound stabilizes the next 48 hours."
  else
    match strictness, p with
    | Hard, _ => environment_control
    | _, Late =>
      mkCoachTask Level.Hard "24-hour low-stimulus cycle (no shortform content)."
        "Late-phase: deepen discipline with bigger resets."
    | _, _ =>
      mkCoachTask Level.Hard "No phone in bed tonight."
        "Prevents unconscious dopamine loops at night."
    end.

Definition coach_table (today : Checkin) (dayNumber : number)
    (strictness : Strictness) : list CoachTask :=
  [ easy_task (phase_of dayNumber);
    medium_task today;
    hard_task today (phase_of dayNumber) strictness ].

(** Order and key of the history. *)
Definition dates (h : list Checkin) : list string := map date h.

Definition date_lt (a b : Checkin) : Prop := String.ltb (date a) (date b) = true.

(** The comparator [saveCheckin] passes to [sort], and the function it
    maps over the history when the date is already there. *)
Definition by_date (a b : Checkin) : number := if date_ltb a b then -1 else 1.

Definition replace_by_date (draft x : Checkin) : Checkin :=
  if date_eqb x draft then draft else x.

(** The value [computeDLS] rounds, as a rational, from the two clamped
    terms [qs] (social) and [qc] (caffeine) and the discrete inputs. *)
Definition dls_raw (qs qc : Q) (junk : bool) (nload nvirt : nat)
    (workout good : bool) : Q :=
  (qs + qc + (if junk then 10 else 0)
   + qclamp (6 * inject_Z (Z.of_nat nload)) 0 30
   + - qclamp (3 * inject_Z (Z.of_nat nvirt)) 0 12
   + - (if workout then 10 else 0)
   + - (if good then 10 else 0))%Q.

Definition good_sleep (d : Checkin) : bool := sleepHours d >=? 7.5.

(** [x] is not greater than [y]: [y < x] is false.  On numbers that are
    not NaN this is [x <= y]; it holds as soon as one of them is NaN. *)
Definition not_greater (x y : number) : Prop := (y <? x) = false.

(** [computeDLS] goes up, in the order [R], with the social minutes, the
    caffeine, junk food and the load items that are on, and down with the
    virtues that are on, the workout and the hours of sleep, every other
    field of [d] being fixed. *)
Definition monotone_in_each_input (R : number -> number -> Prop) (d : Checkin)
    : Prop :=
  (forall s1 s2 : number, 0 ⪯ s1 -> s1 ⪯ s2 ->
     R (computeDLS (set_socialMinutes s1 d)) (computeDLS (set_socialMinutes s2 d)))
  /\ (forall c1 c2 : number, 0 ⪯ c1 -> c1 ⪯ c2 ->
        R (computeDLS (set_caffeineMg c1 d)) (computeDLS (set_caffeineMg c2 d)))
  /\ R (computeDLS (set_junkFood false d)) (computeDLS (set_junkFood true d))
  /\ (forall l1 l2 : list ToggleItem, (count_on l1 <= count_on l2)%nat ->
        R (computeDLS (set_loadItems l1 d)) (computeDLS (set_loadItems l2 d)))
  /\ (forall v1 v2 : Virtues, (count_virtues v1 <= count_virtues v2)%nat ->
        R (computeDLS (set_virtues v2 d)) (computeDLS (set_virtues v1 d)))
  /\ R (computeDLS (set_workout true d)) (computeDLS (set_workout false d))
  /\ (forall h1 h2 : number, h1 ⪯ h2 ->
        R (computeDLS (set_sleepHours h2 d)) (computeDLS (set_sleepHours h1 d))).



(** The record of the specification's example, and a small history. *)
Definition example_day : Checkin :=
  {| date := "2025-01-02";
     loadItems := [];
     virtues := {| study := false; gym := false; meditate := false |};
     sleepHours := 6;
     sleepQuality := 7;
     caffeineMg := 100;
     socialMinutes := 100;
     workout := false;
     mood := 7;
     energy := 7;
     junkFood := true;
     notes := EmptyString;
     calories := 0;
     proteinG := 0;
     carbsG := 0;
     fatG := 0 |}.

Definition example_history : list Checkin :=
  [makeDefaultCheckin "2025-01-03"; makeDefaultCheckin "2025-01-02";
   makeDefaultCheckin "2025-01-01"].

Definition example_state : AppState :=
  {| st_history := example_history;
     st_planDays := 100;
     st_strictness := Standard;
     st_trackedMacros := DEFAULT_MACROS;
     st_draft := Some example_day |}.

(** The JSON text of an object with the one member [planDays], 30. *)
Definition example_saved_text : string :=
  String "{" (String "034" "planDays" ++ String "034" ":30}").

(* ================================================================== *)
(** ** Load items: lookup, update, removal, and the editor's add *)
(* ================================================================== *)

(** [Array.prototype.findIndex], [None] for -1. *)
Fixpoint findIndex {A : Type} (p : A -> bool) (l : list A) : option nat :=
  match l with
  | [] => None
  | x :: l' => if p x then Some O else option_map S (findIndex p l')
  end.

(** [String.prototype.toLowerCase], [trim] and the repository's [titleCase]
    are parameters of this section: what is proved of the functions below
    holds whatever they compute. *)
Section ToggleItems.
Variable toLowerCase : string -> string.

(** [a.toLowerCase() === b.toLowerCase()] *)
Definition same_label (a b : string) : bool :=
  String.eqb (toLowerCase a) (toLowerCase b).

Definition getToggle (items : list ToggleItem) (lbl : string)
    : option ToggleItem :=
  List.find (fun x => same_label (label x) lbl) items.

(** [next[idx] = { ...next[idx], value }], [idx] being an index of the
    list, is the list with the value of that item changed. *)
Definition upsertToggle (items : list ToggleItem) (lbl : string)
    (val : bool) : list ToggleItem :=
  let idx := findIndex (fun x => same_label (label x) lbl) items in
  match idx with
  | None => items ++ [{| label := lbl; value := val |}]
  | Some idx =>
    let next := items in
    alter (fun it => {| label := label it; value := val |}) idx next
  end.

Definition removeToggle (items : list ToggleItem) (lbl : string)
    : list ToggleItem :=
  List.filter (fun x => negb (same_label (label x) lbl)) items.

(** No two items of the list have labels that the three functions above
    take for the same. *)
Definition distinct_labels (items : list ToggleItem) : Prop :=
  List.NoDup (map (fun x => toLowerCase (label x)) items).

(** [addItem] of [ToggleListEditor], as a function of the items and of the
    text of the field, giving the new items and the new text. *)
Variable trim : string -> string.
Variable titleCase : string -> string.

Definition addItem (items : list ToggleItem) (draftLabel : string)
    : list ToggleItem * string :=
  let lbl := trim draftLabel in
  match lbl with
  | EmptyString => (items, draftLabel)
  | _ =>
    if existsb (fun x => same_label (label x) lbl) items
    then (items, EmptyString)
    else (items ++ [{| label := titleCase lbl; value := false |}],
          EmptyString)
  end.
End ToggleItems.

(* ================================================================== *)
(** ** Strings of ASCII characters: [titleCase] *)
(* ================================================================== *)

(** The string methods [titleCase] and [addItem] call, on strings all of
    whose characters are below 128, where one character of the string is
    one code unit.  There the white space of [trim] and of the class [\s]
    is [is_StrWhiteSpaceChar], and the case mappings change the 26 letters
    only. *)
Module ASCII.

Definition is_ascii (s : string) : bool :=
  forallb (fun c => (code c <? 128)%N) (list_ascii_of_string s).

Definition is_upper (c : ascii) : bool :=
  ((65 <=? code c) && (code c <=? 90))%N.

Definition is_lower (c : ascii) : bool :=
  ((97 <=? code c) && (code c <=? 122))%N.

Definition lower (c : ascii) : ascii :=
  if is_upper c then ascii_of_N (code c + 32) else c.

Definition upper (c : ascii) : ascii :=
  if is_lower c then ascii_of_N (code c - 32) else c.

Definition toLowerCase (s : string) : string :=
  string_of_list_ascii (map lower (list_ascii_of_string s)).

Definition trimStart (cs : list ascii) : list ascii := skip_StrWhiteSpace cs.

Fixpoint trimEnd (cs : list ascii) : list ascii :=
  match cs with
  | [] => []
  | c :: r =>
    match trimEnd r with
    | [] => if is_StrWhiteSpaceChar c then [] else [c]
    | r' => c :: r'
    end
  end.

Definition trim (s : string) : string :=
  string_of_list_ascii (trimEnd (trimStart (list_ascii_of_string s))).

(** [.replace(/\s+/g, " ")]: every maximal run of white space becomes one
    space; a white-space character gives the space when it ends its run. *)
Fixpoint replace_whitespace (cs : list ascii) : list ascii :=
  match cs with
  | [] => []
  | c :: r =>
    if is_StrWhiteSpaceChar c then
      match r with
      | c' :: _ =>
        if is_StrWhiteSpaceChar c' then replace_whitespace r
        else " "%char :: replace_whitespace r
      | [] => [" "%char]
      end
    else c :: replace_whitespace r
  end.

(** [.split(sep)] for a separator of one character: the pieces between
    the separators, one piece (the empty one) for the empty string. *)
Fixpoint split (sep : ascii) (cs : list ascii) : list (list ascii) :=
  match cs with
  | [] => [[]]
  | c :: r =>
    if Ascii.eqb c sep then [] :: split sep r
    else
      match split sep r with
      | w :: ws => (c :: w) :: ws
      | [] => [[c]]
      end
  end.

Fixpoint join (sep : list ascii) (ws : list (list ascii)) : list ascii :=
  match ws with
  | [] => []
  | w :: ws' =>
    match ws' with
    | [] => w
    | _ => w ++ sep ++ join sep ws'
    end
  end.

(** [w ? w[0].toUpperCase() + w.slice(1) : w] *)
Definition capitalise (w : list ascii) : list ascii :=
  match w with
  | [] => w
  | c :: r => upper c :: r
  end.

Definition titleCase (s : string) : string :=
  string_of_list_ascii
    (join [" "%char]
       (map capitalise
          (split " "
             (replace_whitespace
                (trimEnd (trimStart (list_ascii_of_string s))))))).

(** The same text computed in one pass: a character at the start or after
    a space is put in upper case. *)
Fixpoint capitalise_after (at_start : bool) (cs : list ascii) : list ascii :=
  match cs with
  | [] => []
  | c :: r =>
    if Ascii.eqb c " " then c :: capitalise_after true r
    else (if at_start then upper c else c) :: capitalise_after false r
  end.

(** The editor of the load items on such strings. *)
Definition addItem : list ToggleItem -> string -> list ToggleItem * string :=
  addItem toLowerCase trim titleCase.

(** A text in which white space occurs only as single spaces between
    words. *)
Fixpoint spaced (after_space : bool) (cs : list ascii) : bool :=
  match cs with
  | [] => negb after_space
  | c :: r =>
    if is_StrWhiteSpaceChar c
    then Ascii.eqb c " " && negb after_space && spaced true r
    else spaced false r
  end.

Definition single_spaced (s : string) : bool :=
  match s with
  | EmptyString => true
  | _ => spaced true (list_ascii_of_string s)
  end.

(** The first letters of the words of a text: the characters at the start
    and after a space. *)
Fixpoint word_starts (at_start : bool) (cs : list ascii) : list ascii :=
  match cs with
  | [] => []
  | c :: r =>
    if Ascii.eqb c " " then word_starts true r
    else if at_start then c :: word_starts false r else word_starts false r
  end.

Definition capitalised (s : string) : bool :=
  forallb (fun c => negb (is_lower c))
          (word_starts true (list_ascii_of_string s)).

End ASCII.

(* ================================================================== *)
(** ** The handlers of the component *)
(* ================================================================== *)

Definition progressPct (st : AppState) : number :=
  if st_planDays st <=? 0 then 0
  else clamp (Math_round ((dayNumber st / st_planDays st) * 100)) 0 100.

(** [{ ...d, date: v }], the update of the date field of the form. *)
Definition set_date (v : string) (d : Checkin) : Checkin :=
  mkCheckin v (loadItems d) (virtues d) (sleepHours d) (sleepQuality d)
            (caffeineMg d) (socialMinutes d) (workout d) (mood d) (energy d)
            (junkFood d) (notes d) (calories d) (proteinG d) (carbsG d)
            (fatG d).

Module Macro.
Inductive key : Type := calories | protein | carbs | fat.
End Macro.

(** [{ ...prev, [m]: !prev[m] }] *)
Definition toggle_macro (m : Macro.key) (prev : TrackedMacros) : TrackedMacros :=
  match m with
  | Macro.calories =>
    mkTrackedMacros (negb (track_calories prev)) (track_protein prev)
                    (track_carbs prev) (track_fat prev)
  | Macro.protein =>
    mkTrackedMacros (track_calories prev) (negb (track_protein prev))
                    (track_carbs prev) (track_fat prev)
  | Macro.carbs =>
    mkTrackedMacros (track_calories prev) (track_protein prev)
                    (negb (track_carbs prev)) (track_fat prev)
  | Macro.fat =>
    mkTrackedMacros (track_calories prev) (track_protein prev)
                    (track_carbs prev) (negb (track_fat prev))
  end.

(** The handlers as functions of the state they are called in.  The date
    of today, [yyyyMmDd(new Date())], and [addDays], which goes through
    the [Date] of the browser, are parameters. *)
Section Handlers.
Variable today : string.
Variable addDays : string -> number -> string.

Definition nextDate (history : list Checkin) : string :=
  match last history with
  | None => today
  | Some l => addDays (date l) 1
  end.

Definition addDay (st : AppState) : AppState :=
  let next := makeDefaultCheckin (nextDate (st_history st)) in
  {| st_history := st_history st ++ [next];
     st_planDays := st_planDays st;
     st_strictness := st_strictness st;
     st_trackedMacros := st_trackedMacros st;
     st_draft := Some next |}.

(** [prev.slice(0, -1)] is the list without its last element. *)
Definition removeDay (st : AppState) : AppState :=
  {| st_history :=
       match st_history st with
       | [] => st_history st
       | _ => removelast (st_history st)
       end;
     st_planDays := st_planDays st;
     st_strictness := st_strictness st;
     st_trackedMacros := st_trackedMacros st;
     st_draft := None |}.

Definition save (st : AppState) : AppState :=
  {| st_history := saveCheckin (st_draft st) (st_history st);
     st_planDays := st_planDays st;
     st_strictness := st_strictness st;
     st_trackedMacros := st_trackedMacros st;
     st_draft := st_draft st |}.

Definition resetDraftToActive (st : AppState) : AppState :=
  match active st with
  | None => st
  | Some a =>
    {| st_history := st_history st;
       st_planDays := st_planDays st;
       st_strictness := st_strictness st;
       st_trackedMacros := st_trackedMacros st;
       st_draft := Some a |}
  end.

Definition edit (fn : Checkin -> Checkin) (st : AppState) : AppState :=
  {| st_history := st_history st;
     st_planDays := st_planDays st;
     st_strictness := st_strictness st;
     st_trackedMacros := st_trackedMacros st;
     st_draft := requireDraft fn (st_draft st) |}.

(** [resetAll] removes the saved item and sets four of the five state
    variables. *)
Definition resetAll (st : AppState) (localStorage : Storage)
    : AppState * Storage :=
  ({| st_history := [];
      st_planDays := 100;
      st_strictness := Standard;
      st_trackedMacros := st_trackedMacros st;
      st_draft := None |},
   delete STORAGE_KEY localStorage).

(** What the user can do, and the state after it. *)
Inductive Event : Type :=
| AddDay
| RemoveDay
| SaveCheckin
| ResetDraftToActive
| ResetAll
| EditDraft (fn : Checkin -> Checkin)
| SetPlanDays (n : number)
| SetStrictness (s : Strictness)
| ToggleMacro (m : Macro.key).

Definition handle (e : Event) (st : AppState) : AppState :=
  match e with
  | AddDay => addDay st
  | RemoveDay => removeDay st
  | SaveCheckin => save st
  | ResetDraftToActive => resetDraftToActive st
  | ResetAll => fst (resetAll st ∅)
  | EditDraft fn => edit fn st
  | SetPlanDays n =>
    mkAppState (st_history st) n (st_strictness st) (st_trackedMacros st)
               (st_draft st)
  | SetStrictness s =>
    mkAppState (st_history st) (st_planDays st) s (st_trackedMacros st)
               (st_draft st)
  | ToggleMacro m =>
    mkAppState (st_history st) (st_planDays st) (st_strictness st)
               (toggle_macro m (st_trackedMacros st)) (st_draft st)
  end.

Fixpoint run (events : list Event) (st : AppState) : AppState :=
  match events with
  | [] => st
  | e :: r => run r (handle e st)
  end.

(** Along the events, every day that [addDay] adds to a history that is
    not empty gets a date after the date of the last day. *)
Fixpoint dates_advance (events : list Event) (st : AppState) : Prop :=
  match events with
  | [] => True
  | e :: r =>
    (e = AddDay ->
     forall l, last (st_history st) = Some l ->
               String.ltb (date l) (addDays (date l) 1) = true)
    /\ dates_advance r (handle e st)
  end.
End Handlers.

(** Two records that agree on what [computeNEI] reads of a record. *)
Definition NEI_inputs_agree (a b : Checkin) : Prop :=
  energy a = energy b /\ sleepHours a = sleepHours b
  /\ some_load_on a = some_load_on b /\ some_virtue_on a = some_virtue_on b.

(** The order of two valid records in which [computeNEI] goes up: more
    energy and sleep, a virtue on where there was one, no load item on
    where there was none. *)
Definition NEI_inputs_le (a b : Checkin) : Prop :=
  valid_checkin a = true /\ valid_checkin b = true
  /\ energy a ⪯ energy b /\ sleepHours a ⪯ sleepHours b
  /\ (some_load_on b = true -> some_load_on a = true)
  /\ (some_virtue_on a = true -> some_virtue_on b = true).

(* ================================================================== *)
(** ** Dates as strings: [yyyyMmDd] *)
(* ================================================================== *)

(** What [yyyyMmDd] reads of a [Date] that is valid: the year, the month
    (from 0) and the day of the month, in local time. *)
Record Date : Type := mkDate {
  getFullYear : Z;
  getMonth : Z;
  getDate : Z
}.

(** [String(n)] and [`${n}`] for an integer [n]: its decimal digits, after
    a minus sign when it is negative. *)
Definition String_of_Z (n : Z) : string :=
  NilZero.string_of_int (Z.to_int n).

Fixpoint repeat_char (n : nat) (c : ascii) (s : string) : string :=
  match n with
  | O => s
  | S n' => String c (repeat_char n' c s)
  end.

(** [s.padStart(targetLength, c)] for a filler of one character. *)
Definition padStart (targetLength : nat) (c : ascii) (s : string) : string :=
  repeat_char (targetLength - String.length s) c s.

Definition yyyyMmDd (d : Date) : string :=
  let y := getFullYear d in
  let m := padStart 2 "0" (String_of_Z (getMonth d + 1)) in
  let day := padStart 2 "0" (String_of_Z (getDate d)) in
  String_of_Z y ++ "-" ++ m ++ "-" ++ day.

(** The two digits of a month or a day. *)
Definition two (n : Z) : string := padStart 2 "0" (String_of_Z n).

(** The order of the calendar. *)
Definition Date_compare (a b : Date) : comparison :=
  match (getFullYear a ?= getFullYear b)%Z with
  | Eq =>
    match (getMonth a ?= getMonth b)%Z with
    | Eq => (getDate a ?= getDate b)%Z
    | c => c
    end
  | c => c
  end.

(** The dates with a year of four digits. *)
Definition four_digit_year (d : Date) : Prop :=
  (1000 <= getFullYear d <= 9999)%Z
  /\ (0 <= getMonth d <= 11)%Z /\ (1 <= getDate d <= 31)%Z.

(** The integers from [lo], [n] of them. *)
Definition Z_range (lo : Z) (n : nat) : list Z :=
  map (fun i => (lo + Z.of_nat i)%Z) (seq 0 n).

Definition comparison_eqb (a b : comparison) : bool :=
  match a, b with
  | Eq, Eq | Lt, Lt | Gt, Gt => true
  | _, _ => false
  end.

(* ================================================================== *)
(** ** The chart *)
(* ================================================================== *)




Module Chart.
End Chart.


(* ================================================================== *)
(** ** Further example values *)
(* ================================================================== *)

Definition example_items : list ToggleItem :=
  [{| label := "TikTok"; value := false |};
   {| label := "Sugar"; value := true |}].

Definition five_items_on : list ToggleItem :=
  [{| label := "A"; value := true |}; {| label := "B"; value := true |};
   {| label := "C"; value := true |}; {| label := "D"; value := true |};
   {| label := "E"; value := true |}].

(** A day with every load at its cap and nothing that lowers the score. *)
Definition example_heavy_day : Checkin :=
  {| date := "2025-01-02";
     loadItems := five_items_on;
     virtues := {| study := false; gym := false; meditate := false |};
     sleepHours := 6;
     sleepQuality := 7;
     caffeineMg := 400;
     socialMinutes := 100;
     workout := false;
     mood := 7;
     energy := 7;
     junkFood := true;
     notes := EmptyString;
     calories := 0;
     proteinG := 0;
     carbsG := 0;
     fatG := 0 |}.

Definition example_sorted_history : list Checkin :=
  [makeDefaultCheckin "2025-01-01"; makeDefaultCheckin "2025-01-02"].

Definition example_sorted_state : AppState :=
  {| st_history := example_sorted_history;
     st_planDays := 30;
     st_strictness := Standard;
     st_trackedMacros := DEFAULT_MACROS;
     st_draft := None |}.

(** The day after, for the two dates the examples need. *)
Definition example_addDays (d : string) (n : number) : string :=
  if String.eqb d "2025-01-02" then "2025-01-03" else "2025-01-04".

Definition example_week : list Checkin :=
  map makeDefaultCheckin
      ["2025-01-01"; "2025-01-02"; "2025-01-03"; "2025-01-04"; "2025-01-05";
       "2025-01-06"; "2025-01-07"]%string.




(* ================================================================== *)
(** * Properties *)
(* ================================================================== *)


(* ------------------------------------------------------------------ *)
(** ** Numbers *)
(* ------------------------------------------------------------------ *)

Lemma Qle_bool_false (a b : Q) : Qle_bool a b = false -> (b < a)%Q.
Proof.
  intros H. apply Qnot_le_lt. intros Hle.
  apply Qle_bool_iff in Hle. congruence.
Qed.

(** Case analysis on every rational comparison of the goal. *)
Ltac qcases :=
  repeat match goal with
  | |- context [Qle_bool ?a ?b] =>
    let H := fresh "Hq" in
    destruct (Qle_bool a b) eqn:H;
    [apply Qle_bool_iff in H | apply Qle_bool_false in H]
  end.

Lemma qmin_spec (a b : Q) :
  ((a <= b)%Q /\ qmin a b = a) \/ ((b < a)%Q /\ qmin a b = b).
Proof. unfold qmin. qcases; auto. Qed.

Lemma qmax_spec (a b : Q) :
  ((a <= b)%Q /\ qmax a b = b) \/ ((b < a)%Q /\ qmax a b = a).
Proof. unfold qmax. qcases; auto. Qed.

(** Replaces every [qmin], [qmax] and [qclamp] of the goal by the argument
    it selects, with the comparison that selects it as a hypothesis. *)
Ltac qminmax :=
  unfold qclamp;
  repeat match goal with
  | |- context [qmin ?a ?b] =>
    let E := fresh "E" in
    destruct (qmin_spec a b) as [[? E] | [? E]]; rewrite E; clear E
  | |- context [qmax ?a ?b] =>
    let E := fresh "E" in
    destruct (qmax_spec a b) as [[? E] | [? E]]; rewrite E; clear E
  end.

Lemma qclamp_bounds (n lo hi : Q) :
  (lo <= hi)%Q -> (lo <= qclamp n lo hi <= hi)%Q.
Proof. intros Hlh. qminmax; lra. Qed.

Lemma qclamp_mono (x y lo hi : Q) :
  (x <= y)%Q -> (qclamp x lo hi <= qclamp y lo hi)%Q.
Proof. intros Hxy. qminmax; lra. Qed.

Lemma qclamp_comp (x y lo hi : Q) :
  (x == y)%Q -> (qclamp x lo hi == qclamp y lo hi)%Q.
Proof.
  intros Hxy. apply Qle_antisym; apply qclamp_mono; lra.
Qed.

Lemma Math_min_Fin (a b : Q) : Math_min (Fin a) (Fin b) = Fin (qmin a b).
Proof. unfold Math_min, qmin. simpl. destruct (Qle_bool a b); reflexivity. Qed.

Lemma Math_max_Fin (a b : Q) : Math_max (Fin a) (Fin b) = Fin (qmax a b).
Proof. unfold Math_max, qmax. simpl. destruct (Qle_bool a b); reflexivity. Qed.

Lemma clamp_Fin (n lo hi : Q) :
  clamp (Fin n) (Fin lo) (Fin hi) = Fin (qclamp n lo hi).
Proof. unfold clamp. now rewrite Math_min_Fin, Math_max_Fin. Qed.

(** With finite bounds a clamp is NaN on NaN and finite everywhere else. *)
Lemma clamp_cases (x : number) (lo hi : Q) :
  (lo <= hi)%Q ->
  (x = NaN /\ clamp x lo hi = NaN)
  \/ (x <> NaN /\ exists q, clamp x lo hi = Fin q /\ (lo <= q <= hi)%Q).
Proof.
  intros Hlh. destruct x as [| | |a].
  - left. split; reflexivity.
  - right. split; [discriminate|]. exists (qmax lo hi).
    split; [exact (Math_max_Fin lo hi)|]. qminmax; lra.
  - right. split; [discriminate|]. exists lo.
    split; [reflexivity | lra].
  - right. split; [discriminate|]. exists (qclamp a lo hi).
    split; [apply clamp_Fin | now apply qclamp_bounds].
Qed.




Lemma Math_round_comp (x y : number) : x ≈ y -> Math_round x = Math_round y.
Proof.
  destruct x, y; cbn -[Qfloor Qplus]; try contradiction; auto.
  intros H. do 2 f_equal. apply Qfloor_comp. now rewrite H.
Qed.




(* ------------------------------------------------------------------ *)
(** ** The two scores and their formulas *)
(* ------------------------------------------------------------------ *)

Lemma count_on_filter (l : list ToggleItem) :
  length (List.filter value l) = count_on l.
Proof.
  unfold count_on. induction l as [|[lbl []] l IH]; simpl; auto.
Qed.

Lemma virtues_term (v : Virtues) :
  clamp (virtuesCount v * 3) 0 12 = clamp (3 * Num.of_nat (count_virtues v)) 0 12.
Proof. destruct v as [[] [] []]; reflexivity. Qed.

Lemma raw_rearranged (x : number) (j e e' w g v : Q) :
  e == e' ->
  x + Fin j + Fin e + Fin (- w) + Fin (- g) - Fin v
  ≈ x + Fin j + Fin e' - Fin v - Fin w - Fin g.
Proof. intros He. destruct x; simpl; auto. lra. Qed.

Lemma computeDLS_eq_formula (d : Checkin) : computeDLS d = DLS_formula d.
Proof.
  unfold computeDLS, DLS_formula.
  f_equal. apply Math_round_comp.
  rewrite virtues_term, count_on_filter.
  set (x := clamp (socialMinutes d / 10 * 3) 0 30 + clamp (caffeineMg d / 50 * 2.5) 0 20).
  set (n := count_on (loadItems d)).
  assert (E1 : clamp (Num.of_nat n * 6) 0 30
               = Fin (qclamp (inject_Z (Z.of_nat n) * 6) 0 30))
    by apply clamp_Fin.
  assert (E2 : clamp (6 * Num.of_nat n) 0 30
               = Fin (qclamp (6 * inject_Z (Z.of_nat n)) 0 30))
    by apply clamp_Fin.
  assert (E3 : exists v, clamp (3 * Num.of_nat (count_virtues (virtues d))) 0 12 = Fin v)
    by (eexists; apply clamp_Fin).
  destruct E3 as [v E3]. rewrite E1, E2, E3.
  assert (He : qclamp (inject_Z (Z.of_nat n) * 6) 0 30
               == qclamp (6 * inject_Z (Z.of_nat n)) 0 30)
    by (apply qclamp_comp, Qmult_comm).
  destruct (junkFood d), (workout d), (sleepHours d >=? 7.5);
    match goal with
    | |- _ ≈ _ - Fin ?w - Fin ?g => exact (raw_rearranged x _ _ _ w g v He)
    end.
Qed.




Lemma slice_last_length (n : nat) {A : Type} (l : list A) :
  length (slice_last n l) = Nat.min (length l) n.
Proof. unfold slice_last. rewrite length_skipn. lia. Qed.





Lemma of_nat_geb (n k : nat) :
  (Num.of_nat n >=? Num.of_nat k) = (k <=? n)%nat.
Proof.
  change (Qle_bool (inject_Z (Z.of_nat k)) (inject_Z (Z.of_nat n)) = (k <=? n)%nat).
  destruct (Nat.leb_spec k n) as [H|H].
  - apply Qle_bool_iff. rewrite <- Zle_Qle. lia.
  - destruct (Qle_bool _ _) eqn:E; [|reflexivity].
    apply Qle_bool_iff in E. rewrite <- Zle_Qle in E. lia.
Qed.

Lemma existsb_some_load_on (d : Checkin) :
  existsb value (loadItems d) = some_load_on d.
Proof.
  unfold some_load_on, count_on.
  induction (loadItems d) as [|[lbl []] l IH]; simpl; auto.
Qed.

Lemma virtuesCount_some_virtue_on (d : Checkin) :
  (virtuesCount (virtues d) >=? 1) = some_virtue_on d.
Proof.
  unfold some_virtue_on. destruct (virtues d) as [[] [] []]; reflexivity.
Qed.





(* ------------------------------------------------------------------ *)
(** ** The range of the scores *)
(* ------------------------------------------------------------------ *)

Lemma computeDLS_Fin (d : Checkin) (qs qc : Q) :
  clamp (socialMinutes d / 10 * 3) 0 30 = Fin qs ->
  clamp (caffeineMg d / 50 * 2.5) 0 20 = Fin qc ->
  computeDLS d
  = Fin (qclamp
           (inject_Z
              (Qfloor (dls_raw qs qc (junkFood d) (count_on (loadItems d))
                         (count_virtues (virtues d)) (workout d)
                         (sleepHours d >=? 7.5) + (1 # 2))%Q))
           0 100).
Proof.
  intros Hs Hc. rewrite computeDLS_eq_formula. unfold DLS_formula.
  rewrite Hs, Hc.
  change (6 * Num.of_nat ?n) with (Fin (6 * inject_Z (Z.of_nat n))).
  change (3 * Num.of_nat ?n) with (Fin (3 * inject_Z (Z.of_nat n))).
  rewrite !clamp_Fin. unfold dls_raw.
  destruct (junkFood d), (workout d), (sleepHours d >=? 7.5); apply clamp_Fin.
Qed.

Lemma qclamp_integer (z lo hi : Z) :
  (lo <= hi)%Z ->
  exists z', qclamp (inject_Z z) (inject_Z lo) (inject_Z hi) = inject_Z z'
             /\ (lo <= z' <= hi)%Z.
Proof.
  intros Hlh. qminmax;
    repeat match goal with
    | H : (inject_Z _ <= inject_Z _)%Q |- _ => rewrite <- Zle_Qle in H
    | H : (inject_Z _ < inject_Z _)%Q |- _ => rewrite <- Zlt_Qlt in H
    end;
    eexists; (split; [reflexivity | lia]).
Qed.

Lemma clamp_round_integer (x : number) :
  x <> NaN -> integer_in 0 100 (clamp (Math_round x) 0 100).
Proof.
  intros Hx. destruct x as [| | |a]; [congruence| | |].
  - exists 100%Z. split; [reflexivity | lia].
  - exists 0%Z. split; [reflexivity | lia].
  - unfold Math_round. rewrite clamp_Fin.
    destruct (qclamp_integer (Qfloor (a + (1 # 2))) 0 100) as (z & E & Hz); [lia|].
    exists z. split; [|exact Hz]. f_equal. exact E.
Qed.

Lemma clamp_finite (x : number) (lo hi : Q) :
  (lo <= hi)%Q -> x <> NaN -> exists q, clamp x lo hi = Fin q.
Proof.
  intros Hlh Hx. destruct (clamp_cases x lo hi Hlh) as [[-> _] | [_ (q & E & _)]];
    [congruence | eauto].
Qed.

Section Scaling.
Variables k1 k2 : Q.
Hypothesis Hk1 : (0 < k1)%Q.
Hypothesis Hk2 : (0 < k2)%Q.

Lemma scale_Fin (a : Q) : Fin a / Fin k1 * Fin k2 = Fin (a / k1 * k2).
Proof using Hk1.
  unfold Num.div. destruct (Qeq_bool k1 0) eqn:E; [|reflexivity].
  apply Qeq_bool_iff in E. lra.
Qed.

Lemma scale_PosInfinity : PosInfinity / Fin k1 * Fin k2 = PosInfinity.
Proof using Hk1 Hk2.
  unfold Num.div.
  replace (Qle_bool 0 k1) with true by (symmetry; apply Qle_bool_iff; lra).
  unfold Num.mul.
  replace (k2 ?= 0)%Q with Gt by (symmetry; now apply Qgt_alt).
  reflexivity.
Qed.

Lemma scale_NegInfinity : NegInfinity / Fin k1 * Fin k2 = NegInfinity.
Proof using Hk1 Hk2.
  unfold Num.div.
  replace (Qle_bool 0 k1) with true by (symmetry; apply Qle_bool_iff; lra).
  unfold Num.mul.
  replace (0 ?= k2)%Q with Lt by (symmetry; now apply Qlt_alt).
  reflexivity.
Qed.

Lemma scaled_not_NaN (x : number) : x <> NaN -> x / Fin k1 * Fin k2 <> NaN.
Proof using Hk1 Hk2.
  destruct x; [congruence| | |]; intros _;
    rewrite ?scale_PosInfinity, ?scale_NegInfinity, ?scale_Fin; discriminate.
Qed.

Lemma scaled_clamp_mono (x y : number) (lo hi : Q) :
  (lo <= hi)%Q -> x ⪯ y ->
  exists q1 q2,
    clamp (x / Fin k1 * Fin k2) lo hi = Fin q1
    /\ clamp (y / Fin k1 * Fin k2) lo hi = Fin q2
    /\ (q1 <= q2)%Q.
Proof using Hk1 Hk2.
  intros Hlh Hxy.
  assert (Hmax : (hi <= qmax lo hi <= hi)%Q) by (qminmax; lra).
  unfold num_le in Hxy.
  destruct x as [| | |a], y as [| | |b]; try discriminate Hxy;
    rewrite ?scale_PosInfinity, ?scale_NegInfinity, ?scale_Fin.
  - exists (qmax lo hi), (qmax lo hi).
    repeat split; try exact (Math_max_Fin lo hi). lra.
  - exists lo, (qmax lo hi).
    repeat split; [exact (Math_max_Fin lo hi) | lra].
  - exists lo, lo. repeat split. lra.
  - exists lo, (qclamp (b / k1 * k2) lo hi).
    repeat split; [apply clamp_Fin | apply qclamp_bounds; lra].
  - exists (qclamp (a / k1 * k2) lo hi), (qmax lo hi).
    repeat split; [apply clamp_Fin | exact (Math_max_Fin lo hi) |].
    pose proof (qclamp_bounds (a / k1 * k2) lo hi Hlh). lra.
  - exists (qclamp (a / k1 * k2) lo hi), (qclamp (b / k1 * k2) lo hi).
    repeat split; try apply clamp_Fin. apply qclamp_mono.
    apply Qle_bool_iff in Hxy.
    apply Qmult_le_compat_r; [|lra].
    apply Qmult_le_compat_r; [exact Hxy|].
    apply Qinv_le_0_compat. lra.
Qed.
End Scaling.

Lemma computeDLS_integer (d : Checkin) :
  socialMinutes d <> NaN -> caffeineMg d <> NaN ->
  integer_in 0 100 (computeDLS d).
Proof.
  intros Hs Hc.
  destruct (clamp_finite (socialMinutes d / 10 * 3) 0 30) as [qs Es];
    [lra | apply scaled_not_NaN; [lra | lra | exact Hs] |].
  destruct (clamp_finite (caffeineMg d / 50 * 2.5) 0 20) as [qc Ec];
    [lra | apply scaled_not_NaN; [lra | lra | exact Hc] |].
  rewrite (computeDLS_Fin d qs qc Es Ec).
  destruct (qclamp_integer
              (Qfloor (dls_raw qs qc (junkFood d) (count_on (loadItems d))
                         (count_virtues (virtues d)) (workout d)
                         (sleepHours d >=? 7.5) + (1 # 2))) 0 100)
    as (z & E & Hz); [lia|].
  exists z. split; [|exact Hz]. f_equal. exact E.
Qed.

Lemma is_finite_add (x y : number) :
  is_finite x = true -> is_finite y = true -> is_finite (x + y) = true.
Proof. destruct x, y; simpl; auto. Qed.

Lemma is_finite_sub (x y : number) :
  is_finite x = true -> is_finite y = true -> is_finite (x - y) = true.
Proof. destruct x, y; simpl; auto. Qed.

Lemma is_finite_mul (x y : number) :
  is_finite x = true -> is_finite y = true -> is_finite (x * y) = true.
Proof. destruct x, y; simpl; congruence. Qed.

Lemma is_finite_div_of_nat (x : number) (n : nat) :
  is_finite x = true -> is_finite (x / Num.of_nat (S n)) = true.
Proof.
  destruct x; simpl; auto.
Qed.

Lemma is_finite_fold_left (f : Checkin -> number) (l : list Checkin) (a : number) :
  Forall (fun x => is_finite (f x) = true) l ->
  is_finite a = true ->
  is_finite (fold_left (fun a x => a + f x) l a) = true.
Proof.
  intros Hl. revert a. induction Hl as [|x l Hx Hl IH]; intros a Ha; simpl; auto.
  apply IH. now apply is_finite_add.
Qed.

Lemma is_finite_not_NaN (x : number) : is_finite x = true -> x <> NaN.
Proof. destruct x; simpl; congruence. Qed.

Lemma valid_checkin_fields (d : Checkin) :
  valid_checkin d = true ->
  is_finite (sleepHours d) = true /\ is_finite (caffeineMg d) = true
  /\ is_finite (socialMinutes d) = true /\ is_finite (energy d) = true.
Proof.
  unfold valid_checkin. rewrite !andb_true_iff. tauto.
Qed.

Lemma Forall_slice_last {A : Type} (P : A -> Prop) (n : nat) (l : list A) :
  Forall P l -> Forall P (slice_last n l).
Proof.
  intros H. unfold slice_last. rewrite List.Forall_forall in *.
  intros x Hx. apply H.
  rewrite <- (firstn_skipn (length l - n) l). apply in_or_app. now right.
Qed.

Lemma computeNEI_integer (h : list Checkin) :
  Forall (fun d => valid_checkin d = true) h ->
  integer_in 0 100 (computeNEI h).
Proof.
  intros Hh. unfold computeNEI.
  apply (Forall_slice_last _ 7) in Hh.
  set (w := slice_last 7 h) in *.
  destruct (length w) as [|m] eqn:Hw.
  - exists 50%Z. split; [reflexivity | lia].
  - apply clamp_round_integer, is_finite_not_NaN.
    assert (HE : Forall (fun x => is_finite (energy x) = true) w).
    { eapply List.Forall_impl; [|exact Hh]. intros d Hd.
      now apply valid_checkin_fields in Hd. }
    assert (HS : is_finite (fold_left (fun a x => a + energy x) w 0
                            / Num.of_nat (S m) * 10) = true).
    { apply is_finite_mul; [|reflexivity].
      apply is_finite_div_of_nat, is_finite_fold_left; auto. }
    repeat match goal with
    | |- context [if ?c then _ else _] => destruct c
    end;
      repeat first [ exact HS
                   | apply is_finite_add; [|reflexivity]
                   | apply is_finite_sub; [|reflexivity] ].
Qed.

(** C5.  On a check-in whose numeric fields are finite [computeDLS] is an
    integer between 0 and 100, and on a history of such check-ins so is
    [computeNEI]. *)
Theorem C5_scores_are_integers_in_range :
  (forall d : Checkin,
     valid_checkin d = true -> integer_in 0 100 (computeDLS d))
  /\ (forall h : list Checkin,
        Forall (fun d => valid_checkin d = true) h ->
        integer_in 0 100 (computeNEI h)).
Proof.
  split.
  - intros d Hd. apply valid_checkin_fields in Hd as (_ & Hc & Hs & _).
    apply computeDLS_integer; now apply is_finite_not_NaN.
  - exact computeNEI_integer.
Qed.

(* ------------------------------------------------------------------ *)
(** ** Monotonicity of the DLS *)
(* ------------------------------------------------------------------ *)

Lemma dls_raw_mono (qs1 qs2 qc1 qc2 : Q) (j1 j2 : bool) (n1 n2 v1 v2 : nat)
    (w1 w2 g1 g2 : bool) :
  (qs1 <= qs2)%Q -> (qc1 <= qc2)%Q -> (j1 = true -> j2 = true) ->
  (n1 <= n2)%nat -> (v2 <= v1)%nat ->
  (w2 = true -> w1 = true) -> (g2 = true -> g1 = true) ->
  (dls_raw qs1 qc1 j1 n1 v1 w1 g1 <= dls_raw qs2 qc2 j2 n2 v2 w2 g2)%Q.
Proof.
  intros Hs Hc Hj Hn Hv Hw Hg. unfold dls_raw.
  assert (Hload : (qclamp (6 * inject_Z (Z.of_nat n1)) 0 30
                   <= qclamp (6 * inject_Z (Z.of_nat n2)) 0 30)%Q).
  { apply qclamp_mono.
    assert (inject_Z (Z.of_nat n1) <= inject_Z (Z.of_nat n2))%Q
      by (rewrite <- Zle_Qle; lia).
    lra. }
  assert (Hvirt : (qclamp (3 * inject_Z (Z.of_nat v2)) 0 12
                   <= qclamp (3 * inject_Z (Z.of_nat v1)) 0 12)%Q).
  { apply qclamp_mono.
    assert (inject_Z (Z.of_nat v2) <= inject_Z (Z.of_nat v1))%Q
      by (rewrite <- Zle_Qle; lia).
    lra. }
  destruct j1, j2, w1, w2, g1, g2;
    try (specialize (Hj eq_refl)); try (specialize (Hw eq_refl));
    try (specialize (Hg eq_refl)); try discriminate; lra.
Qed.



Lemma computeDLS_mono (d1 d2 : Checkin) :
  socialMinutes d1 ⪯ socialMinutes d2 ->
  caffeineMg d1 ⪯ caffeineMg d2 ->
  (junkFood d1 = true -> junkFood d2 = true) ->
  (count_on (loadItems d1) <= count_on (loadItems d2))%nat ->
  (count_virtues (virtues d2) <= count_virtues (virtues d1))%nat ->
  (workout d2 = true -> workout d1 = true) ->
  (good_sleep d2 = true -> good_sleep d1 = true) ->
  computeDLS d1 ⪯ computeDLS d2.
Proof.
  intros Hs Hc Hj Hn Hv Hw Hg.
  destruct (scaled_clamp_mono 10 3 ltac:(lra) ltac:(lra) _ _ 0 30 ltac:(lra) Hs)
    as (qs1 & qs2 & Es1 & Es2 & Hqs).
  destruct (scaled_clamp_mono 50 2.5 ltac:(lra) ltac:(lra) _ _ 0 20 ltac:(lra) Hc)
    as (qc1 & qc2 & Ec1 & Ec2 & Hqc).
  rewrite (computeDLS_Fin d1 qs1 qc1 Es1 Ec1), (computeDLS_Fin d2 qs2 qc2 Es2 Ec2).
  apply Qle_bool_iff, qclamp_mono. rewrite <- Zle_Qle.
  apply Qfloor_resp_le.
  pose proof (dls_raw_mono qs1 qs2 qc1 qc2 _ _ _ _ _ _ _ _ _ _
                Hqs Hqc Hj Hn Hv Hw Hg) as H.
  unfold good_sleep in H. lra.
Qed.

Lemma num_le_refl (x : number) : is_finite x = true -> x ⪯ x.
Proof. destruct x; try discriminate. intros _. apply Qle_bool_iff. lra. Qed.

Lemma geb_mono (x y c : number) :
  x ⪯ y -> (x >=? c) = true -> (y >=? c) = true.
Proof.
  unfold num_le, Num.geb.
  destruct x, y, c; simpl; try congruence.
  rewrite !Qle_bool_iff. lra.
Qed.

(** Reduces the projections of an updated record. *)
Ltac fields :=
  cbn [date loadItems virtues sleepHours sleepQuality caffeineMg socialMinutes
       workout mood energy junkFood notes calories proteinG carbsG fatG
       set_loadItems set_virtues set_sleepHours set_caffeineMg
       set_socialMinutes set_workout set_junkFood set_calories set_proteinG
       set_carbsG set_fatG] in *.

Lemma computeDLS_of_NaN (d : Checkin) :
  socialMinutes d = NaN \/ caffeineMg d = NaN -> computeDLS d = NaN.
Proof.
  intros [H | H]; unfold computeDLS; rewrite H; [reflexivity|].
  destruct (clamp_cases (socialMinutes d / 10 * 3) 0 30 ltac:(lra))
    as [[_ ->] | [_ (q & -> & _)]]; reflexivity.
Qed.

Lemma num_le_not_greater (x y : number) : x ⪯ y -> not_greater x y.
Proof.
  unfold num_le, not_greater. destruct x, y; cbn; try congruence.
  now intros ->.
Qed.

Lemma not_greater_NaN (x y : number) : x = NaN \/ y = NaN -> not_greater x y.
Proof.
  unfold not_greater. intros [-> | ->]; [destruct y | destruct x]; reflexivity.
Qed.

Lemma num_le_refl_or_NaN (x : number) : x ⪯ x \/ x = NaN.
Proof.
  destruct x; auto; left; try reflexivity. apply Qle_bool_iff. lra.
Qed.

(** The same with NaN allowed in the two continuous inputs. *)
Lemma computeDLS_not_greater (d1 d2 : Checkin) :
  socialMinutes d1 ⪯ socialMinutes d2
  \/ socialMinutes d1 = NaN \/ socialMinutes d2 = NaN ->
  caffeineMg d1 ⪯ caffeineMg d2
  \/ caffeineMg d1 = NaN \/ caffeineMg d2 = NaN ->
  (junkFood d1 = true -> junkFood d2 = true) ->
  (count_on (loadItems d1) <= count_on (loadItems d2))%nat ->
  (count_virtues (virtues d2) <= count_virtues (virtues d1))%nat ->
  (workout d2 = true -> workout d1 = true) ->
  (good_sleep d2 = true -> good_sleep d1 = true) ->
  not_greater (computeDLS d1) (computeDLS d2).
Proof.
  intros Hs Hc Hj Hn Hv Hw Hg.
  assert (Hnan : forall d, socialMinutes d = NaN \/ caffeineMg d = NaN ->
                           computeDLS d = NaN) by exact computeDLS_of_NaN.
  destruct Hs as [Hs | [Hs | Hs]];
    [| apply not_greater_NaN; left; auto | apply not_greater_NaN; right; auto].
  destruct Hc as [Hc | [Hc | Hc]];
    [| apply not_greater_NaN; left; auto | apply not_greater_NaN; right; auto].
  now apply num_le_not_greater, computeDLS_mono.
Qed.

(** C6.  With every other field fixed, [computeDLS] does not decrease when
    the social minutes grow (from 0 on), when the caffeine grows (from 0
    on), when junk food goes from off to on, or when more load items are
    on; and it does not increase when more virtues are on, when the
    workout goes from off to on, or when the hours of sleep grow.  For
    every check-in the later value is never below (above) the earlier one;
    for a check-in with finite numeric fields this is JavaScript's [<=]
    between the two values. *)
Theorem C6_computeDLS_monotone (d : Checkin) :
  monotone_in_each_input not_greater d
  /\ (valid_checkin d = true -> monotone_in_each_input num_le d).
Proof.
  split.
  - pose proof (num_le_refl_or_NaN (socialMinutes d)) as Hs.
    pose proof (num_le_refl_or_NaN (caffeineMg d)) as Hc.
    unfold monotone_in_each_input.
    repeat split; intros; apply computeDLS_not_greater; unfold good_sleep;
      fields; auto; try tauto; try lia; try discriminate.
    now apply geb_mono.
  - intros Hd. apply valid_checkin_fields in Hd as (Hh & Hc & Hs & _).
    apply num_le_refl in Hc, Hs.
    unfold monotone_in_each_input.
    repeat split; intros; apply computeDLS_mono; unfold good_sleep; fields;
      auto; try lia; try discriminate.
    now apply geb_mono.
Qed.

(* ------------------------------------------------------------------ *)
(** ** The coach *)
(* ------------------------------------------------------------------ *)

Lemma early_not_late (n : number) : (n <=? 10) = true -> (n >? 40) = false.
Proof.
  destruct n as [| | |a]; try discriminate; try reflexivity.
  unfold Num.gtb, Num.leb, Num.ltb. intros H. apply Qle_bool_iff in H.
  apply negb_false_iff, Qle_bool_iff. lra.
Qed.

Lemma coach_table_levels (today : Checkin) (n : number) (s : Strictness) :
  map level (coach_table today n s) = [Level.Easy; Level.Medium; Level.Hard].
Proof.
  unfold coach_table, easy_task, medium_task, hard_task, environment_control.
  cbn [map]. 
  destruct (phase_of n), (sleepHours today <? 7), (caffeineMg today >? 200),
    (computeDLS today >? 70), (some_load_on today), s; reflexivity.
Qed.

Lemma coachTasks_table (today : Checkin) (n : number) (s : Strictness) :
  coachTasks today n s = coach_table today n s.
Proof.
  unfold coachTasks, coach_table, phase_of, easy_task, medium_task, hard_task,
    environment_control, push.
  rewrite existsb_some_load_on.
  destruct (n <=? 10) eqn:Hearly.
  - rewrite (early_not_late n Hearly).
    destruct (sleepHours today <? 7), (caffeineMg today >? 200),
      (computeDLS today >? 70), (some_load_on today), s; reflexivity.
  - destruct (n >? 40), (sleepHours today <? 7), (caffeineMg today >? 200),
      (computeDLS today >? 70), (some_load_on today), s; reflexivity.
Qed.

(** C3.  [coachTasks] returns the three tasks of the decision table, one
    Easy, one Medium, one Hard, in this order: Easy by the phase of the day
    number (early up to 10, late above 40, mid between); Medium by sleep
    under 7 hours, else caffeine above 200 mg, else the default; Hard by a
    DLS above 70, else a load item that is on, else the environment-control
    task under Hard strictness, else the late-phase task, else the
    default. *)
Theorem C3_coachTasks_decision_table
    (today : Checkin) (dayNumber : number) (strictness : Strictness) :
  coachTasks today dayNumber strictness = coach_table today dayNumber strictness
  /\ map level (coachTasks today dayNumber strictness)
     = [Level.Easy; Level.Medium; Level.Hard].
Proof.
  split; [apply coachTasks_table|].
  rewrite coachTasks_table. apply coach_table_levels.
Qed.

(** C10.  [computeDLS] reads seven fields only: two check-ins that agree on
    the social minutes, the caffeine, junk food, the load items, the
    virtues, the workout and the hours of sleep have the same DLS, whatever
    their date, sleep quality, mood, energy, notes and nutrition. *)
Theorem C10_computeDLS_depends_on_seven_fields (d1 d2 : Checkin) :
  socialMinutes d1 = socialMinutes d2 ->
  caffeineMg d1 = caffeineMg d2 ->
  junkFood d1 = junkFood d2 ->
  loadItems d1 = loadItems d2 ->
  virtues d1 = virtues d2 ->
  workout d1 = workout d2 ->
  sleepHours d1 = sleepHours d2 ->
  computeDLS d1 = computeDLS d2.
Proof.
  intros Hs Hc Hj Hl Hv Hw Hh. unfold computeDLS.
  now rewrite Hs, Hc, Hj, Hl, Hv, Hw, Hh.
Qed.

(* ------------------------------------------------------------------ *)
(** ** The order of date strings *)
(* ------------------------------------------------------------------ *)

Lemma string_compare_refl (s : string) : String.compare s s = Eq.
Proof.
  pose proof (String.compare_antisym s s) as H.
  destruct (String.compare s s); simpl in H; congruence.
Qed.

Lemma string_ltb_irrefl (s : string) : String.ltb s s = false.
Proof. unfold String.ltb. now rewrite string_compare_refl. Qed.

Lemma string_compare_trans (a b c : string) :
  String.compare a b = Lt -> String.compare b c = Lt -> String.compare a c = Lt.
Proof.
  revert b c. induction a as [|x a IH]; intros [|y b] [|z c]; simpl;
    try congruence.
  unfold Ascii.compare.
  destruct (N.compare_spec (N_of_ascii x) (N_of_ascii y)) as [Exy|Hxy|Hxy];
    try congruence;
    destruct (N.compare_spec (N_of_ascii y) (N_of_ascii z)) as [Eyz|Hyz|Hyz];
    try congruence; intros H1 H2.
  - rewrite Exy, Eyz, N.compare_refl. eauto.
  - rewrite Exy. now apply N.compare_lt_iff in Hyz as ->.
  - rewrite <- Eyz. now apply N.compare_lt_iff in Hxy as ->.
  - assert (Hxz : (N_of_ascii x < N_of_ascii z)%N) by lia.
    now apply N.compare_lt_iff in Hxz as ->.
Qed.

Lemma string_ltb_trans (a b c : string) :
  String.ltb a b = true -> String.ltb b c = true -> String.ltb a c = true.
Proof.
  unfold String.ltb.
  destruct (String.compare a b) eqn:Hab; try discriminate.
  destruct (String.compare b c) eqn:Hbc; try discriminate.
  now rewrite (string_compare_trans a b c Hab Hbc).
Qed.

Lemma string_ltb_total (a b : string) :
  a <> b -> String.ltb a b = true \/ String.ltb b a = true.
Proof.
  intros Hne. unfold String.ltb.
  rewrite (String.compare_antisym b a).
  destruct (String.compare a b) eqn:Hab; simpl; auto.
  apply String.compare_eq_iff in Hab. contradiction.
Qed.

Lemma date_lt_trans (a b c : Checkin) : date_lt a b -> date_lt b c -> date_lt a c.
Proof. apply string_ltb_trans. Qed.

Lemma date_lt_irrefl (a b : Checkin) : date_lt a b -> date a <> date b.
Proof.
  unfold date_lt. intros H E. rewrite E, string_ltb_irrefl in H. discriminate.
Qed.

(* ------------------------------------------------------------------ *)
(** ** Sorting the history *)
(* ------------------------------------------------------------------ *)

Lemma sort_insert_perm {A : Type} (cmp : A -> A -> number) (x : A) (l : list A) :
  Permutation (x :: l) (sort_insert cmp x l).
Proof.
  induction l as [|y l IH]; cbn [sort_insert]; [reflexivity|].
  destruct (cmp x y >? 0); [|reflexivity].
  etransitivity; [apply perm_swap|]. now apply perm_skip.
Qed.

Lemma Array_sort_perm {A : Type} (cmp : A -> A -> number) (l : list A) :
  Permutation l (Array_sort cmp l).
Proof.
  induction l as [|x l IH]; cbn [Array_sort]; [reflexivity|].
  etransitivity; [apply perm_skip, IH | apply sort_insert_perm].
Qed.


Lemma by_date_gtb (a b : Checkin) : (by_date a b >? 0) = negb (date_ltb a b).
Proof. unfold by_date. destruct (date_ltb a b); reflexivity. Qed.

Lemma sort_insert_sorted (x : Checkin) (l : list Checkin) :
  StronglySorted date_lt l ->
  ~ In (date x) (dates l) ->
  StronglySorted date_lt (sort_insert by_date x l).
Proof.
  induction 1 as [|y l Hl IH Hy]; intros Hx; cbn [sort_insert].
  - repeat constructor.
  - rewrite by_date_gtb. unfold date_ltb.
    destruct (String.ltb (date x) (date y)) eqn:Hxy; simpl.
    + constructor; [now constructor|].
      constructor; [exact Hxy|].
      eapply List.Forall_impl; [|exact Hy].
      intros z Hz. now apply (date_lt_trans x y z).
    + assert (Hyx : date_lt y x).
      { destruct (string_ltb_total (date x) (date y)) as [H|H]; auto.
        - intros E. apply Hx. left. now symmetry.
        - congruence. }
      constructor.
      * apply IH. intros Hin. apply Hx. now right.
      * rewrite List.Forall_forall in *. intros z Hz.
        apply (Permutation_in _ (Permutation_sym (sort_insert_perm by_date x l))) in Hz.
        destruct Hz as [<-|Hz]; auto.
Qed.

Lemma Array_sort_sorted (l : list Checkin) :
  List.NoDup (dates l) -> StronglySorted date_lt (Array_sort by_date l).
Proof.
  induction l as [|x l IH]; cbn [Array_sort dates map]; intros Hnd; [constructor|].
  apply List.NoDup_cons_iff in Hnd as [Hx Hnd].
  apply sort_insert_sorted; [now apply IH|].
  intros Hin. apply Hx.
  eapply Permutation_in; [|exact Hin].
  apply Permutation_map, Permutation_sym, Array_sort_perm.
Qed.

(** Two histories sorted by date with the same records are equal: the
    result of sorting does not depend on the algorithm. *)
Lemma sorted_by_date_unique (l1 l2 : list Checkin) :
  StronglySorted date_lt l1 -> StronglySorted date_lt l2 ->
  Permutation l1 l2 -> l1 = l2.
Proof.
  intros H1. revert l2. induction H1 as [|a l1 Hl1 IH Ha]; intros l2 H2 Hp.
  - now apply Permutation_nil in Hp.
  - destruct H2 as [|b l2 Hl2 Hb].
    + apply Permutation_sym, Permutation_nil in Hp. discriminate.
    + assert (Eab : a = b).
      { rewrite List.Forall_forall in Ha, Hb.
        assert (Ha2 : In a (b :: l2))
          by (eapply Permutation_in; [exact Hp | now left]).
        assert (Hb1 : In b (a :: l1))
          by (eapply Permutation_in; [exact (Permutation_sym Hp) | now left]).
        destruct Ha2 as [E|Ha2]; [now symmetry|].
        destruct Hb1 as [E|Hb1]; [exact E|].
        exfalso. apply (date_lt_irrefl a a); [|reflexivity].
        apply (date_lt_trans a b a); auto. }
      subst b. f_equal. apply IH; [exact Hl2|].
      now apply Permutation_cons_inv in Hp.
Qed.

(* ------------------------------------------------------------------ *)
(** ** Saving a check-in *)
(* ------------------------------------------------------------------ *)

Lemma date_eqb_eq (a b : Checkin) : date_eqb a b = true <-> date a = date b.
Proof. apply String.eqb_eq. Qed.

Lemma existsb_date (draft : Checkin) (prev : list Checkin) :
  existsb (fun x => date_eqb x draft) prev = true <-> In (date draft) (dates prev).
Proof.
  rewrite existsb_exists. unfold dates. rewrite in_map_iff.
  split; intros (x & H1 & H2).
  - exists x. split; [|exact H1]. now apply date_eqb_eq.
  - exists x. split; [exact H2|]. now apply date_eqb_eq.
Qed.

Lemma dates_replace (draft : Checkin) (prev : list Checkin) :
  dates (map (replace_by_date draft) prev) = dates prev.
Proof.
  unfold dates. rewrite map_map. apply map_ext. intros x.
  unfold replace_by_date. destruct (date_eqb x draft) eqn:E; [|reflexivity].
  symmetry. now apply date_eqb_eq.
Qed.

Lemma saveCheckin_unfold (draft : Checkin) (prev : list Checkin) :
  saveCheckin (Some draft) prev
  = Array_sort by_date
      (if existsb (fun x => date_eqb x draft) prev
       then map (replace_by_date draft) prev
       else prev ++ [draft]).
Proof. reflexivity. Qed.

Lemma saveCheckin_sorted (draft : Checkin) (prev : list Checkin) :
  List.NoDup (dates prev) ->
  List.NoDup (dates (saveCheckin (Some draft) prev))
  /\ StronglySorted date_lt (saveCheckin (Some draft) prev).
Proof.
  intros Hnd. rewrite saveCheckin_unfold.
  set (next := if existsb _ prev then _ else _).
  assert (Hnext : List.NoDup (dates next)).
  { subst next. destruct (existsb _ prev) eqn:E.
    - now rewrite dates_replace.
    - unfold dates. rewrite map_app. cbn [map].
      apply (Permutation_NoDup (Permutation_cons_append _ _)).
      constructor; [|exact Hnd].
      intros Hin. apply existsb_date in Hin. congruence. }
  split; [|now apply Array_sort_sorted].
  eapply Permutation_NoDup; [|exact Hnext].
  apply Permutation_map, Array_sort_perm.
Qed.

Lemma in_replace (draft : Checkin) (prev : list Checkin) (x : Checkin) :
  In x (map (replace_by_date draft) prev)
  <-> (x = draft /\ In (date draft) (dates prev))
      \/ (In x prev /\ date x <> date draft).
Proof.
  rewrite in_map_iff. unfold replace_by_date. split.
  - intros (y & Hy & Hin). destruct (date_eqb y draft) eqn:E.
    + left. split; [now symmetry|]. apply existsb_date, existsb_exists. eauto.
    + right. subst y. split; [exact Hin|].
      intros Ed. apply date_eqb_eq in Ed. congruence.
  - intros [[-> Hin] | [Hin Hne]].
    + apply existsb_date, existsb_exists in Hin as (y & Hy & E).
      exists y. now rewrite E.
    + exists x. split; [|exact Hin].
      destruct (date_eqb x draft) eqn:E; [|reflexivity].
      apply date_eqb_eq in E. contradiction.
Qed.

(** C4.  Saving a draft into a history with pairwise distinct dates: when
    a record of the draft's date is there, it is replaced by the draft, the
    length is kept and every other record stays; otherwise the draft is
    added; in both cases the new history has pairwise distinct dates and is
    sorted by increasing date.  (The sort is the insertion sort above; by
    [sorted_by_date_unique] every sort that returns the records in
    increasing date order gives this same list.) *)
Theorem C4_saveCheckin_upsert_by_date (prev : list Checkin) (draft : Checkin) :
  List.NoDup (dates prev) ->
  let next := saveCheckin (Some draft) prev in
  (In (date draft) (dates prev) ->
     Permutation next (map (replace_by_date draft) prev)
     /\ length next = length prev
     /\ Permutation (dates next) (dates prev)
     /\ In draft next
     /\ (forall x, In x prev -> date x <> date draft -> In x next)
     /\ (forall x, In x next -> x = draft \/ (In x prev /\ date x <> date draft)))
  /\ (~ In (date draft) (dates prev) -> Permutation next (prev ++ [draft]))
  /\ List.NoDup (dates next)
  /\ StronglySorted date_lt next.
Proof.
  intros Hnd next.
  destruct (saveCheckin_sorted draft prev Hnd) as [Hnd' Hsorted].
  split; [|split; [|split; assumption]].
  - (* the record of that date is replaced *)
    intros Hin. subst next. rewrite saveCheckin_unfold.
    apply existsb_date in Hin as E. rewrite E.
    assert (Hp : Permutation (Array_sort by_date (map (replace_by_date draft) prev))
                             (map (replace_by_date draft) prev))
      by apply Permutation_sym, Array_sort_perm.
    split; [exact Hp|].
    split; [now rewrite (Permutation_length Hp), length_map|].
    split; [rewrite <- (dates_replace draft prev); now apply Permutation_map|].
    split; [apply (Permutation_in _ (Permutation_sym Hp)), in_replace; auto|].
    split.
    + intros x Hx Hne.
      apply (Permutation_in _ (Permutation_sym Hp)), in_replace; auto.
    + intros x Hx. apply (Permutation_in _ Hp), in_replace in Hx.
      destruct Hx as [[-> _] | Hx]; auto.
  - (* a new date is appended *)
    intros Hnin. subst next. rewrite saveCheckin_unfold.
    destruct (existsb _ prev) eqn:E.
    + apply existsb_date in E. contradiction.
    + apply Permutation_sym, Array_sort_perm.
Qed.

(* ------------------------------------------------------------------ *)
(** ** Numeric inputs *)
(* ------------------------------------------------------------------ *)













Example StringToNumber_examples :
  map StringToNumber
      ["12.5"; " 0x1F "; "abc"; EmptyString; "-Infinity"; "1e3"; "5."; ".5"; ".";
       "-.5e-1"; "1e"; "0x"; "+7"; "1 2"; "0b101"; "- 5"; "Infinityx"; "  "]
  = [Fin (25 # 2); Fin 31; NaN; Fin 0; NegInfinity; Fin 1000; Fin 5;
     Fin (1 # 2); NaN; Fin (-1 # 20); NaN; NaN; Fin 7; NaN; Fin 5; NaN; NaN;
     Fin 0].
Proof. vm_compute. reflexivity. Qed.

Example valid_floating_point_number_examples :
  map valid_floating_point_number
      ["12.5"; "abc"; EmptyString; "1e3"; "5."; ".5"; "-.5e-1"; "1e"; "+7"; "-5"; "-";
       "e5"; " 5"; "0x1F"; "Infinity"]
  = [true; false; false; true; false; true; true; false; false; true; false;
     false; false; false; false].
Proof. vm_compute. reflexivity. Qed.







(* ------------------------------------------------------------------ *)
(** ** The JSON parser does not depend on its fuel *)
(* ------------------------------------------------------------------ *)

Section Fuel.
Local Open Scope nat_scope.

Lemma skip_json_ws_length (cs : list ascii) :
  length (skip_json_ws cs) <= length cs.
Proof.
  induction cs as [|c r IH]; cbn [skip_json_ws]; [lia|].
  destruct (is_json_ws c); cbn [length]; lia.
Qed.

Lemma skip_json_ws_cons (cs r : list ascii) (c : ascii) :
  skip_json_ws cs = c :: r -> length r < length cs.
Proof.
  intros H. pose proof (skip_json_ws_length cs) as Hl.
  rewrite H in Hl. cbn [length] in Hl. lia.
Qed.

Lemma strip_prefix_length (p cs rest : list ascii) :
  strip_prefix p cs = Some rest -> length cs = length p + length rest.
Proof.
  revert cs. induction p as [|a p IH]; intros cs; cbn [strip_prefix].
  - intros [= ->]. reflexivity.
  - destruct cs as [|c cs]; [discriminate|].
    destruct (Ascii.eqb a c); [|discriminate].
    intros H. apply IH in H. cbn [length]. lia.
Qed.

Lemma scan_digits_length (cs : list ascii) (acc v : Z) (n : nat) (rest : list ascii) :
  scan_digits acc cs = (v, n, rest) -> length cs = n + length rest.
Proof.
  revert acc v n rest. induction cs as [|c r IH]; intros acc v n rest;
    cbn [scan_digits].
  - intros [= <- <- <-]. reflexivity.
  - destruct (is_digit c).
    + destruct (scan_digits (acc * 10 + digit_value c) r) as [[v' n'] rest'] eqn:E.
      intros [= <- <- <-]. apply IH in E. cbn [length]. lia.
    + intros [= <- <- <-]. reflexivity.
Qed.

Lemma scan_exponent_length (cs rest : list ascii) (e : Z) :
  scan_exponent cs = Some (e, rest) -> length rest <= length cs.
Proof.
  unfold scan_exponent. destruct cs as [|c r]; [intros [= <- <-]; lia|].
  destruct (is_e c); [|intros [= <- <-]; lia].
  set (p := match r with
            | s :: r' => if is_sign s then (Ascii.eqb s "-", r') else (false, r)
            | [] => (false, r)
            end).
  assert (Hp : length (snd p) <= length r).
  { subst p. destruct r as [|s r']; [cbn; lia|].
    destruct (is_sign s); cbn; lia. }
  destruct p as [neg r1]. cbn [snd] in Hp.
  destruct (scan_digits 0 r1) as [[e' n] rest'] eqn:E.
  apply scan_digits_length in E.
  destruct n; [discriminate|]. intros [= <- <-]. cbn [length]. lia.
Qed.

Lemma scan_decimal_length (cs : list ascii) (d : Decimal) :
  scan_decimal cs = Some d ->
  int_digits d + length (dec_rest d) <= length cs.
Proof.
  unfold scan_decimal.
  destruct (scan_digits 0 cs) as [[i ni] r1] eqn:E1.
  apply scan_digits_length in E1.
  set (p := match r1 with
            | c :: r =>
              if Ascii.eqb c "."
              then let '(m, nf, r2) := scan_digits i r in (m, true, nf, r2)
              else (i, false, 0%nat, r1)
            | [] => (i, false, 0%nat, r1)
            end).
  assert (Hp : length (snd p) <= length r1).
  { subst p. destruct r1 as [|c r]; [cbn; lia|].
    destruct (Ascii.eqb c "."); [|cbn; lia].
    destruct (scan_digits i r) as [[m nf] r2] eqn:E2.
    apply scan_digits_length in E2. cbn [snd length]. lia. }
  destruct p as [[[m dot] nf] r2]. cbn [snd] in Hp.
  destruct (scan_exponent r2) as [[e rest]|] eqn:E3; [|discriminate].
  apply scan_exponent_length in E3.
  intros [= <-]. cbn [int_digits dec_rest]. lia.
Qed.

Lemma parse_json_number_length (cs rest : list ascii) (v : json) :
  parse_json_number cs = Some (v, rest) -> length rest < length cs.
Proof.
  unfold parse_json_number.
  set (p := match cs with
            | c :: r => if Ascii.eqb c "-" then (true, r) else (false, cs)
            | [] => (false, cs)
            end).
  assert (Hp : length (snd p) <= length cs).
  { subst p. destruct cs as [|c r]; [cbn; lia|].
    destruct (Ascii.eqb c "-"); cbn; lia. }
  destruct p as [neg body]. cbn [snd] in Hp.
  destruct (scan_decimal body) as [d|] eqn:E; [|discriminate].
  apply scan_decimal_length in E.
  destruct (0 <? int_digits d)%nat eqn:Hi; [|discriminate].
  apply Nat.ltb_lt in Hi.
  destruct (_ && _); [|discriminate].
  intros [= <- <-]. lia.
Qed.

Lemma parse_json_literal_length (cs rest : list ascii) (v : json) :
  parse_json_literal cs = Some (v, rest) -> length rest < length cs.
Proof.
  unfold parse_json_literal.
  repeat match goal with
  | |- context [strip_prefix ?p cs] =>
    let E := fresh "E" in
    destruct (strip_prefix p cs) eqn:E;
    [apply strip_prefix_length in E; cbn in E; intros [= <- <-]; lia|]
  end.
  discriminate.
Qed.

Lemma parse_json_chars_length (n : nat) :
  forall (cs s rest : list ascii),
    length cs <= n ->
    parse_json_chars cs = Some (s, rest) -> length rest < length cs.
Proof.
  induction n as [|n IH]; intros cs s rest Hn.
  - destruct cs; [discriminate | cbn in Hn; lia].
  - destruct cs as [|c r]; [discriminate|]. cbn [length] in Hn.
    cbn [parse_json_chars].
    destruct (Ascii.eqb c "034"); [intros [= <- <-]; cbn [length]; lia|].
    assert (Hrec : forall (pre : list ascii) (r' : list ascii),
               length r' <= n ->
               match parse_json_chars r' with
               | Some (s0, rest0) => Some (pre ++ s0, rest0)
               | None => None
               end = Some (s, rest) ->
               length rest < length r').
    { intros pre r' Hr'. destruct (parse_json_chars r') as [[s0 rest0]|] eqn:E;
        [|discriminate]. intros [= <- <-]. now apply (IH r' s0). }
    destruct (Ascii.eqb c "\").
    + destruct r as [|e r']; [discriminate|]. cbn [length] in *.
      repeat match goal with
      | |- (if ?b then _ else _) = _ -> _ =>
        destruct b; [intros H; apply Hrec in H; lia|]
      end.
      destruct (Ascii.eqb e "u"); [|discriminate].
      destruct r' as [|h1 [|h2 [|h3 [|h4 r'']]]]; try discriminate.
      destruct (hex4 h1 h2 h3 h4); [|discriminate].
      cbn [length] in *. intros H. apply Hrec in H; lia.
    + destruct (code c <? 32)%N; [discriminate|].
      intros H. apply Hrec in H; cbn [length]; lia.
Qed.

Lemma parse_json_string_length (cs rest : list ascii) (s : string) :
  parse_json_string cs = Some (s, rest) -> length rest < length cs.
Proof.
  unfold parse_json_string.
  destruct (parse_json_chars cs) as [[s0 rest0]|] eqn:E; [|discriminate].
  intros [= <- <-]. now apply (parse_json_chars_length (length cs) cs s0).
Qed.

Lemma skip_json_ws_cons_le (cs r : list ascii) (c : ascii) :
  skip_json_ws cs = c :: r -> length (c :: r) <= length cs.
Proof. intros H. rewrite <- H. apply skip_json_ws_length. Qed.

(** A value, a list of elements and a list of members each take at least
    one character. *)
Lemma parse_json_consumes (fuel : nat) :
  (forall cs v rest,
     parse_json_value fuel cs = Some (v, rest) -> length rest < length cs)
  /\ (forall cs vs rest,
        parse_json_elements fuel cs = Some (vs, rest) -> length rest < length cs)
  /\ (forall cs ms rest,
        parse_json_members fuel cs = Some (ms, rest) -> length rest < length cs).
Proof.
  induction fuel as [|f (IHv & IHe & IHm)]; [repeat split; discriminate|].
  split; [|split].
  - intros cs v rest. cbn [parse_json_value].
    destruct (skip_json_ws cs) as [|c r] eqn:Hs; [discriminate|].
    pose proof (skip_json_ws_cons_le _ _ _ Hs) as Hc. cbn [length] in Hc.
    destruct (Ascii.eqb c "[").
    { destruct (skip_json_ws r) as [|c' rest0] eqn:Hr; [discriminate|].
      apply skip_json_ws_cons in Hr.
      destruct (Ascii.eqb c' "]"); [intros [= <- <-]; lia|].
      destruct (parse_json_elements f r) as [[items rest']|] eqn:E; [|discriminate].
      apply IHe in E. intros [= <- <-]. lia. }
    destruct (Ascii.eqb c "{").
    { destruct (skip_json_ws r) as [|c' rest0] eqn:Hr; [discriminate|].
      apply skip_json_ws_cons in Hr.
      destruct (Ascii.eqb c' "}"); [intros [= <- <-]; lia|].
      destruct (parse_json_members f r) as [[members rest']|] eqn:E; [|discriminate].
      apply IHm in E. intros [= <- <-]. lia. }
    destruct (Ascii.eqb c "034").
    { destruct (parse_json_string r) as [[s rest']|] eqn:E; [|discriminate].
      apply parse_json_string_length in E. intros [= <- <-]. lia. }
    destruct (parse_json_literal (c :: r)) as [[v' rest']|] eqn:E.
    { apply parse_json_literal_length in E. cbn [length] in E.
      intros [= <- <-]. lia. }
    intros H. apply parse_json_number_length in H. cbn [length] in H. lia.
  - intros cs vs rest. cbn [parse_json_elements].
    destruct (parse_json_value f cs) as [[v rest1]|] eqn:E1; [|discriminate].
    apply IHv in E1.
    destruct (skip_json_ws rest1) as [|c rest'] eqn:Hs; [discriminate|].
    apply skip_json_ws_cons in Hs.
    destruct (Ascii.eqb c "]"); [intros [= <- <-]; lia|].
    destruct (Ascii.eqb c ","); [|discriminate].
    destruct (parse_json_elements f rest') as [[vs' rest'']|] eqn:E2; [|discriminate].
    apply IHe in E2. intros [= <- <-]. lia.
  - intros cs ms rest. cbn [parse_json_members].
    destruct (skip_json_ws cs) as [|q r] eqn:Hs; [discriminate|].
    apply skip_json_ws_cons in Hs.
    destruct (Ascii.eqb q "034"); [|discriminate].
    destruct (parse_json_string r) as [[k r1]|] eqn:Ek; [|discriminate].
    apply parse_json_string_length in Ek.
    destruct (skip_json_ws r1) as [|colon r2] eqn:Hc; [discriminate|].
    apply skip_json_ws_cons in Hc.
    destruct (Ascii.eqb colon ":"); [|discriminate].
    destruct (parse_json_value f r2) as [[v rest1]|] eqn:E1; [|discriminate].
    apply IHv in E1.
    destruct (skip_json_ws rest1) as [|c rest'] eqn:Hs'; [discriminate|].
    apply skip_json_ws_cons in Hs'.
    destruct (Ascii.eqb c "}"); [intros [= <- <-]; lia|].
    destruct (Ascii.eqb c ","); [|discriminate].
    destruct (parse_json_members f rest') as [[ms' rest'']|] eqn:E2; [|discriminate].
    apply IHm in E2. intros [= <- <-]. lia.
Qed.

(** From twice the length of the text plus one (two for elements and
    members) onwards, more fuel changes nothing. *)
Lemma parse_json_fuel (fuel : nat) :
  (forall cs fuel', 2 * length cs + 1 <= fuel -> fuel <= fuel' ->
     parse_json_value fuel' cs = parse_json_value fuel cs)
  /\ (forall cs fuel', 2 * length cs + 2 <= fuel -> fuel <= fuel' ->
        parse_json_elements fuel' cs = parse_json_elements fuel cs)
  /\ (forall cs fuel', 2 * length cs + 2 <= fuel -> fuel <= fuel' ->
        parse_json_members fuel' cs = parse_json_members fuel cs).
Proof.
  induction fuel as [|f (IHv & IHe & IHm)]; [repeat split; intros; lia|].
  destruct (parse_json_consumes f) as (Cv & Ce & Cm).
  split; [|split]; intros cs [|f'] Hlen Hle; try lia.
  - cbn [parse_json_value].
    destruct (skip_json_ws cs) as [|c r] eqn:Hs; [reflexivity|].
    apply skip_json_ws_cons in Hs.
    destruct (Ascii.eqb c "[").
    { destruct (skip_json_ws r) as [|c' rest0]; [reflexivity|].
      destruct (Ascii.eqb c' "]"); [reflexivity|].
      rewrite (IHe r f') by lia. reflexivity. }
    destruct (Ascii.eqb c "{"); [|reflexivity].
    destruct (skip_json_ws r) as [|c' rest0]; [reflexivity|].
    destruct (Ascii.eqb c' "}"); [reflexivity|].
    rewrite (IHm r f') by lia. reflexivity.
  - cbn [parse_json_elements].
    rewrite (IHv cs f') by lia.
    destruct (parse_json_value f cs) as [[v rest1]|] eqn:E1; [|reflexivity].
    apply Cv in E1.
    destruct (skip_json_ws rest1) as [|c rest'] eqn:Hs; [reflexivity|].
    apply skip_json_ws_cons in Hs.
    destruct (Ascii.eqb c "]"); [reflexivity|].
    destruct (Ascii.eqb c ","); [|reflexivity].
    rewrite (IHe rest' f') by lia. reflexivity.
  - cbn [parse_json_members].
    destruct (skip_json_ws cs) as [|q r] eqn:Hs; [reflexivity|].
    apply skip_json_ws_cons in Hs.
    destruct (Ascii.eqb q "034"); [|reflexivity].
    destruct (parse_json_string r) as [[k r1]|] eqn:Ek; [|reflexivity].
    apply parse_json_string_length in Ek.
    destruct (skip_json_ws r1) as [|colon r2] eqn:Hc; [reflexivity|].
    apply skip_json_ws_cons in Hc.
    destruct (Ascii.eqb colon ":"); [|reflexivity].
    rewrite (IHv r2 f') by lia.
    destruct (parse_json_value f r2) as [[v rest1]|] eqn:E1; [|reflexivity].
    apply Cv in E1.
    destruct (skip_json_ws rest1) as [|c rest'] eqn:Hs'; [reflexivity|].
    apply skip_json_ws_cons in Hs'.
    destruct (Ascii.eqb c "}"); [reflexivity|].
    destruct (Ascii.eqb c ","); [|reflexivity].
    rewrite (IHm rest' f') by lia. reflexivity.
Qed.

(** [JSON_parse] gives the parser all the fuel a text can use. *)
Theorem JSON_parse_fuel (s : string) (fuel : nat) :
  let cs := list_ascii_of_string s in
  2 * length cs + 2 <= fuel ->
  parse_json_value fuel cs = parse_json_value (2 * length cs + 2) cs.
Proof.
  intros cs H.
  apply (proj1 (parse_json_fuel (2 * length cs + 2))); lia.
Qed.

End Fuel.

(* ------------------------------------------------------------------ *)
(** ** Persistence *)
(* ------------------------------------------------------------------ *)

Lemma safeParse_null (s : option string) :
  safeParse s = JNull
  <-> s = None
      \/ exists t, s = Some t
                   /\ (JSON_parse t = None \/ JSON_parse t = Some JNull).
Proof.
  split.
  - destruct s as [t|]; [|auto]. intros H. right. exists t. split; [reflexivity|].
    destruct t as [|c t]; [left; reflexivity|].
    cbn [safeParse] in H.
    destruct (JSON_parse (String c t)) as [v|]; [right; now subst | now left].
  - intros [-> | (t & -> & [H | H])]; [reflexivity| |];
      (destruct t as [|c t]; [reflexivity|]); cbn [safeParse]; now rewrite H.
Qed.

Lemma safeParse_value (t : string) (v : json) :
  JSON_parse t = Some v -> safeParse (Some t) = v.
Proof.
  intros H. destruct t as [|c t]; [discriminate H|].
  cbn [safeParse]. now rewrite H.
Qed.

Lemma initial_of_null (localStorage : Storage) :
  safeParse (localStorage !! STORAGE_KEY) = JNull ->
  initial true localStorage = default_initial.
Proof. intros H. unfold initial. cbn [negb]. now rewrite H. Qed.

(** C8, amended.  When the stored text is absent or does not parse as
    JSON, [initial] is the default state (empty history, 100 plan days,
    Standard strictness, calories and protein tracked, carbs and fat not),
    as it is without a window.  [safeParse] returns null when the text is
    absent, when it does not parse, and also when it parses to null; on
    every other text it returns the parsed value.  It is a total function:
    nothing is thrown. *)
Theorem C8_initial_falls_back_to_defaults :
  (forall localStorage : Storage,
     (localStorage !! STORAGE_KEY = None
      \/ exists t, localStorage !! STORAGE_KEY = Some t /\ JSON_parse t = None) ->
     initial true localStorage = default_initial)
  /\ (forall localStorage : Storage, initial false localStorage = default_initial)
  /\ (forall s : option string,
        safeParse s = JNull
        <-> s = None
            \/ exists t, s = Some t
                         /\ (JSON_parse t = None \/ JSON_parse t = Some JNull))
  /\ (forall (t : string) (v : json),
        JSON_parse t = Some v -> safeParse (Some t) = v).
Proof.
  split; [|split; [reflexivity | split; [exact safeParse_null | exact safeParse_value]]].
  intros localStorage H. apply initial_of_null, safeParse_null.
  destruct H as [-> | (t & -> & Ht)]; [now left|].
  right. exists t. auto.
Qed.

(** C8 as stated fails: the text [null] is present and parses, and
    [safeParse] returns null on it. *)
Lemma C8_counterexample :
  ~ (forall s : option string,
       safeParse s = JNull
       <-> s = None \/ exists t, s = Some t /\ JSON_parse t = None).
Proof.
  intros H.
  destruct (proj1 (H (Some "null"%string)) eq_refl) as [E | (t & E & Ht)].
  - discriminate E.
  - injection E as <-. vm_compute in Ht. discriminate Ht.
Qed.







(* ------------------------------------------------------------------ *)
(** ** The theorems at concrete inputs *)
(* ------------------------------------------------------------------ *)


Lemma C4_witness :
  List.NoDup (dates example_history)
  /\ dates (saveCheckin (Some example_day) example_history)
     = ["2025-01-01"; "2025-01-02"; "2025-01-03"]%string
  /\ StronglySorted date_lt (saveCheckin (Some example_day) example_history).
Proof.
  assert (Hnd : List.NoDup (dates example_history)).
  { repeat constructor; cbn; intuition discriminate. }
  split; [exact Hnd|]. split; [reflexivity|].
  pose proof (C4_saveCheckin_upsert_by_date example_history example_day Hnd) as H.
  cbv zeta in H. apply H.
Defined.

Lemma C5_witness :
  valid_checkin example_day = true /\ integer_in 0 100 (computeDLS example_day).
Proof.
  split; [reflexivity|].
  exact (proj1 C5_scores_are_integers_in_range example_day eq_refl).
Defined.

Lemma C6_witness :
  valid_checkin example_day = true
  /\ computeDLS (set_socialMinutes 10 example_day)
     ⪯ computeDLS (set_socialMinutes 50 example_day)
  /\ computeDLS (set_workout true example_day)
     ⪯ computeDLS (set_workout false example_day).
Proof.
  split; [reflexivity|].
  pose proof (proj2 (C6_computeDLS_monotone example_day) eq_refl)
    as (Hs & _ & _ & _ & _ & Hw & _).
  split; [apply Hs; reflexivity | exact Hw].
Defined.


Lemma C8_witness :
  JSON_parse "{oops" = None
  /\ initial true (<[STORAGE_KEY := "{oops"%string]> ∅) = default_initial.
Proof.
  split; [reflexivity|].
  apply (proj1 C8_initial_falls_back_to_defaults).
  right. exists "{oops"%string. split; [apply lookup_insert_eq | reflexivity].
Defined.


Lemma C10_witness :
  computeDLS (makeDefaultCheckin "2025-01-01")
  = computeDLS (makeDefaultCheckin "2030-12-31").
Proof.
  apply C10_computeDLS_depends_on_seven_fields; reflexivity.
Defined.

(* ------------------------------------------------------------------ *)
(** ** The functions on examples *)
(* ------------------------------------------------------------------ *)

Example computeDLS_default :
  computeDLS (makeDefaultCheckin "2025-01-01") = 0.
Proof. reflexivity. Qed.

Example computeDLS_NaN :
  computeDLS (set_socialMinutes NaN example_day) = NaN.
Proof. reflexivity. Qed.

Example computeNEI_example : computeNEI example_history = 75.
Proof. reflexivity. Qed.

Example coachTasks_example :
  map text (coachTasks example_day 1 Hard)
  = ["5-minute grounding walk (no phone).";
     "Lights-out time tonight + 20-minute wind-down.";
     "Phone out of bedroom + no screens final 45 minutes."]%string.
Proof. reflexivity. Qed.

(** The draft changes the score on display and not what is persisted. *)
Example draft_changes_score_not_payload :
  dls example_state = 45
  /\ dls (mkAppState example_history 100 Standard DEFAULT_MACROS None) = 0
  /\ payload example_state
     = payload (mkAppState example_history 100 Standard DEFAULT_MACROS None).
Proof. repeat split. Qed.

Example JSON_parse_examples :
  map JSON_parse ["null"; " [1, 2.5e1, -0.5 ] "; "{}"; EmptyString; "nul"; "[1,]"; "01";
                  "[[[]]]"; "tru e"; "1 2"; "[true,false , null]"; "{ }";
                  "[ ]"; "[1 2]"; "-"; "1."; "0.5"; "-0"; "[[],[[]],{}]"; "]"]%string
  = [Some JNull; Some (JArray [JNumber 1; JNumber 25; JNumber (-1 # 2)]);
     Some (JObject []); None; None; None; None;
     Some (JArray [JArray [JArray []]]); None; None;
     Some (JArray [JBool true; JBool false; JNull]); Some (JObject []);
     Some (JArray []); None; None; None; Some (JNumber (1 # 2));
     Some (JNumber 0);
     Some (JArray [JArray []; JArray [JArray []]; JObject []]); None].
Proof. vm_compute. reflexivity. Qed.

Example initial_reads_saved :
  initial true (<[STORAGE_KEY := example_saved_text]> ∅)
  = {| initial_history := JArray [];
       initial_planDays := JNumber 30;
       initial_strictness := JString "Standard";
       initial_trackedMacros := TrackedMacros_toJSON DEFAULT_MACROS |}.
Proof.
  unfold initial. cbn [negb]. rewrite lookup_insert_eq. vm_compute. reflexivity.
Qed.

(* ------------------------------------------------------------------ *)
(** ** Load items *)
(* ------------------------------------------------------------------ *)

Section ToggleItemsFacts.
Variable toLowerCase : string -> string.

Local Abbreviation same := (same_label toLowerCase).
Local Abbreviation get := (getToggle toLowerCase).
Local Abbreviation upsert := (upsertToggle toLowerCase).
Local Abbreviation remove := (removeToggle toLowerCase).

Lemma same_label_refl (a : string) : same a a = true.
Proof. apply String.eqb_refl. Qed.

Lemma same_label_sym (a b : string) : same a b = same b a.
Proof. apply String.eqb_sym. Qed.

Lemma same_label_trans (a b c : string) :
  same a b = true -> same b c = true -> same a c = true.
Proof.
  unfold same_label. rewrite !String.eqb_eq. congruence.
Qed.

(** Two labels that name the same item match the same items. *)
Lemma same_label_iff (a b x : string) :
  same a b = true -> same x a = same x b.
Proof.
  intros H. destruct (same x b) eqn:E.
  - apply (same_label_trans x b a); [exact E|]. now rewrite same_label_sym.
  - destruct (same x a) eqn:E'; [|reflexivity].
    rewrite <- E. symmetry. now apply (same_label_trans x a b).
Qed.

Lemma findIndex_None {A : Type} (p : A -> bool) (l : list A) :
  findIndex p l = None <-> List.find p l = None.
Proof.
  induction l as [|x l IH]; cbn [findIndex List.find]; [tauto|].
  destruct (p x); [split; discriminate|].
  destruct (findIndex p l); cbn [option_map]; [|exact IH].
  split; [discriminate|]. intros H. apply IH in H. discriminate H.
Qed.

Lemma findIndex_Some {A : Type} (p : A -> bool) (l : list A) (i : nat) :
  findIndex p l = Some i ->
  exists x, l !! i = Some x /\ p x = true /\ List.find p l = Some x
            /\ forall j y, (j < i)%nat -> l !! j = Some y -> p y = false.
Proof.
  revert i. induction l as [|x l IH]; intros i; cbn [findIndex List.find];
    [discriminate|].
  destruct (p x) eqn:Hx.
  - intros [= <-]. exists x. repeat split; auto. intros j y Hj. lia.
  - destruct (findIndex p l) as [i'|]; [|discriminate].
    intros [= <-]. destruct (IH i' eq_refl) as (z & Hz & Hp & Hf & Hlt).
    exists z. repeat split; auto.
    intros [|j] y Hj; cbn; [now intros [= <-]|]. apply Hlt. lia.
Qed.

(** [find] through a list of which one item, kept under the predicate,
    has been changed. *)
Lemma find_alter {A : Type} (p : A -> bool) (f : A -> A) (l : list A) (i : nat) :
  (forall x, p (f x) = p x) ->
  List.find p (alter f i l)
  = match List.find p l with
    | Some x => if decide (findIndex p l = Some i) then Some (f x) else Some x
    | None => None
    end.
Proof.
  intros Hp. revert i. induction l as [|x l IH]; intros i; [reflexivity|].
  destruct i as [|i]; cbn [alter list_alter List.find findIndex].
  - rewrite Hp. destruct (p x) eqn:Hx.
    + now destruct (decide _).
    + destruct (List.find p l) eqn:E; [|reflexivity].
      destruct (decide _) as [D|D]; [|reflexivity].
      destruct (findIndex p l); discriminate D.
  - change (list_alter f i l) with (alter f i l).
    destruct (p x) eqn:Hx.
    + destruct (decide _) as [D|D]; [discriminate D | reflexivity].
    + rewrite IH. destruct (List.find p l) eqn:E; [|reflexivity].
      destruct (findIndex p l) as [k|] eqn:Ek; cbn [option_map].
      * destruct (decide (Some k = Some i)) as [D|D];
          destruct (decide (Some (S k) = Some (S i))) as [D'|D'];
          try reflexivity; congruence.
      * destruct (decide (None = Some i)) as [D|D]; [discriminate D|].
        destruct (decide (None = Some (S i))) as [D'|D']; [discriminate D'|].
        reflexivity.
Qed.

Lemma find_app {A : Type} (p : A -> bool) (l1 l2 : list A) :
  List.find p (l1 ++ l2)
  = match List.find p l1 with
    | Some x => Some x
    | None => List.find p l2
    end.
Proof.
  induction l1 as [|x l1 IH]; cbn [app List.find]; [reflexivity|].
  now destruct (p x).
Qed.

Lemma getToggle_upsert_same (items : list ToggleItem) (lbl : string) (val : bool) :
  get (upsert items lbl val) lbl
  = Some {| label := match get items lbl with
                     | Some it => label it
                     | None => lbl
                     end;
            value := val |}.
Proof.
  unfold getToggle, upsertToggle.
  set (p := fun x : ToggleItem => same (label x) lbl).
  destruct (findIndex p items) as [i|] eqn:E.
  - rewrite find_alter by reflexivity.
    destruct (findIndex_Some p items i E) as (x & _ & _ & -> & _).
    rewrite E. now destruct (decide _).
  - apply findIndex_None in E as E'. rewrite E'.
    rewrite find_app, E'. cbn [List.find]. unfold p at 1. cbn [label].
    now rewrite same_label_refl.
Qed.

Lemma getToggle_upsert_other (items : list ToggleItem) (lbl lbl' : string)
    (val : bool) :
  same lbl' lbl = false ->
  get (upsert items lbl val) lbl' = get items lbl'.
Proof.
  intros Hne. unfold getToggle, upsertToggle.
  set (p := fun x : ToggleItem => same (label x) lbl).
  set (p' := fun x : ToggleItem => same (label x) lbl').
  destruct (findIndex p items) as [i|] eqn:E.
  - destruct (findIndex_Some p items i E) as (x & Hx & Hpx & _).
    rewrite find_alter by reflexivity.
    destruct (List.find p' items) as [y|] eqn:Ey; [|reflexivity].
    destruct (decide _) as [D|D]; [|reflexivity].
    exfalso. destruct (findIndex_Some p' items i D) as (z & Hz & Hpz & _).
    assert (z = x) by congruence. subst z. unfold p, p' in *.
    assert (Ht : same lbl (label x) = true) by now rewrite same_label_sym.
    pose proof (same_label_trans lbl (label x) lbl' Ht Hpz) as Ht'.
    rewrite same_label_sym in Ht'. congruence.
  - rewrite find_app. destruct (List.find p' items); [reflexivity|].
    cbn [List.find]. unfold p'. cbn [label].
    now rewrite same_label_sym, Hne.
Qed.

Lemma getToggle_remove (items : list ToggleItem) (lbl lbl' : string) :
  get (remove items lbl) lbl'
  = if same lbl' lbl then None else get items lbl'.
Proof.
  unfold getToggle, removeToggle.
  induction items as [|x items IH]; cbn [List.filter List.find].
  - now destruct (same lbl' lbl).
  - destruct (same (label x) lbl) eqn:Hx; cbn [negb List.find]; rewrite IH;
      destruct (same lbl' lbl) eqn:H; try reflexivity.
    + (* [x] is removed and is not the item looked for *)
      pose proof (same_label_iff (label x) lbl lbl' Hx) as E.
      rewrite H, same_label_sym in E. now rewrite E.
    + (* [x] stays and is not the item looked for *)
      pose proof (same_label_iff lbl' lbl (label x) H) as E.
      rewrite Hx in E. now rewrite E.
Qed.

Lemma getToggle_same (items : list ToggleItem) (a b : string) :
  same a b = true -> get items a = get items b.
Proof.
  intros H. unfold getToggle.
  induction items as [|x items IH]; cbn [List.find]; [reflexivity|].
  now rewrite (same_label_iff a b (label x) H), IH.
Qed.

(** *** Lists of distinct labels *)

Local Abbreviation key := (fun x : ToggleItem => toLowerCase (label x)).
Local Abbreviation distinct := (distinct_labels toLowerCase).

Lemma lookup_In {A : Type} (l : list A) (i : nat) (x : A) :
  l !! i = Some x -> In x l.
Proof.
  revert i. induction l as [|y l IH]; intros [|i] H; try discriminate H.
  - injection H as ->. now left.
  - right. exact (IH i H).
Qed.

Lemma same_label_key (a b : string) :
  same a b = true <-> toLowerCase a = toLowerCase b.
Proof. apply String.eqb_eq. Qed.

Lemma same_label_false (a b : string) :
  same a b = false <-> toLowerCase a <> toLowerCase b.
Proof. apply String.eqb_neq. Qed.

Lemma keys_alter (items : list ToggleItem) (i : nat) (val : bool) :
  map key (alter (fun it => {| label := label it; value := val |}) i items)
  = map key items.
Proof.
  revert i. induction items as [|x items IH]; intros [|i];
    cbn [alter list_alter map label]; try reflexivity.
  f_equal. apply IH.
Qed.

Lemma find_none_keys (items : list ToggleItem) (lbl : string) :
  List.find (fun x => same (label x) lbl) items = None
  <-> ~ In (toLowerCase lbl) (map key items).
Proof.
  induction items as [|x items IH]; cbn [List.find map In]; [tauto|].
  destruct (same (label x) lbl) eqn:E.
  - apply same_label_key in E. split; [discriminate|]. intros H. tauto.
  - apply same_label_false in E. rewrite IH. tauto.
Qed.

Lemma keys_upsert (items : list ToggleItem) (lbl : string) (val : bool) :
  map key (upsert items lbl val)
  = if existsb (fun x => same (label x) lbl) items
    then map key items
    else map key items ++ [toLowerCase lbl].
Proof.
  unfold upsertToggle.
  set (p := fun x : ToggleItem => same (label x) lbl).
  destruct (findIndex p items) as [i|] eqn:E.
  - destruct (findIndex_Some p items i E) as (x & Hx & Hpx & _).
    assert (Hex : existsb p items = true).
    { apply existsb_exists. exists x. split; [|exact Hpx].
      eapply lookup_In, Hx. }
    rewrite Hex. apply keys_alter.
  - apply findIndex_None in E.
    assert (Hex : existsb p items = false).
    { destruct (existsb p items) eqn:Hex; [|reflexivity].
      apply existsb_exists in Hex as (x & Hin & Hpx).
      eapply List.find_none in E; [|exact Hin]. congruence. }
    rewrite Hex, map_app. reflexivity.
Qed.

Lemma distinct_upsert (items : list ToggleItem) (lbl : string) (val : bool) :
  distinct items -> distinct (upsert items lbl val).
Proof.
  unfold distinct_labels. intros H. rewrite keys_upsert.
  destruct (existsb _ items) eqn:Hex; [exact H|].
  apply List.NoDup_app; [exact H | repeat constructor; intros [] | ].
  intros k Hk [<-|[]]. revert Hk. apply find_none_keys.
  destruct (List.find _ items) as [x|] eqn:E; [|reflexivity].
  apply List.find_some in E as [Hin Hx].
  assert (existsb (fun x => same (label x) lbl) items = true)
    by (apply existsb_exists; eauto).
  congruence.
Qed.

Lemma keys_remove (items : list ToggleItem) (lbl : string) :
  map key (remove items lbl)
  = List.filter (fun k => negb (String.eqb k (toLowerCase lbl)))
                (map key items).
Proof.
  unfold removeToggle. induction items as [|x items IH];
    cbn [List.filter map]; [reflexivity|].
  fold (same (label x) lbl).
  destruct (same (label x) lbl); cbn [negb map]; now rewrite IH.
Qed.

Lemma distinct_remove (items : list ToggleItem) (lbl : string) :
  distinct items -> distinct (remove items lbl).
Proof.
  unfold distinct_labels. intros H. rewrite keys_remove.
  now apply List.NoDup_filter.
Qed.

Lemma distinct_findIndex (items : list ToggleItem) (i : nat) (it : ToggleItem) :
  distinct items -> items !! i = Some it ->
  findIndex (fun x => same (label x) (label it)) items = Some i.
Proof.
  unfold distinct_labels. revert i. induction items as [|x items IH];
    intros i Hd Hi; [discriminate Hi|].
  cbn [map] in Hd. apply List.NoDup_cons_iff in Hd as [Hx Hd].
  destruct i as [|i]; cbn [findIndex].
  - injection Hi as ->. now rewrite same_label_refl.
  - change ((x :: items) !! S i) with (items !! i) in Hi.
    destruct (same (label x) (label it)) eqn:E.
    + exfalso. apply Hx. apply same_label_key in E. rewrite E.
      apply in_map_iff. exists it. split; [reflexivity|].
      eapply lookup_In, Hi.
    + now rewrite (IH i Hd Hi).
Qed.

Lemma alter_insert {A : Type} (f : A -> A) (l : list A) (i : nat) (x : A) :
  l !! i = Some x -> alter f i l = <[i := f x]> l.
Proof.
  revert i. induction l as [|y l IH]; intros [|i] H; try discriminate H.
  - injection H as ->. reflexivity.
  - cbn [alter list_alter insert list_insert]. f_equal. now apply IH.
Qed.

Lemma remove_absent (items : list ToggleItem) (lbl : string) :
  ~ In (toLowerCase lbl) (map key items) -> remove items lbl = items.
Proof.
  unfold removeToggle. induction items as [|x items IH]; cbn [List.filter map In];
    [reflexivity|].
  intros H. destruct (same (label x) lbl) eqn:E.
  - apply same_label_key in E. tauto.
  - cbn [negb]. f_equal. apply IH. tauto.
Qed.

Lemma distinct_remove_at (items : list ToggleItem) (i : nat) (it : ToggleItem) :
  distinct items -> items !! i = Some it ->
  remove items (label it) = delete i items.
Proof.
  unfold distinct_labels. revert i. induction items as [|x items IH];
    intros i Hd Hi; [discriminate Hi|].
  cbn [map] in Hd. apply List.NoDup_cons_iff in Hd as [Hx Hd].
  destruct i as [|i].
  - injection Hi as ->. unfold removeToggle. cbn [List.filter].
    rewrite same_label_refl. cbn [negb]. now apply remove_absent.
  - change ((x :: items) !! S i) with (items !! i) in Hi.
    unfold removeToggle. cbn [List.filter].
    destruct (same (label x) (label it)) eqn:E.
    + exfalso. apply Hx. apply same_label_key in E. rewrite E.
      apply in_map_iff. exists it. split; [reflexivity|].
      eapply lookup_In, Hi.
    + cbn [negb]. change (delete (S i) (x :: items)) with (x :: delete i items).
      f_equal. now apply IH.
Qed.

Lemma findIndex_le {A : Type} (p : A -> bool) (l : list A) (j : nat) (x : A) :
  l !! j = Some x -> p x = true ->
  exists i, findIndex p l = Some i /\ (i <= j)%nat.
Proof.
  revert j. induction l as [|y l IH]; intros [|j] Hj Hp; try discriminate Hj;
    cbn [findIndex].
  - injection Hj as ->. rewrite Hp. exists O. split; [reflexivity | lia].
  - destruct (p y); [exists O; split; [reflexivity | lia]|].
    destruct (IH j Hj Hp) as (i & -> & Hi).
    exists (S i). split; [reflexivity | lia].
Qed.

Lemma upsert_first_match (items : list ToggleItem) (j : nat) (it : ToggleItem)
    (val : bool) :
  items !! j = Some it ->
  exists i x,
    (i <= j)%nat /\ items !! i = Some x
    /\ same (label x) (label it) = true
    /\ (forall k y, (k < i)%nat -> items !! k = Some y ->
                    same (label y) (label it) = false)
    /\ upsert items (label it) val
       = <[i := {| label := label x; value := val |}]> items.
Proof.
  intros Hj.
  destruct (findIndex_le (fun x => same (label x) (label it)) items j it Hj
              (same_label_refl _)) as (i & Ei & Hi).
  destruct (findIndex_Some _ items i Ei) as (x & Hx & Hpx & _ & Hlt).
  exists i, x. split; [exact Hi|]. split; [exact Hx|]. split; [exact Hpx|].
  split; [exact Hlt|].
  unfold upsertToggle. rewrite Ei. cbv zeta.
  now rewrite (alter_insert _ items i x Hx).
Qed.

(** *** The items and the score *)

Lemma count_on_app (l1 l2 : list ToggleItem) :
  count_on (l1 ++ l2) = (count_on l1 + count_on l2)%nat.
Proof. unfold count_on. now rewrite map_app, count_occ_app. Qed.

Lemma count_on_alter (items : list ToggleItem) (i : nat) (val : bool) :
  let items' := alter (fun it => {| label := label it; value := val |}) i items in
  if val then (count_on items <= count_on items')%nat
  else (count_on items' <= count_on items)%nat.
Proof.
  cbv zeta. revert i. induction items as [|[l v] items IH]; intros [|i];
    cbn [alter list_alter label]; try (destruct val; lia).
  - unfold count_on. cbn [map value]. destruct val, v; cbn; lia.
  - specialize (IH i). unfold count_on in *. cbn [map value].
    change (list_alter ?f i items) with (alter f i items).
    destruct val, v; cbn; lia.
Qed.

Lemma count_on_upsert (items : list ToggleItem) (lbl : string) (val : bool) :
  if val then (count_on items <= count_on (upsert items lbl val))%nat
  else (count_on (upsert items lbl val) <= count_on items)%nat.
Proof.
  unfold upsertToggle. destruct (findIndex _ items) as [i|].
  - apply count_on_alter.
  - rewrite count_on_app. destruct val; cbn; lia.
Qed.

Lemma count_on_remove (items : list ToggleItem) (lbl : string) :
  (count_on (remove items lbl) <= count_on items)%nat.
Proof.
  unfold removeToggle, count_on.
  induction items as [|[l v] items IH]; cbn [List.filter map label value];
    [lia|].
  destruct (negb _); cbn [map value]; destruct v; cbn; lia.
Qed.

Section AddItem.
Variables trim titleCase : string -> string.

Lemma count_on_addItem (items : list ToggleItem) (draftLabel : string) :
  count_on (fst (addItem toLowerCase trim titleCase items draftLabel))
  = count_on items.
Proof.
  unfold addItem. destruct (trim draftLabel); [reflexivity|].
  destruct (existsb _ items); [reflexivity|].
  cbn [fst]. rewrite count_on_app. cbn. lia.
Qed.

Lemma existsb_keys (items : list ToggleItem) (lbl : string) :
  existsb (fun x => same (label x) lbl) items = false ->
  ~ In (toLowerCase lbl) (map key items).
Proof.
  intros H. apply find_none_keys.
  destruct (List.find _ items) as [x|] eqn:E; [|reflexivity].
  apply List.find_some in E as [Hin Hx].
  assert (existsb (fun x => same (label x) lbl) items = true)
    by (apply existsb_exists; eauto).
  congruence.
Qed.

Lemma distinct_addItem (items : list ToggleItem) (draftLabel : string) :
  toLowerCase (titleCase (trim draftLabel)) = toLowerCase (trim draftLabel) ->
  distinct items ->
  distinct (fst (addItem toLowerCase trim titleCase items draftLabel)).
Proof.
  unfold addItem, distinct_labels. intros Hk Hd.
  destruct (trim draftLabel) as [|c l] eqn:El; [exact Hd|].
  destruct (existsb _ items) eqn:Hex; [exact Hd|].
  cbn [fst]. rewrite map_app. cbn [map label]. rewrite Hk.
  apply List.NoDup_app; [exact Hd | repeat constructor; intros [] | ].
  intros k Hin [<-|[]]. revert Hin. now apply existsb_keys.
Qed.
End AddItem.

Lemma computeDLS_loadItems_le (d : Checkin) (l1 l2 : list ToggleItem) :
  (count_on l1 <= count_on l2)%nat ->
  not_greater (computeDLS (set_loadItems l1 d)) (computeDLS (set_loadItems l2 d)).
Proof.
  intros H. apply computeDLS_not_greater; fields; auto.
  - destruct (num_le_refl_or_NaN (socialMinutes d)); auto.
  - destruct (num_le_refl_or_NaN (caffeineMg d)); auto.
Qed.

Lemma computeDLS_loadItems_eq (d : Checkin) (l1 l2 : list ToggleItem) :
  count_on l1 = count_on l2 ->
  computeDLS (set_loadItems l1 d) = computeDLS (set_loadItems l2 d).
Proof.
  intros H. unfold computeDLS. fields. now rewrite !count_on_filter, H.
Qed.

End ToggleItemsFacts.

(* ------------------------------------------------------------------ *)
(** ** [titleCase] *)
(* ------------------------------------------------------------------ *)

Module ASCIIFacts.
Import ASCII.

Ltac each_char c := destruct c as [[] [] [] [] [] [] [] []]; reflexivity.

Lemma upper_white_space (c : ascii) :
  is_StrWhiteSpaceChar (upper c) = is_StrWhiteSpaceChar c.
Proof. each_char c. Qed.

Lemma upper_space (c : ascii) : Ascii.eqb (upper c) " " = Ascii.eqb c " ".
Proof. each_char c. Qed.

Lemma upper_upper (c : ascii) : upper (upper c) = upper c.
Proof. each_char c. Qed.

Lemma lower_upper (c : ascii) : lower (upper c) = lower c.
Proof. each_char c. Qed.

Lemma lower_white_space (c : ascii) :
  is_StrWhiteSpaceChar (lower c) = is_StrWhiteSpaceChar c.
Proof. each_char c. Qed.

Lemma is_lower_upper (c : ascii) : is_lower (upper c) = false.
Proof. each_char c. Qed.

Lemma upper_not_lower (c : ascii) : is_lower c = false -> upper c = c.
Proof. unfold upper. now intros ->. Qed.

Lemma space_white_space (c : ascii) :
  Ascii.eqb c " " = true -> is_StrWhiteSpaceChar c = true.
Proof. intros H. apply Ascii.eqb_eq in H. now subst c. Qed.

(** *** The words, split and joined, are the text capitalised in place *)

Lemma split_cons (sep : ascii) (cs : list ascii) :
  exists w ws, split sep cs = w :: ws.
Proof.
  induction cs as [|c r IH]; cbn [split]; [eauto|].
  destruct (Ascii.eqb c sep); [eauto|].
  destruct IH as (w & ws & ->). eauto.
Qed.

Lemma join_cons (sep w : list ascii) (w' : list ascii) (ws : list (list ascii)) :
  join sep (w :: w' :: ws) = w ++ sep ++ join sep (w' :: ws).
Proof. reflexivity. Qed.

Lemma join_cons_char (sep : list ascii) (c : ascii) (w : list ascii)
    (ws : list (list ascii)) :
  join sep ((c :: w) :: ws) = c :: join sep (w :: ws).
Proof. destruct ws; reflexivity. Qed.

Lemma join_split (b : bool) (cs : list ascii) :
  join [" "%char]
    match split " " cs with
    | w :: ws => (if b then capitalise w else w) :: map capitalise ws
    | [] => []
    end
  = capitalise_after b cs.
Proof.
  revert b. induction cs as [|c r IH]; intros b;
    cbn [split capitalise_after].
  - now destruct b.
  - destruct (Ascii.eqb c " ") eqn:E.
    + apply Ascii.eqb_eq in E. subst c.
      specialize (IH true). destruct (split_cons " " r) as (w & ws & Hs).
      rewrite Hs in IH |- *. cbn [map].
      replace (if b then capitalise [] else []) with (@nil ascii)
        by now destruct b.
      rewrite join_cons. cbn [app]. now rewrite <- IH.
    + specialize (IH false). destruct (split_cons " " r) as (w & ws & Hs).
      rewrite Hs in IH |- *.
      replace (if b then capitalise (c :: w) else c :: w)
        with ((if b then upper c else c) :: w) by now destruct b.
      rewrite join_cons_char. now rewrite <- IH.
Qed.

Lemma titleCase_in_place (s : string) :
  titleCase s
  = string_of_list_ascii
      (capitalise_after true
         (replace_whitespace (trimEnd (trimStart (list_ascii_of_string s))))).
Proof.
  unfold titleCase. f_equal. rewrite <- join_split.
  now destruct (split_cons " " (replace_whitespace
                 (trimEnd (trimStart (list_ascii_of_string s))))) as (w & ws & ->).
Qed.

(** *** Texts of single-spaced words *)

Lemma spaced_nonempty (cs : list ascii) : spaced true cs = true -> cs <> [].
Proof. now destruct cs. Qed.

Lemma spaced_trimStart (cs : list ascii) :
  spaced true cs = true -> trimStart cs = cs.
Proof.
  destruct cs as [|c r]; [reflexivity|]. cbn [spaced trimStart skip_StrWhiteSpace].
  destruct (is_StrWhiteSpaceChar c); [|reflexivity].
  rewrite andb_false_r. discriminate.
Qed.

Lemma spaced_trimEnd (b : bool) (cs : list ascii) :
  spaced b cs = true -> trimEnd cs = cs.
Proof.
  revert b. induction cs as [|c r IH]; intros b; [reflexivity|].
  cbn [spaced trimEnd]. destruct (is_StrWhiteSpaceChar c).
  - intros H. apply andb_prop in H as [_ H].
    rewrite (IH _ H). pose proof (spaced_nonempty r H). now destruct r.
  - intros H. rewrite (IH _ H). now destruct r.
Qed.

Lemma spaced_replace_whitespace (b : bool) (cs : list ascii) :
  spaced b cs = true -> replace_whitespace cs = cs.
Proof.
  revert b. induction cs as [|c r IH]; intros b; [reflexivity|].
  cbn [spaced replace_whitespace]. destruct (is_StrWhiteSpaceChar c).
  - intros H. apply andb_prop in H as [H Hr]. apply andb_prop in H as [Hc _].
    apply Ascii.eqb_eq in Hc. subst c.
    destruct r as [|c' r']; [discriminate Hr|].
    rewrite (IH _ Hr). cbn [spaced] in Hr.
    destruct (is_StrWhiteSpaceChar c'); [|reflexivity].
    rewrite andb_false_r in Hr. discriminate Hr.
  - intros H. now rewrite (IH _ H).
Qed.

Lemma trimEnd_cons (c : ascii) (r : list ascii) :
  trimEnd (c :: r) = c :: r ->
  is_StrWhiteSpaceChar c = false /\ r = [] \/ r <> [] /\ trimEnd r = r.
Proof.
  cbn [trimEnd]. destruct (trimEnd r) as [|c' r'] eqn:E.
  - destruct (is_StrWhiteSpaceChar c); [discriminate|].
    intros [= <-]. now left.
  - intros [= <-]. right. split; [discriminate | reflexivity].
Qed.

Lemma replace_whitespace_spaced (b : bool) (cs : list ascii) :
  trimEnd cs = cs -> cs <> [] ->
  (b = true -> forall c r, cs = c :: r -> is_StrWhiteSpaceChar c = false) ->
  spaced b (replace_whitespace cs) = true.
Proof.
  revert b. induction cs as [|c r IH]; intros b Ht Hne Hb; [congruence|].
  apply trimEnd_cons in Ht. cbn [replace_whitespace].
  destruct (is_StrWhiteSpaceChar c) eqn:Hc.
  - destruct Ht as [[Ht _]|[Hr Ht]]; [discriminate Ht|].
    assert (b = false) as ->.
    { destruct b; [|reflexivity]. specialize (Hb eq_refl c r eq_refl).
      congruence. }
    destruct r as [|c' r']; [congruence|].
    destruct (is_StrWhiteSpaceChar c') eqn:Hc'.
    + apply IH; [exact Ht | discriminate | discriminate].
    + cbn [spaced]. change (is_StrWhiteSpaceChar " ") with true.
      change (Ascii.eqb " " " ") with true. cbn [negb andb].
      apply IH; [exact Ht | discriminate |].
      intros _ c0 r0 [= <- <-]. exact Hc'.
  - cbn [spaced]. rewrite Hc.
    destruct Ht as [[_ ->]|[Hr Ht]]; [reflexivity|].
    apply IH; [exact Ht | exact Hr | discriminate].
Qed.

Lemma trimEnd_trimEnd (cs : list ascii) : trimEnd (trimEnd cs) = trimEnd cs.
Proof.
  induction cs as [|c r IH]; [reflexivity|]. cbn [trimEnd].
  destruct (trimEnd r) as [|c' r'] eqn:E.
  - destruct (is_StrWhiteSpaceChar c) eqn:Hc; [reflexivity|].
    cbn [trimEnd]. now rewrite Hc.
  - cbn [trimEnd] in IH |- *. rewrite IH. reflexivity.
Qed.

Lemma trimEnd_head (cs : list ascii) (c : ascii) (r : list ascii) :
  trimEnd cs = c :: r -> exists r', cs = c :: r'.
Proof.
  destruct cs as [|c0 r0]; [discriminate|]. cbn [trimEnd].
  destruct (trimEnd r0); [destruct (is_StrWhiteSpaceChar c0)|];
    intros [= <- <-] || discriminate; eauto.
Qed.

Lemma trimStart_head (cs : list ascii) (c : ascii) (r : list ascii) :
  trimStart cs = c :: r -> is_StrWhiteSpaceChar c = false.
Proof.
  unfold trimStart. induction cs as [|c0 r0 IH]; [discriminate|].
  cbn [skip_StrWhiteSpace]. destruct (is_StrWhiteSpaceChar c0) eqn:E;
    [exact IH|]. now intros [= <- <-].
Qed.

(** The text that [titleCase] capitalises is empty or single-spaced. *)
Lemma normalised_spaced (cs : list ascii) :
  let n := replace_whitespace (trimEnd (trimStart cs)) in
  n = [] \/ spaced true n = true.
Proof.
  cbv zeta. destruct (trimEnd (trimStart cs)) as [|c r] eqn:E; [now left|].
  right. rewrite <- E. apply replace_whitespace_spaced.
  - apply trimEnd_trimEnd.
  - rewrite E. discriminate.
  - intros _ c0 r0 H. rewrite E in H. injection H as <- <-.
    destruct (trimEnd_head _ _ _ E) as (r' & Hr').
    now apply trimStart_head in Hr'.
Qed.

Lemma spaced_capitalise_after (b b' : bool) (cs : list ascii) :
  spaced b' (capitalise_after b cs) = spaced b' cs.
Proof.
  revert b b'. induction cs as [|c r IH]; intros b b'; [reflexivity|].
  cbn [capitalise_after]. destruct (Ascii.eqb c " ") eqn:E.
  - cbn [spaced]. now rewrite !IH.
  - cbn [spaced]. destruct b.
    + rewrite upper_white_space, upper_space, !IH. reflexivity.
    + now rewrite !IH.
Qed.

Lemma capitalise_after_idem (b : bool) (cs : list ascii) :
  capitalise_after b (capitalise_after b cs) = capitalise_after b cs.
Proof.
  revert b. induction cs as [|c r IH]; intros b; [reflexivity|].
  cbn [capitalise_after]. destruct (Ascii.eqb c " ") eqn:E.
  - cbn [capitalise_after]. now rewrite E, IH.
  - cbn [capitalise_after]. destruct b.
    + now rewrite upper_space, E, upper_upper, IH.
    + now rewrite E, IH.
Qed.

Lemma word_starts_capitalise_after (b : bool) (cs : list ascii) :
  forallb (fun c => negb (is_lower c)) (word_starts b (capitalise_after b cs))
  = true.
Proof.
  revert b. induction cs as [|c r IH]; intros b; [reflexivity|].
  cbn [capitalise_after]. destruct (Ascii.eqb c " ") eqn:E.
  - cbn [word_starts]. rewrite E. apply IH.
  - destruct b; cbn [word_starts].
    + rewrite upper_space, E. cbn [forallb]. now rewrite is_lower_upper, IH.
    + rewrite E. apply IH.
Qed.

Lemma capitalise_after_fixed (b : bool) (cs : list ascii) :
  forallb (fun c => negb (is_lower c)) (word_starts b cs) = true ->
  capitalise_after b cs = cs.
Proof.
  revert b. induction cs as [|c r IH]; intros b; [reflexivity|].
  cbn [capitalise_after word_starts]. destruct (Ascii.eqb c " ") eqn:E.
  - intros H. now rewrite IH.
  - destruct b.
    + cbn [forallb]. intros H. apply andb_prop in H as [Hc H].
      rewrite upper_not_lower, IH; auto. now destruct (is_lower c).
    + intros H. now rewrite IH.
Qed.

Lemma map_lower_capitalise_after (b : bool) (cs : list ascii) :
  map lower (capitalise_after b cs) = map lower cs.
Proof.
  revert b. induction cs as [|c r IH]; intros b; [reflexivity|].
  cbn [capitalise_after]. destruct (Ascii.eqb c " "); cbn [map]; rewrite IH;
    [reflexivity|]. destruct b; [now rewrite lower_upper | reflexivity].
Qed.

(** *** On strings *)

Lemma list_of_titleCase (s : string) :
  list_ascii_of_string (titleCase s)
  = capitalise_after true
      (replace_whitespace (trimEnd (trimStart (list_ascii_of_string s)))).
Proof.
  now rewrite titleCase_in_place, list_ascii_of_string_of_list_ascii.
Qed.

Lemma single_spaced_list (s : string) :
  single_spaced s = true <->
  list_ascii_of_string s = [] \/ spaced true (list_ascii_of_string s) = true.
Proof.
  destruct s as [|c s]; cbn [single_spaced list_ascii_of_string].
  - split; auto.
  - split; [now right | now intros [H|H]].
Qed.

Lemma titleCase_single_spaced (s : string) : single_spaced (titleCase s) = true.
Proof.
  apply single_spaced_list. rewrite list_of_titleCase.
  destruct (normalised_spaced (list_ascii_of_string s)) as [E|E].
  - left. now rewrite E.
  - right. now rewrite spaced_capitalise_after.
Qed.

Lemma titleCase_capitalised (s : string) : capitalised (titleCase s) = true.
Proof.
  unfold capitalised. rewrite list_of_titleCase.
  apply word_starts_capitalise_after.
Qed.

Lemma single_spaced_normal (s : string) :
  single_spaced s = true ->
  replace_whitespace (trimEnd (trimStart (list_ascii_of_string s)))
  = list_ascii_of_string s.
Proof.
  intros H. apply single_spaced_list in H as [E|E].
  - now rewrite E.
  - rewrite (spaced_trimStart _ E), (spaced_trimEnd _ _ E).
    exact (spaced_replace_whitespace _ _ E).
Qed.

Lemma titleCase_fixed (s : string) :
  single_spaced s = true -> capitalised s = true -> titleCase s = s.
Proof.
  intros Hs Hc. rewrite titleCase_in_place, (single_spaced_normal s Hs).
  rewrite capitalise_after_fixed by exact Hc.
  apply string_of_list_ascii_of_string.
Qed.

Lemma titleCase_idem (s : string) : titleCase (titleCase s) = titleCase s.
Proof.
  apply titleCase_fixed;
    [apply titleCase_single_spaced | apply titleCase_capitalised].
Qed.

Lemma toLowerCase_titleCase (s : string) :
  single_spaced s = true -> toLowerCase (titleCase s) = toLowerCase s.
Proof.
  intros H. unfold toLowerCase.
  now rewrite list_of_titleCase, (single_spaced_normal s H),
    map_lower_capitalise_after.
Qed.

End ASCIIFacts.

(* ------------------------------------------------------------------ *)
(** ** Saving into a sorted history *)
(* ------------------------------------------------------------------ *)

Lemma sorted_NoDup_dates (h : list Checkin) :
  StronglySorted date_lt h -> List.NoDup (dates h).
Proof.
  induction 1 as [|x h Hh IH Hx]; cbn [dates map]; constructor; [|exact IH].
  intros Hin. apply in_map_iff in Hin as (y & Ey & Hy).
  rewrite List.Forall_forall in Hx. apply Hx in Hy.
  apply date_lt_irrefl in Hy. congruence.
Qed.

Lemma NoDup_dates_records (h : list Checkin) :
  List.NoDup (dates h) -> List.NoDup h.
Proof. apply List.NoDup_map_inv. Qed.

(** Two histories sorted by date with the same records are equal. *)
Lemma sorted_same_records (l1 l2 : list Checkin) :
  StronglySorted date_lt l1 -> StronglySorted date_lt l2 ->
  (forall x, In x l1 <-> In x l2) -> l1 = l2.
Proof.
  intros H1 H2 H. apply sorted_by_date_unique; auto.
  apply Permutation.NoDup_Permutation; auto;
    now apply NoDup_dates_records, sorted_NoDup_dates.
Qed.

Lemma in_saveCheckin (draft : Checkin) (prev : list Checkin) (x : Checkin) :
  In x (saveCheckin (Some draft) prev)
  <-> x = draft \/ (In x prev /\ date x <> date draft).
Proof.
  rewrite saveCheckin_unfold.
  set (next := if existsb _ prev then _ else _).
  assert (Hp : In x (Array_sort by_date next) <-> In x next).
  { split; apply Permutation_in;
      [apply Permutation_sym|]; apply Array_sort_perm. }
  rewrite Hp. subst next. destruct (existsb _ prev) eqn:E.
  - rewrite in_replace. apply existsb_date in E. tauto.
  - rewrite in_app_iff. cbn [In].
    assert (Hn : ~ In (date draft) (dates prev)).
    { intros Hin. apply existsb_date in Hin. congruence. }
    split.
    + intros [Hin|[<-|[]]]; [right | now left].
      split; [exact Hin|]. intros Ed. apply Hn. rewrite <- Ed.
      now apply in_map.
    + intros [->|[Hin _]]; auto.
Qed.

Lemma sorted_filter (p : Checkin -> bool) (h : list Checkin) :
  StronglySorted date_lt h -> StronglySorted date_lt (List.filter p h).
Proof.
  induction 1 as [|x h Hh IH Hx]; cbn [List.filter]; [constructor|].
  destruct (p x); [|exact IH]. constructor; [exact IH|].
  rewrite List.Forall_forall in Hx |- *. intros y Hy.
  apply List.filter_In in Hy as [Hy _]. now apply Hx.
Qed.

Lemma sorted_app (l1 l2 : list Checkin) :
  StronglySorted date_lt l1 -> StronglySorted date_lt l2 ->
  (forall x y, In x l1 -> In y l2 -> date_lt x y) ->
  StronglySorted date_lt (l1 ++ l2).
Proof.
  induction 1 as [|x l1 Hl1 IH Hx]; intros H2 H; cbn [app]; [exact H2|].
  constructor.
  - apply IH; [exact H2|]. intros a b Ha Hb. apply H; [now right | exact Hb].
  - apply List.Forall_app. split; [exact Hx|].
    apply List.Forall_forall. intros y Hy. apply H; [now left | exact Hy].
Qed.

(** The history after a save has the days before the draft's date, the
    draft, and the days after it. *)
Lemma saveCheckin_sorted_position (draft : Checkin) (prev : list Checkin) :
  StronglySorted date_lt prev ->
  saveCheckin (Some draft) prev
  = List.filter (fun x => date_ltb x draft) prev
    ++ draft :: List.filter (fun x => date_ltb draft x) prev.
Proof.
  intros Hs. apply sorted_same_records.
  - now apply saveCheckin_sorted, sorted_NoDup_dates.
  - apply sorted_app.
    + now apply sorted_filter.
    + constructor; [now apply sorted_filter|].
      apply List.Forall_forall. intros y Hy.
      now apply List.filter_In in Hy as [_ Hy].
    + intros x y Hx [<-|Hy].
      * now apply List.filter_In in Hx as [_ Hx].
      * apply List.filter_In in Hx as [_ Hx].
        apply List.filter_In in Hy as [_ Hy].
        exact (date_lt_trans x draft y Hx Hy).
  - intros x. rewrite in_saveCheckin, in_app_iff. cbn [In].
    rewrite !List.filter_In. unfold date_ltb. split.
    + intros [->|[Hin Hne]]; [auto|].
      destruct (string_ltb_total _ _ Hne); auto.
    + intros [[Hin Hlt]|[<-|[Hin Hlt]]]; [right | now left | right];
        (split; [exact Hin|]).
      * now apply date_lt_irrefl.
      * intros E. symmetry in E. revert E. now apply date_lt_irrefl.
Qed.

(** A day saved a second time, or saved over, leaves the later record. *)
Lemma saveCheckin_same_date (d d' : Checkin) (prev : list Checkin) :
  List.NoDup (dates prev) -> date d' = date d ->
  saveCheckin (Some d') (saveCheckin (Some d) prev) = saveCheckin (Some d') prev.
Proof.
  intros Hnd Ed.
  destruct (saveCheckin_sorted d prev Hnd) as [Hnd1 _].
  apply sorted_same_records.
  - now apply saveCheckin_sorted.
  - now apply saveCheckin_sorted.
  - intros x. rewrite !in_saveCheckin. rewrite Ed.
    assert (x = d -> date x = date d) by now intros ->.
    tauto.
Qed.

Lemma saveCheckin_comm (d1 d2 : Checkin) (prev : list Checkin) :
  List.NoDup (dates prev) -> date d1 <> date d2 ->
  saveCheckin (Some d1) (saveCheckin (Some d2) prev)
  = saveCheckin (Some d2) (saveCheckin (Some d1) prev).
Proof.
  intros Hnd Hne.
  destruct (saveCheckin_sorted d1 prev Hnd) as [Hnd1 _].
  destruct (saveCheckin_sorted d2 prev Hnd) as [Hnd2 _].
  apply sorted_same_records.
  - now apply saveCheckin_sorted.
  - now apply saveCheckin_sorted.
  - intros x. rewrite !in_saveCheckin.
    assert (x = d1 -> date x <> date d2) by (intros ->; exact Hne).
    assert (x = d2 -> date x <> date d1) by (intros ->; congruence).
    tauto.
Qed.

(* ------------------------------------------------------------------ *)
(** ** Bounds of the scores, and what they depend on *)
(* ------------------------------------------------------------------ *)

Lemma dls_raw_le_90 (qs qc : Q) (j : bool) (n v : nat) (w g : bool) :
  (qs <= 30)%Q -> (qc <= 20)%Q -> (dls_raw qs qc j n v w g <= 90)%Q.
Proof.
  intros Hs Hc. unfold dls_raw.
  pose proof (qclamp_bounds (6 * inject_Z (Z.of_nat n)) 0 30 ltac:(lra)).
  pose proof (qclamp_bounds (3 * inject_Z (Z.of_nat v)) 0 12 ltac:(lra)).
  destruct j, w, g; lra.
Qed.

Lemma computeDLS_le_90 (d : Checkin) : not_greater (computeDLS d) 90.
Proof.
  destruct (clamp_cases (socialMinutes d / 10 * 3) 0 30 ltac:(lra))
    as [[_ Es]|[_ (qs & Es & Hs)]].
  { apply not_greater_NaN. left. unfold computeDLS. now rewrite Es. }
  destruct (clamp_cases (caffeineMg d / 50 * 2.5) 0 20 ltac:(lra))
    as [[_ Ec]|[_ (qc & Ec & Hc)]].
  { apply not_greater_NaN. left. unfold computeDLS. rewrite Es, Ec.
    reflexivity. }
  rewrite (computeDLS_Fin d qs qc Es Ec).
  set (raw := dls_raw _ _ _ _ _ _ _).
  assert (Hraw : (raw <= 90)%Q) by (apply dls_raw_le_90; lra).
  assert (Hz : (Qfloor (raw + (1 # 2)) <= 90)%Z).
  { change 90%Z with (Qfloor (90 + (1 # 2))). apply Qfloor_resp_le. lra. }
  unfold not_greater. cbn [Num.ltb].
  apply negb_false_iff, Qle_bool_iff.
  apply Qle_trans with (qclamp (inject_Z 90) 0 100);
    [|now apply Qle_bool_iff].
  apply qclamp_mono. now rewrite <- Zle_Qle.
Qed.

Lemma extraLoad_capped (n : nat) :
  (5 <= n)%nat -> clamp (Num.of_nat n * 6) 0 30 = Fin 30.
Proof.
  intros H. unfold Num.of_nat. cbn [Num.mul]. rewrite clamp_Fin.
  unfold qclamp, qmax, qmin.
  assert (E : Qle_bool 30 (inject_Z (Z.of_nat n) * 6) = true).
  { apply Qle_bool_iff.
    assert (Hz : (5 <= Z.of_nat n)%Z) by lia.
    rewrite Zle_Qle in Hz.
    set (x := inject_Z (Z.of_nat n)) in *.
    change (inject_Z 5) with (5 # 1) in Hz. lra. }
  rewrite E. reflexivity.
Qed.

Lemma computeDLS_load_capped (d : Checkin) (l1 l2 : list ToggleItem) :
  (5 <= count_on l1)%nat -> (5 <= count_on l2)%nat ->
  computeDLS (set_loadItems l1 d) = computeDLS (set_loadItems l2 d).
Proof.
  intros H1 H2. unfold computeDLS. fields.
  now rewrite !count_on_filter, !extraLoad_capped.
Qed.

(** *** The window of [computeNEI] *)

Lemma slice_last_app {A : Type} (n : nat) (pre w : list A) :
  (n <= length w)%nat -> slice_last n (pre ++ w) = slice_last n w.
Proof.
  intros H. unfold slice_last. rewrite length_app, skipn_app.
  rewrite skipn_all2 by lia. cbn [app]. f_equal. lia.
Qed.

Lemma slice_last_slice_last {A : Type} (n : nat) (l : list A) :
  slice_last n (slice_last n l) = slice_last n l.
Proof.
  unfold slice_last at 1. rewrite slice_last_length.
  replace (Nat.min (length l) n - n)%nat with O by lia. reflexivity.
Qed.

Lemma computeNEI_slice (h1 h2 : list Checkin) :
  slice_last 7 h1 = slice_last 7 h2 -> computeNEI h1 = computeNEI h2.
Proof. unfold computeNEI. now intros ->. Qed.

Lemma computeNEI_window (pre w : list Checkin) :
  (7 <= length w)%nat -> computeNEI (pre ++ w) = computeNEI w.
Proof. intros H. apply computeNEI_slice. now apply slice_last_app. Qed.

(** *** The fields [computeNEI] reads *)

Lemma Forall2_skipn {A B : Type} (R : A -> B -> Prop) (n : nat)
    (l1 : list A) (l2 : list B) :
  List.Forall2 R l1 l2 -> List.Forall2 R (skipn n l1) (skipn n l2).
Proof.
  intros H. revert n. induction H as [|x y l1 l2 Hxy H IH]; intros [|n];
    cbn [skipn]; try constructor; auto.
Qed.

Lemma Forall2_slice_last {A B : Type} (R : A -> B -> Prop) (n : nat)
    (l1 : list A) (l2 : list B) :
  List.Forall2 R l1 l2 -> List.Forall2 R (slice_last n l1) (slice_last n l2).
Proof.
  intros H. unfold slice_last. rewrite (List.Forall2_length H).
  now apply Forall2_skipn.
Qed.

Lemma fold_left_agree (f : Checkin -> number) (l1 l2 : list Checkin)
    (a : number) :
  List.Forall2 (fun x y => f x = f y) l1 l2 ->
  fold_left (fun a x => a + f x) l1 a = fold_left (fun a x => a + f x) l2 a.
Proof.
  intros H. revert a. induction H as [|x y l1 l2 Hxy H IH]; intros a;
    cbn [fold_left]; [reflexivity|]. now rewrite Hxy, IH.
Qed.

Lemma filter_length_agree (p : Checkin -> bool) (l1 l2 : list Checkin) :
  List.Forall2 (fun x y => p x = p y) l1 l2 ->
  length (List.filter p l1) = length (List.filter p l2).
Proof.
  induction 1 as [|x y l1 l2 Hxy H IH]; cbn [List.filter]; [reflexivity|].
  rewrite Hxy. destruct (p y); cbn [length]; now rewrite IH.
Qed.

Lemma computeNEI_agree (h1 h2 : list Checkin) :
  List.Forall2 NEI_inputs_agree h1 h2 -> computeNEI h1 = computeNEI h2.
Proof.
  intros H. apply (Forall2_slice_last _ 7) in H. unfold computeNEI.
  set (l1 := slice_last 7 h1) in *. set (l2 := slice_last 7 h2) in *.
  rewrite (List.Forall2_length H).
  rewrite (fold_left_agree energy l1 l2),
          (fold_left_agree sleepHours l1 l2),
          (filter_length_agree (fun x => existsb value (loadItems x)) l1 l2),
          (filter_length_agree (fun x => virtuesCount (virtues x) >=? 1) l1 l2);
    [reflexivity | | | | ];
    (eapply List.Forall2_impl; [|exact H]); intros a b (He & Hs & Hl & Hv);
    auto.
  - now rewrite !virtuesCount_some_virtue_on.
  - now rewrite !existsb_some_load_on.
Qed.

(** *** The progress bar *)

Lemma progressPct_NaN (st : AppState) :
  st_planDays st = NaN -> progressPct st = NaN.
Proof. unfold progressPct. now intros ->. Qed.

Lemma progressPct_integer (st : AppState) :
  st_planDays st <> NaN -> integer_in 0 100 (progressPct st).
Proof.
  intros Hp. unfold progressPct, dayNumber, Num.of_nat.
  set (n := inject_Z (Z.of_nat (length (st_history st)))).
  destruct (st_planDays st) as [| | |q] eqn:E; [congruence| | |].
  - apply clamp_round_integer. discriminate.
  - exists 0%Z. split; [reflexivity | lia].
  - cbn [Num.leb]. destruct (Qle_bool q 0) eqn:Hq.
    + exists 0%Z. split; [reflexivity | lia].
    + apply clamp_round_integer. cbn [Num.div].
      destruct (Qeq_bool q 0) eqn:Hq0; [|discriminate].
      apply Qeq_bool_iff in Hq0. apply Qle_bool_false in Hq. exfalso. lra.
Qed.

Lemma progressPct_full (st : AppState) :
  (0 <? st_planDays st) = true ->
  (st_planDays st <=? dayNumber st) = true ->
  progressPct st = 100.
Proof.
  unfold progressPct, dayNumber, Num.of_nat.
  set (n := inject_Z (Z.of_nat (length (st_history st)))). clearbody n.
  destruct (st_planDays st) as [| | |q]; try discriminate.
  cbn [Num.ltb Num.leb]. intros Hq Hn.
  apply negb_true_iff in Hq. rewrite Hq.
  apply Qle_bool_false in Hq. apply Qle_bool_iff in Hn.
  cbn [Num.div]. destruct (Qeq_bool q 0) eqn:Hq0.
  { apply Qeq_bool_iff in Hq0. exfalso. lra. }
  cbn [Num.mul Math_round]. rewrite clamp_Fin.
  assert (Hz : (100 <= Qfloor (n / q * 100 + (1 # 2)))%Z).
  { assert (Hr : (1 <= n / q)%Q) by (apply Qle_shift_div_l; lra).
    set (r := (n / q)%Q) in *.
    apply (Qfloor_resp_le (100 + (1 # 2)) (r * 100 + (1 # 2))). lra. }
  rewrite Zle_Qle in Hz. unfold qclamp, qmin, qmax.
  apply Qle_bool_iff in Hz. change (inject_Z 100) with (100 : Q) in Hz.
  now rewrite Hz.
Qed.

(** *** [computeNEI] goes up with energy, sleep and virtues *)

Lemma fold_left_le (f : Checkin -> number) (l1 l2 : list Checkin) (a1 a2 : Q) :
  List.Forall2 (fun x y => is_finite (f x) = true /\ is_finite (f y) = true
                           /\ f x ⪯ f y) l1 l2 ->
  (a1 <= a2)%Q ->
  exists q1 q2,
    fold_left (fun a x => a + f x) l1 (Fin a1) = Fin q1
    /\ fold_left (fun a x => a + f x) l2 (Fin a2) = Fin q2
    /\ (q1 <= q2)%Q.
Proof.
  intros H. revert a1 a2.
  induction H as [|x y l1 l2 (Hx & Hy & Hxy) H IH]; intros a1 a2 Ha;
    cbn [fold_left]; [eauto|].
  destruct (f x) as [| | |u]; try discriminate.
  destruct (f y) as [| | |v]; try discriminate.
  apply Qle_bool_iff in Hxy. cbn [Num.add]. apply IH. lra.
Qed.

Lemma div_of_nat_Fin (q : Q) (m : nat) :
  Fin q / Num.of_nat (S m) = Fin (q / inject_Z (Z.of_nat (S m))).
Proof.
  unfold Num.of_nat. cbn [Num.div].
  destruct (Qeq_bool (inject_Z (Z.of_nat (S m))) 0) eqn:E; [|reflexivity].
  apply Qeq_bool_iff in E. unfold Qeq in E. cbn [Qnum Qden inject_Z] in E. lia.
Qed.

Lemma filter_length_le (p : Checkin -> bool) (l1 l2 : list Checkin) :
  List.Forall2 (fun x y => p x = true -> p y = true) l1 l2 ->
  (length (List.filter p l1) <= length (List.filter p l2))%nat.
Proof.
  induction 1 as [|x y l1 l2 Hxy H IH]; cbn [List.filter]; [lia|].
  destruct (p x); [rewrite Hxy by reflexivity|destruct (p y)]; cbn [length]; lia.
Qed.

Lemma computeNEI_mono (h1 h2 : list Checkin) :
  List.Forall2 NEI_inputs_le h1 h2 -> computeNEI h1 ⪯ computeNEI h2.
Proof.
  intros H. apply (Forall2_slice_last _ 7) in H. unfold computeNEI.
  set (l1 := slice_last 7 h1) in *. set (l2 := slice_last 7 h2) in *.
  rewrite (List.Forall2_length H).
  destruct (length l2) as [|m]; [reflexivity|].
  destruct (fold_left_le energy l1 l2 0 0) as (e1 & e2 & -> & -> & He);
    [|lra|].
  { eapply List.Forall2_impl; [|exact H].
    intros a b (Va & Vb & Hab & _).
    apply valid_checkin_fields in Va, Vb. tauto. }
  destruct (fold_left_le sleepHours l1 l2 0 0) as (s1 & s2 & -> & -> & Hs);
    [|lra|].
  { eapply List.Forall2_impl; [|exact H].
    intros a b (Va & Vb & _ & Hab & _).
    apply valid_checkin_fields in Va, Vb. tauto. }
  rewrite !div_of_nat_Fin. set (k := inject_Z (Z.of_nat (S m))).
  assert (Hk : (0 < k)%Q).
  { unfold k. change 0%Q with (inject_Z 0). rewrite <- Zlt_Qlt. lia. }
  assert (Hd : forall a b : Q, (a <= b)%Q -> (a / k <= b / k)%Q).
  { intros a b Hab. unfold Qdiv. apply Qmult_le_compat_r; [exact Hab|].
    apply Qlt_le_weak, Qinv_lt_0_compat, Hk. }
  pose proof (Hd e1 e2 He) as He'. pose proof (Hd s1 s2 Hs) as Hs'.
  assert (H1 : (Fin (s1 / k) >=? 7.5) = true -> (Fin (s2 / k) >=? 7.5) = true).
  { apply geb_mono. now apply Qle_bool_iff. }
  rewrite (of_nat_geb _ 3 : (Num.of_nat _ >=? 3) = _),
          (of_nat_geb _ 3 : (Num.of_nat _ >=? 3) = _),
          (of_nat_geb _ 4 : (Num.of_nat _ >=? 4) = _),
          (of_nat_geb _ 4 : (Num.of_nat _ >=? 4) = _).
  set (pl := fun x : Checkin => existsb value (loadItems x)) in *.
  set (pv := fun x : Checkin => virtuesCount (virtues x) >=? 1) in *.
  assert (H2 : Nat.leb 3 (length (List.filter pl l2)) = true ->
               Nat.leb 3 (length (List.filter pl l1)) = true).
  { rewrite !Nat.leb_le. intros Hl. etransitivity; [exact Hl|].
    apply filter_length_le.
    eapply List.Forall2_flip, List.Forall2_impl; [|exact H].
    intros a b (_ & _ & _ & _ & Hl' & _). unfold pl.
    now rewrite !existsb_some_load_on. }
  assert (H3 : Nat.leb 4 (length (List.filter pv l1)) = true ->
               Nat.leb 4 (length (List.filter pv l2)) = true).
  { rewrite !Nat.leb_le. intros Hl. etransitivity; [exact Hl|].
    apply filter_length_le.
    eapply List.Forall2_impl; [|exact H].
    intros a b (_ & _ & _ & _ & _ & Hv). unfold pv.
    now rewrite !virtuesCount_some_virtue_on. }
  set (x1 := (e1 / k)%Q) in *. set (x2 := (e2 / k)%Q) in *.
  destruct (Fin (s1 / k) >=? 7.5), (Fin (s2 / k) >=? 7.5);
    try (specialize (H1 eq_refl); discriminate H1);
    destruct (Nat.leb 3 _), (Nat.leb 3 _);
    try (specialize (H2 eq_refl); discriminate H2);
    destruct (Nat.leb 4 _), (Nat.leb 4 _);
    try (specialize (H3 eq_refl); discriminate H3);
    cbn [Num.mul Num.add Num.sub Num.neg Math_round]; rewrite !clamp_Fin;
    apply Qle_bool_iff, qclamp_mono; rewrite <- Zle_Qle;
    apply Qfloor_resp_le; lra.
Qed.

(** *** When the score is not a number *)

Lemma computeDLS_NaN_iff (d : Checkin) :
  computeDLS d = NaN <-> socialMinutes d = NaN \/ caffeineMg d = NaN.
Proof.
  split; [|apply computeDLS_of_NaN].
  intros H.
  destruct (socialMinutes d) eqn:Es; [now left| | |];
    (destruct (caffeineMg d) eqn:Ec; [now right| | |]);
    exfalso;
    (destruct (computeDLS_integer d) as (z & Ez & _);
      [rewrite Es; discriminate | rewrite Ec; discriminate | congruence]).
Qed.

(* ------------------------------------------------------------------ *)
(** ** The handlers and the order of the history *)
(* ------------------------------------------------------------------ *)

Lemma sorted_last (h : list Checkin) (l x : Checkin) :
  StronglySorted date_lt h -> last h = Some l -> In x h ->
  x = l \/ date_lt x l.
Proof.
  induction 1 as [|y h Hh IH Hy]; intros Hl Hx; [destruct Hx|].
  destruct h as [|z h'].
  - injection Hl as <-. destruct Hx as [->|[]]. now left.
  - change (last (y :: z :: h')) with (last (z :: h')) in Hl.
    destruct Hx as [<-|Hx]; [|now apply IH].
    right. rewrite List.Forall_forall in Hy. apply Hy.
    clear - Hl. revert z Hl. induction h' as [|w h' IH]; intros z Hl.
    + injection Hl as <-. now left.
    + right. apply (IH w). exact Hl.
Qed.

Lemma sorted_snoc (h : list Checkin) (x : Checkin) :
  StronglySorted date_lt h ->
  (forall l, last h = Some l -> date_lt l x) ->
  StronglySorted date_lt (h ++ [x]).
Proof.
  intros Hs Hl. apply sorted_app; [exact Hs | repeat constructor |].
  intros a b Ha [<-|[]].
  destruct (last h) as [l|] eqn:E.
  - destruct (sorted_last h l a Hs E Ha) as [->|Hlt]; [now apply Hl|].
    apply (date_lt_trans a l x Hlt). now apply Hl.
  - apply last_None in E. subst h. destruct Ha.
Qed.

Lemma sorted_snoc_inv (h : list Checkin) (x : Checkin) :
  StronglySorted date_lt (h ++ [x]) ->
  StronglySorted date_lt h /\ forall y, In y h -> date_lt y x.
Proof.
  induction h as [|a h IH]; cbn [app]; intros H.
  - split; [constructor | intros y []].
  - apply StronglySorted_inv in H as [H Ha].
    destruct (IH H) as [Hs Hx]. split.
    + constructor; [exact Hs|]. apply List.Forall_app in Ha. tauto.
    + intros y [<-|Hy]; [|now apply Hx].
      rewrite List.Forall_forall in Ha. apply Ha, in_or_app. right. now left.
Qed.

Lemma sorted_removelast (h : list Checkin) :
  StronglySorted date_lt h -> StronglySorted date_lt (removelast h).
Proof.
  destruct h as [|a h0]; [constructor|].
  destruct (@List.exists_last _ (a :: h0) ltac:(discriminate))
    as (h' & x & ->).
  intros H. rewrite removelast_last. now apply sorted_snoc_inv in H.
Qed.

(** Saving the last day again, edited, replaces the last day. *)
Lemma saveCheckin_last (h : list Checkin) (x d : Checkin) :
  StronglySorted date_lt (h ++ [x]) -> date d = date x ->
  saveCheckin (Some d) (h ++ [x]) = h ++ [d].
Proof.
  intros Hs Ed. destruct (sorted_snoc_inv h x Hs) as [Hh Hx].
  apply sorted_same_records.
  - now apply saveCheckin_sorted, sorted_NoDup_dates.
  - apply sorted_app; [exact Hh | repeat constructor |].
    intros a b Ha [<-|[]]. unfold date_lt. rewrite Ed. now apply Hx.
  - intros y. rewrite in_saveCheckin, !in_app_iff. cbn [In]. split.
    + intros [->|[[Hy|[<-|[]]] Hne]]; auto; congruence.
    + intros [Hy|[<-|[]]]; [right | now left].
      split; [now left|]. rewrite Ed. now apply date_lt_irrefl, Hx.
Qed.

Section HandlersFacts.
Variable today : string.
Variable addDays : string -> number -> string.

Local Abbreviation add_day := (addDay today addDays).
Local Abbreviation handle_event := (handle today addDays).
Local Abbreviation run_events := (run today addDays).
Local Abbreviation advance := (dates_advance today addDays).

Lemma removeDay_addDay (st : AppState) :
  st_history (removeDay (add_day st)) = st_history st.
Proof.
  unfold removeDay, addDay. cbn [st_history].
  rewrite removelast_last. now destruct (st_history st).
Qed.

Lemma handle_sorted (e : Event) (st : AppState) :
  StronglySorted date_lt (st_history st) ->
  (e = AddDay ->
   forall l, last (st_history st) = Some l ->
             String.ltb (date l) (addDays (date l) 1) = true) ->
  StronglySorted date_lt (st_history (handle_event e st)).
Proof.
  intros Hs Ha. destruct e; cbn [handle]; try exact Hs.
  - (* addDay *)
    cbn [addDay st_history]. apply sorted_snoc; [exact Hs|].
    intros l Hl. unfold date_lt, nextDate. cbn [makeDefaultCheckin date].
    rewrite Hl. now apply Ha.
  - (* removeDay *)
    cbn [removeDay st_history]. destruct (st_history st) eqn:E; [exact Hs|].
    rewrite <- E in *. now apply sorted_removelast.
  - (* saveCheckin *)
    cbn [save st_history]. destruct (st_draft st) as [d|]; [|exact Hs].
    now apply saveCheckin_sorted, sorted_NoDup_dates.
  - (* resetDraftToActive *)
    unfold resetDraftToActive. now destruct (active st).
  - (* resetAll *)
    constructor.
Qed.

Lemma run_sorted (events : list Event) (st : AppState) :
  StronglySorted date_lt (st_history st) ->
  advance events st ->
  StronglySorted date_lt (st_history (run_events events st)).
Proof.
  revert st. induction events as [|e r IH]; intros st Hs Ha; [exact Hs|].
  cbn [run]. destruct Ha as [He Hr].
  apply IH; [|exact Hr]. now apply handle_sorted.
Qed.

Lemma add_edit_save (fn : Checkin -> Checkin) (st : AppState) :
  let next := makeDefaultCheckin (nextDate today addDays (st_history st)) in
  StronglySorted date_lt (st_history st) ->
  (forall l, last (st_history st) = Some l ->
             String.ltb (date l) (addDays (date l) 1) = true) ->
  date (fn next) = date next ->
  st_history (save (edit fn (add_day st))) = st_history st ++ [fn next].
Proof.
  intros next Hs Ha Ed.
  cbn [save edit addDay st_history st_draft requireDraft].
  fold next. apply saveCheckin_last; [|exact Ed].
  apply sorted_snoc; [exact Hs|].
  intros l Hl. unfold date_lt, next, nextDate. cbn [makeDefaultCheckin date].
  rewrite Hl. now apply Ha.
Qed.

End HandlersFacts.

Lemma active_resetDraftToActive (st : AppState) :
  active (resetDraftToActive st) = active st.
Proof.
  unfold resetDraftToActive. destruct (active st) as [a|] eqn:E; [|exact E].
  reflexivity.
Qed.

(** *** A draft is a day of a history that is not empty *)

Lemma saveCheckin_not_empty (d : Checkin) (prev : list Checkin) :
  saveCheckin (Some d) prev <> [].
Proof.
  intros E. assert (H : In d (saveCheckin (Some d) prev))
    by (apply in_saveCheckin; now left).
  rewrite E in H. destruct H.
Qed.

Lemma active_history (st : AppState) (a : Checkin) :
  st_draft st = None \/ st_history st <> [] ->
  active st = Some a -> st_history st <> [].
Proof.
  unfold active. intros [H|H]; [|auto]. rewrite H. intros Hl E.
  rewrite E in Hl. discriminate Hl.
Qed.

Lemma handle_draft_history (today : string)
    (addDays : string -> number -> string) (e : Event) (st : AppState) :
  st_draft st = None \/ st_history st <> [] ->
  st_draft (handle today addDays e st) = None
  \/ st_history (handle today addDays e st) <> [].
Proof.
  intros H. destruct e; cbn [handle]; try exact H.
  - right. cbn [addDay st_history]. intros E.
    now apply app_eq_nil in E as [_ E].
  - now left.
  - cbn [save st_history st_draft]. destruct (st_draft st) as [d|]; [|now left].
    right. apply saveCheckin_not_empty.
  - unfold resetDraftToActive. destruct (active st) as [a|] eqn:E; [|exact H].
    right. cbn [st_history]. exact (active_history st a H E).
  - now left.
  - cbn [edit st_history st_draft].
    destruct (st_draft st) as [d|]; [|now left].
    destruct H as [H|H]; [discriminate H | now right].
Qed.

Lemma run_draft_history (today : string)
    (addDays : string -> number -> string) (events : list Event)
    (st : AppState) :
  st_draft st = None \/ st_history st <> [] ->
  st_draft (run today addDays events st) = None
  \/ st_history (run today addDays events st) <> [].
Proof.
  revert st. induction events as [|e r IH]; intros st H; [exact H|].
  cbn [run]. now apply IH, handle_draft_history.
Qed.

(* ------------------------------------------------------------------ *)
(** ** The order of the date strings *)
(* ------------------------------------------------------------------ *)

Lemma in_Z_range (lo : Z) (n : nat) (z : Z) :
  (lo <= z < lo + Z.of_nat n)%Z -> In z (Z_range lo n).
Proof.
  intros H. unfold Z_range. apply in_map_iff.
  exists (Z.to_nat (z - lo)). split; [lia|]. apply in_seq. lia.
Qed.

Lemma comparison_eqb_eq (a b : comparison) : comparison_eqb a b = true -> a = b.
Proof. now destruct a, b. Qed.

Lemma two_compare (a b : Z) :
  (0 <= a < 100)%Z -> (0 <= b < 100)%Z ->
  String.compare (two a) (two b) = (a ?= b)%Z.
Proof.
  intros Ha Hb.
  assert (H : forallb (fun a => forallb (fun b =>
                comparison_eqb (String.compare (two a) (two b)) (a ?= b)%Z)
                (Z_range 0 100)) (Z_range 0 100) = true)
    by (vm_compute; reflexivity).
  rewrite forallb_forall in H. specialize (H a (in_Z_range 0 100 a Ha)).
  rewrite forallb_forall in H. specialize (H b (in_Z_range 0 100 b Hb)).
  now apply comparison_eqb_eq.
Qed.

Lemma two_length (a : Z) : (0 <= a < 100)%Z -> String.length (two a) = 2%nat.
Proof.
  intros Ha.
  assert (H : forallb (fun a => Nat.eqb (String.length (two a)) 2)
                      (Z_range 0 100) = true)
    by (vm_compute; reflexivity).
  rewrite forallb_forall in H. specialize (H a (in_Z_range 0 100 a Ha)).
  now apply Nat.eqb_eq.
Qed.

Lemma year_digits (y : Z) :
  (1000 <= y <= 9999)%Z ->
  String_of_Z y = (two (y / 100) ++ two (y mod 100))%string.
Proof.
  intros Hy.
  assert (H : forallb (fun y => String.eqb (String_of_Z y)
                         (two (y / 100) ++ two (y mod 100)))
                      (Z_range 1000 (90 * 100)) = true)
    by (vm_compute; reflexivity).
  rewrite forallb_forall in H.
  specialize (H y (in_Z_range 1000 (90 * 100) y ltac:(lia))).
  now apply String.eqb_eq.
Qed.

Lemma string_compare_app (a a' b b' : string) :
  String.length a = String.length a' ->
  String.compare (a ++ b) (a' ++ b')
  = match String.compare a a' with
    | Eq => String.compare b b'
    | c => c
    end.
Proof.
  revert a'. induction a as [|c a IH]; intros [|c' a']; cbn [String.length];
    try discriminate; [reflexivity|].
  intros [= H].
  change (String.compare (String c (a ++ b)) (String c' (a' ++ b'))
          = match String.compare (String c a) (String c' a') with
            | Eq => String.compare b b'
            | r => r
            end).
  cbn [String.compare].
  destruct (Ascii.compare c c'); [now apply IH | reflexivity | reflexivity].
Qed.

Lemma string_length_app (a b : string) :
  String.length (a ++ b) = (String.length a + String.length b)%nat.
Proof.
  induction a as [|c a IH]; [reflexivity|].
  change (S (String.length (a ++ b)) = S (String.length a + String.length b)).
  now rewrite IH.
Qed.

Lemma yyyyMmDd_digits (d : Date) :
  (1000 <= getFullYear d <= 9999)%Z ->
  yyyyMmDd d
  = ((two (getFullYear d / 100) ++ two (getFullYear d mod 100))
     ++ "-" ++ two (getMonth d + 1) ++ "-" ++ two (getDate d))%string.
Proof. intros H. unfold yyyyMmDd. now rewrite (year_digits _ H). Qed.

Lemma yyyyMmDd_compare (a b : Date) :
  four_digit_year a -> four_digit_year b ->
  String.compare (yyyyMmDd a) (yyyyMmDd b) = Date_compare a b.
Proof.
  intros (Hy & Hm & Hd) (Hy' & Hm' & Hd').
  rewrite (yyyyMmDd_digits a Hy), (yyyyMmDd_digits b Hy').
  unfold Date_compare.
  set (y := getFullYear a) in *. set (y' := getFullYear b) in *.
  set (m := getMonth a) in *. set (m' := getMonth b) in *.
  set (n := getDate a) in *. set (n' := getDate b) in *.
  pose proof (Z.div_mod y 100 ltac:(lia)) as Ey.
  pose proof (Z.div_mod y' 100 ltac:(lia)) as Ey'.
  pose proof (Z.mod_pos_bound y 100 ltac:(lia)) as Hl.
  pose proof (Z.mod_pos_bound y' 100 ltac:(lia)) as Hl'.
  assert (Hh : (0 <= y / 100 < 100)%Z)
    by (split; [apply Z.div_pos | apply Z.div_lt_upper_bound]; lia).
  assert (Hh' : (0 <= y' / 100 < 100)%Z)
    by (split; [apply Z.div_pos | apply Z.div_lt_upper_bound]; lia).
  rewrite (string_compare_app (two (y / 100) ++ two (y mod 100))
                              (two (y' / 100) ++ two (y' mod 100)))
    by (rewrite !string_length_app, !two_length by lia; reflexivity).
  rewrite (string_compare_app (two (y / 100)) (two (y' / 100)))
    by (rewrite !two_length by lia; reflexivity).
  rewrite (string_compare_app "-" "-") by reflexivity.
  rewrite (string_compare_app (two (m + 1)) (two (m' + 1)))
    by (rewrite !two_length by lia; reflexivity).
  rewrite (string_compare_app "-" "-") by reflexivity.
  change (String.compare "-" "-") with Eq. cbv iota.
  rewrite !two_compare by lia.
  destruct (Z.compare_spec (y / 100) (y' / 100)),
           (Z.compare_spec (y mod 100) (y' mod 100)),
           (Z.compare_spec (m + 1) (m' + 1)),
           (Z.compare_spec y y'), (Z.compare_spec m m');
    try reflexivity; exfalso; lia.
Qed.

(* ------------------------------------------------------------------ *)
(** ** Reading back what was saved *)
(* ------------------------------------------------------------------ *)

Section ReadBack.
Variable JSON_stringify : json -> string.


End ReadBack.


(* ------------------------------------------------------------------ *)
(** ** The chart *)
(* ------------------------------------------------------------------ *)









(* ================================================================== *)
(** * Further properties of the code *)
(* ================================================================== *)

(* ------------------------------------------------------------------ *)
(** ** Load items *)
(* ------------------------------------------------------------------ *)

(** X1.  Looking an item up after [upsertToggle]: under the label that was
    written, or one that differs from it by case only, the item found has
    the new value and the label the list had for it (the label given when
    the list had none); under every other label the lookup is what it was
    before.  [toLowerCase] is any function on strings. *)
Theorem X1_getToggle_after_upsertToggle (toLowerCase : string -> string)
    (items : list ToggleItem) (lbl lbl' : string) (val : bool) :
  getToggle toLowerCase (upsertToggle toLowerCase items lbl val) lbl'
  = if same_label toLowerCase lbl' lbl
    then Some {| label := match getToggle toLowerCase items lbl with
                          | Some it => label it
                          | None => lbl
                          end;
                 value := val |}
    else getToggle toLowerCase items lbl'.
Proof.
  destruct (same_label toLowerCase lbl' lbl) eqn:E.
  - rewrite (getToggle_same toLowerCase _ lbl' lbl E).
    apply getToggle_upsert_same.
  - now apply getToggle_upsert_other.
Qed.

(** X2.  Looking an item up after [removeToggle]: nothing is found under
    the removed label or one that differs from it by case only, and every
    other lookup is what it was before. *)
Theorem X2_getToggle_after_removeToggle (toLowerCase : string -> string)
    (items : list ToggleItem) (lbl lbl' : string) :
  getToggle toLowerCase (removeToggle toLowerCase items lbl) lbl'
  = if same_label toLowerCase lbl' lbl then None
    else getToggle toLowerCase items lbl'.
Proof. apply getToggle_remove. Qed.

(** X3.  In a list whose labels are pairwise distinct up to case, the
    switch of a row, which calls [upsertToggle] with the label of that row,
    changes the value of that row and nothing else. *)
Theorem X3_upsertToggle_changes_its_row (toLowerCase : string -> string)
    (items : list ToggleItem) (i : nat) (it : ToggleItem) (val : bool) :
  distinct_labels toLowerCase items ->
  items !! i = Some it ->
  upsertToggle toLowerCase items (label it) val
  = <[i := {| label := label it; value := val |}]> items.
Proof.
  intros Hd Hi. unfold upsertToggle.
  rewrite (distinct_findIndex toLowerCase items i it Hd Hi).
  cbv zeta. now rewrite (alter_insert _ items i it Hi).
Qed.

(** X4.  In a list whose labels are pairwise distinct up to case, the
    remove button of a row, which calls [removeToggle] with the label of
    that row, deletes that row and nothing else. *)
Theorem X4_removeToggle_deletes_its_row (toLowerCase : string -> string)
    (items : list ToggleItem) (i : nat) (it : ToggleItem) :
  distinct_labels toLowerCase items ->
  items !! i = Some it ->
  removeToggle toLowerCase items (label it) = delete i items.
Proof. apply distinct_remove_at. Qed.

(** X5.  [upsertToggle] and [removeToggle] keep the labels of a list
    pairwise distinct up to case. *)
Theorem X5_distinct_labels_kept (toLowerCase : string -> string)
    (items : list ToggleItem) (lbl : string) (val : bool) :
  distinct_labels toLowerCase items ->
  distinct_labels toLowerCase (upsertToggle toLowerCase items lbl val)
  /\ distinct_labels toLowerCase (removeToggle toLowerCase items lbl).
Proof.
  intros H. split; [now apply distinct_upsert | now apply distinct_remove].
Qed.

(** X6.  The load items and the score of the day [d]: adding an item with
    [addItem] leaves [computeDLS] as it is (the item comes switched off);
    switching an item on never lowers the score; switching one off or
    removing one never raises it.  [x] not greater than [y] means that
    [y < x] is false. *)
Theorem X6_load_items_and_score (toLowerCase trim titleCase : string -> string)
    (d : Checkin) (lbl draftLabel : string) :
  let items := loadItems d in
  let with_items l := computeDLS (set_loadItems l d) in
  with_items (fst (addItem toLowerCase trim titleCase items draftLabel))
  = computeDLS d
  /\ not_greater (computeDLS d)
                 (with_items (upsertToggle toLowerCase items lbl true))
  /\ not_greater (with_items (upsertToggle toLowerCase items lbl false))
                 (computeDLS d)
  /\ not_greater (with_items (removeToggle toLowerCase items lbl))
                 (computeDLS d).
Proof.
  intros items with_items.
  assert (E : computeDLS d = with_items items) by reflexivity.
  rewrite E. subst with_items. cbv beta.
  split; [|split; [|split]].
  - apply computeDLS_loadItems_eq, count_on_addItem.
  - apply computeDLS_loadItems_le.
    exact (count_on_upsert toLowerCase items lbl true).
  - apply computeDLS_loadItems_le.
    exact (count_on_upsert toLowerCase items lbl false).
  - apply computeDLS_loadItems_le, count_on_remove.
Qed.

(** X7.  From five load items switched on, the load items add their cap
    of 30 to the score: two lists with five or more items on give the same
    [computeDLS]. *)
Theorem X7_load_items_cap (d : Checkin) (l1 l2 : list ToggleItem) :
  (5 <= count_on l1)%nat -> (5 <= count_on l2)%nat ->
  computeDLS (set_loadItems l1 d) = computeDLS (set_loadItems l2 d).
Proof. apply computeDLS_load_capped. Qed.

(** X8.  [computeDLS] is never greater than 90, whatever the record, and
    90 is the score of a valid record: the top of the scale, 100, is not
    reached. *)
Theorem X8_computeDLS_at_most_90 :
  (forall d : Checkin, not_greater (computeDLS d) 90)
  /\ exists d : Checkin, valid_checkin d = true /\ computeDLS d = 90.
Proof.
  split; [exact computeDLS_le_90|].
  exists example_heavy_day. split; [reflexivity | vm_compute; reflexivity].
Qed.

(* ------------------------------------------------------------------ *)
(** ** [titleCase] and the labels that [addItem] stores *)
(* ------------------------------------------------------------------ *)

(** X9.  For a string [s] of ASCII characters, [titleCase s] is empty or
    made of words separated by single spaces, with no other white space
    and none at its ends, and no word of it starts with a lower-case
    letter. *)
Theorem X9_titleCase_normal_form (s : string) :
  ASCII.is_ascii s = true ->
  ASCII.single_spaced (ASCII.titleCase s) = true
  /\ ASCII.capitalised (ASCII.titleCase s) = true.
Proof.
  intros _. split;
    [apply ASCIIFacts.titleCase_single_spaced
    | apply ASCIIFacts.titleCase_capitalised].
Qed.

(** X10.  For a string [s] of ASCII characters, [titleCase] returns [s]
    itself exactly when [s] is single-spaced with no word starting with a
    lower-case letter; so [titleCase] applied to its own result changes
    nothing. *)
Theorem X10_titleCase_fixed_points (s : string) :
  ASCII.is_ascii s = true ->
  (ASCII.titleCase s = s
   <-> ASCII.single_spaced s = true /\ ASCII.capitalised s = true)
  /\ ASCII.titleCase (ASCII.titleCase s) = ASCII.titleCase s.
Proof.
  intros _. split; [split|].
  - intros <-. split;
      [apply ASCIIFacts.titleCase_single_spaced
      | apply ASCIIFacts.titleCase_capitalised].
  - intros [H1 H2]. now apply ASCIIFacts.titleCase_fixed.
  - apply ASCIIFacts.titleCase_idem.
Qed.

(** X11.  On ASCII strings, [addItem] keeps the labels of the list
    pairwise distinct up to case when the text typed, once trimmed, has no
    white space but single spaces between its words.  Without that
    condition it does not: the text is compared with the labels as typed
    and stored after [titleCase], so that a text with a double space can
    be added although its stored form is already a label of the list. *)
Theorem X11_addItem_distinct_labels :
  (forall (items : list ToggleItem) (draftLabel : string),
     Forall (fun it => ASCII.is_ascii (label it) = true) items ->
     ASCII.is_ascii draftLabel = true ->
     ASCII.single_spaced (ASCII.trim draftLabel) = true ->
     distinct_labels ASCII.toLowerCase items ->
     distinct_labels ASCII.toLowerCase (fst (ASCII.addItem items draftLabel)))
  /\ exists (items : list ToggleItem) (draftLabel : string),
       Forall (fun it => ASCII.is_ascii (label it) = true) items
       /\ ASCII.is_ascii draftLabel = true
       /\ distinct_labels ASCII.toLowerCase items
       /\ ~ List.NoDup (map label (fst (ASCII.addItem items draftLabel))).
Proof.
  split.
  - intros items draftLabel _ _ Hs Hd. unfold ASCII.addItem.
    apply distinct_addItem; [|exact Hd].
    now apply ASCIIFacts.toLowerCase_titleCase.
  - exists [{| label := "A B"; value := false |}], "a  b"%string.
    split; [now repeat constructor|]. split; [reflexivity|]. split.
    + unfold distinct_labels. repeat constructor. intros [].
    + intros H. vm_compute in H.
      apply List.NoDup_cons_iff in H as [H _]. apply H. now left.
Qed.

(* ------------------------------------------------------------------ *)
(** ** Saving, and the handlers of the days *)
(* ------------------------------------------------------------------ *)

(** X12.  Saving a draft into a history that is sorted by increasing date
    gives the days of the history that are before the draft's date, in
    their order, then the draft, then the days after it: the day of the
    draft's date, if there is one, is replaced where it stands, and a new
    day is put at its place in the order. *)
Theorem X12_saveCheckin_position (draft : Checkin) (prev : list Checkin) :
  StronglySorted date_lt prev ->
  saveCheckin (Some draft) prev
  = List.filter (fun x => date_ltb x draft) prev
    ++ draft :: List.filter (fun x => date_ltb draft x) prev.
Proof. apply saveCheckin_sorted_position. Qed.

(** X13.  In a history with pairwise distinct dates, of two saves for the
    same date the second one wins: the history is the one the second save
    alone gives.  Saving the same draft twice is saving it once. *)
Theorem X13_saveCheckin_same_date (d d' : Checkin) (prev : list Checkin) :
  List.NoDup (dates prev) -> date d' = date d ->
  saveCheckin (Some d') (saveCheckin (Some d) prev) = saveCheckin (Some d') prev.
Proof. apply saveCheckin_same_date. Qed.

(** X14.  In a history with pairwise distinct dates, two saves for
    different dates give the same history in either order. *)
Theorem X14_saveCheckin_commutes (d1 d2 : Checkin) (prev : list Checkin) :
  List.NoDup (dates prev) -> date d1 <> date d2 ->
  saveCheckin (Some d1) (saveCheckin (Some d2) prev)
  = saveCheckin (Some d2) (saveCheckin (Some d1) prev).
Proof. apply saveCheckin_comm. Qed.

(** X15.  The history stays sorted by strictly increasing date, so that
    its dates stay pairwise distinct, through every sequence of the events
    of the component (adding and removing a day, saving, resetting, every
    edit of the draft, its date included, and the settings), as long as
    each day that [addDay] adds gets a date string after the one of the
    last day. *)
Theorem X15_history_stays_sorted (today : string)
    (addDays : string -> number -> string) (events : list Event)
    (st : AppState) :
  StronglySorted date_lt (st_history st) ->
  dates_advance today addDays events st ->
  StronglySorted date_lt (st_history (run today addDays events st))
  /\ List.NoDup (dates (st_history (run today addDays events st))).
Proof.
  intros Hs Ha.
  assert (H : StronglySorted date_lt (st_history (run today addDays events st)))
    by now apply run_sorted.
  split; [exact H | now apply sorted_NoDup_dates].
Qed.

(** X16.  Adding a day, editing it without changing its date, and saving:
    when the history is sorted and the new day is dated after the last
    one, the history is then the former history followed by the edited
    day. *)
Theorem X16_add_edit_save (today : string)
    (addDays : string -> number -> string) (fn : Checkin -> Checkin)
    (st : AppState) :
  let next := makeDefaultCheckin (nextDate today addDays (st_history st)) in
  StronglySorted date_lt (st_history st) ->
  (forall l, last (st_history st) = Some l ->
             String.ltb (date l) (addDays (date l) 1) = true) ->
  date (fn next) = date next ->
  st_history (save (edit fn (addDay today addDays st)))
  = st_history st ++ [fn next].
Proof. apply add_edit_save. Qed.

(** X17.  [removeDay] after [addDay] gives back the history, and with it
    everything that is saved; the draft is then empty, whatever it held
    before. *)
Theorem X17_removeDay_undoes_addDay (today : string)
    (addDays : string -> number -> string) (st : AppState) :
  payload (removeDay (addDay today addDays st)) = payload st
  /\ st_draft (removeDay (addDay today addDays st)) = None.
Proof.
  split; [|reflexivity].
  pose proof (removeDay_addDay today addDays st) as H.
  unfold payload. rewrite H. reflexivity.
Qed.

(** X18.  [resetDraftToActive] changes nothing of what is shown or saved:
    the active day, both scores, the tasks, the progress and the payload
    are what they were.  With a draft, the active day is that draft, which
    the handler copies onto itself: the edits are not undone. *)
Theorem X18_resetDraftToActive_keeps_the_draft (st : AppState) :
  active (resetDraftToActive st) = active st
  /\ dls (resetDraftToActive st) = dls st
  /\ nei (resetDraftToActive st) = nei st
  /\ tasks (resetDraftToActive st) = tasks st
  /\ progressPct (resetDraftToActive st) = progressPct st
  /\ payload (resetDraftToActive st) = payload st
  /\ (forall d, st_draft st = Some d -> st_draft (resetDraftToActive st) = Some d).
Proof.
  pose proof (active_resetDraftToActive st) as Ha.
  assert (Hp : payload (resetDraftToActive st) = payload st)
    by (unfold resetDraftToActive; now destruct (active st)).
  assert (Hh : st_history (resetDraftToActive st) = st_history st)
    by exact (f_equal history Hp).
  assert (Hs : st_strictness (resetDraftToActive st) = st_strictness st)
    by exact (f_equal strictness Hp).
  assert (Hn : st_planDays (resetDraftToActive st) = st_planDays st)
    by exact (f_equal planDays Hp).
  split; [exact Ha|]. split; [unfold dls; now rewrite Ha|].
  split; [unfold nei; now rewrite Hh|].
  split; [unfold tasks, dayNumber; now rewrite Ha, Hh, Hs|].
  split; [unfold progressPct, dayNumber; now rewrite Hh, Hn|].
  split; [exact Hp|].
  intros d Hd. unfold resetDraftToActive, active. now rewrite Hd.
Qed.

(** X19.  [progressPct] is an integer from 0 to 100 unless the plan length
    is NaN, in which case it is NaN; it is 100 as soon as the days logged
    reach a plan length above zero. *)
Theorem X19_progressPct_range (st : AppState) :
  (st_planDays st <> NaN -> integer_in 0 100 (progressPct st))
  /\ (st_planDays st = NaN -> progressPct st = NaN)
  /\ ((0 <? st_planDays st) = true ->
      (st_planDays st <=? dayNumber st) = true ->
      progressPct st = 100).
Proof.
  split; [apply progressPct_integer|].
  split; [apply progressPct_NaN | apply progressPct_full].
Qed.

(* ------------------------------------------------------------------ *)
(** ** [computeNEI] *)
(* ------------------------------------------------------------------ *)

(** X20.  [computeNEI] reads the last seven records only: what comes
    before seven or more records changes nothing. *)
Theorem X20_computeNEI_window (pre w : list Checkin) :
  (7 <= length w)%nat -> computeNEI (pre ++ w) = computeNEI w.
Proof. apply computeNEI_window. Qed.

(** X21.  Of a record, [computeNEI] reads the energy, the hours of sleep,
    whether a load item is on and whether a virtue is on: two histories
    whose records agree on these, one by one, have the same index. *)
Theorem X21_computeNEI_inputs (h1 h2 : list Checkin) :
  List.Forall2 NEI_inputs_agree h1 h2 -> computeNEI h1 = computeNEI h2.
Proof. apply computeNEI_agree. Qed.

(** X22.  On valid records [computeNEI] goes up with the energy, the hours
    of sleep and the days with a virtue on, and down with the days with a
    load item on: when the records of two histories are so ordered, one by
    one, the indexes are in that order. *)
Theorem X22_computeNEI_monotone (h1 h2 : list Checkin) :
  List.Forall2 NEI_inputs_le h1 h2 -> computeNEI h1 ⪯ computeNEI h2.
Proof. apply computeNEI_mono. Qed.

(* ------------------------------------------------------------------ *)
(** ** Dates, and what is read back *)
(* ------------------------------------------------------------------ *)

(** X23.  For dates with a year from 1000 to 9999, the order of the
    strings [yyyyMmDd] gives is the order of the calendar; this is the
    order [saveCheckin] sorts by.  Two such dates with the same string are
    the same day. *)
Theorem X23_yyyyMmDd_order (a b : Date) :
  four_digit_year a -> four_digit_year b ->
  String.compare (yyyyMmDd a) (yyyyMmDd b) = Date_compare a b
  /\ (String.ltb (yyyyMmDd a) (yyyyMmDd b) = true <-> Date_compare a b = Lt)
  /\ (yyyyMmDd a = yyyyMmDd b -> a = b).
Proof.
  intros Ha Hb. pose proof (yyyyMmDd_compare a b Ha Hb) as H.
  split; [exact H|]. split.
  - unfold String.ltb. rewrite H. destruct (Date_compare a b);
      split; congruence.
  - intros E. rewrite E, string_compare_refl in H. symmetry in H.
    unfold Date_compare in H. destruct a as [y m n], b as [y' m' n'].
    cbn [getFullYear getMonth getDate] in H.
    destruct (Z.compare_spec y y'); try discriminate H.
    destruct (Z.compare_spec m m'); try discriminate H.
    apply Z.compare_eq in H. congruence.
Qed.



(** X26.  From a state with no draft, as the component starts, and through
    every sequence of events, a day is active only when the history is not
    empty; the tasks are then those of the active day for the number of
    days logged: the day number 1 that [tasks] falls back on when no day is
    logged is never used. *)
Theorem X26_tasks_day_number (today : string)
    (addDays : string -> number -> string) (events : list Event)
    (st : AppState) :
  st_draft st = None ->
  let st' := run today addDays events st in
  forall a : Checkin,
    active st' = Some a ->
    st_history st' <> []
    /\ tasks st' = coachTasks a (dayNumber st') (st_strictness st').
Proof.
  intros Hd st' a Ha.
  assert (Hh : st_history st' <> []).
  { apply (active_history st' a); [|exact Ha].
    apply run_draft_history. now left. }
  split; [exact Hh|]. unfold tasks. rewrite Ha.
  now destruct (st_history st').
Qed.

(** X27.  [computeDLS] is NaN exactly when the social minutes or the
    caffeine of the record are NaN; no other field, NaN or infinite, makes
    it so. *)
Theorem X27_computeDLS_NaN (d : Checkin) :
  computeDLS d = NaN <-> socialMinutes d = NaN \/ caffeineMg d = NaN.
Proof. apply computeDLS_NaN_iff. Qed.

(** X28.  Whatever the labels of the list, [upsertToggle] called with the
    label of the row [j] changes the value of the first row whose label
    is that label up to case, and nothing else: the row [j] itself when no
    row before it has such a label, a row before it otherwise. *)
Theorem X28_upsertToggle_first_match (toLowerCase : string -> string)
    (items : list ToggleItem) (j : nat) (it : ToggleItem) (val : bool) :
  items !! j = Some it ->
  exists (i : nat) (x : ToggleItem),
    (i <= j)%nat /\ items !! i = Some x
    /\ same_label toLowerCase (label x) (label it) = true
    /\ (forall k y, (k < i)%nat -> items !! k = Some y ->
                    same_label toLowerCase (label y) (label it) = false)
    /\ upsertToggle toLowerCase items (label it) val
       = <[i := {| label := label x; value := val |}]> items.
Proof. apply upsert_first_match. Qed.


(* ------------------------------------------------------------------ *)
(** ** Instances *)
(* ------------------------------------------------------------------ *)

Ltac distinct_strings := repeat constructor; cbn; intuition discriminate.

Lemma X3_witness :
  distinct_labels ASCII.toLowerCase example_items
  /\ example_items !! 1%nat = Some {| label := "Sugar"; value := true |}
  /\ upsertToggle ASCII.toLowerCase example_items "Sugar" false
     = [{| label := "TikTok"; value := false |};
        {| label := "Sugar"; value := false |}].
Proof.
  assert (Hd : distinct_labels ASCII.toLowerCase example_items)
    by (unfold distinct_labels; distinct_strings).
  split; [exact Hd|]. split; [reflexivity|].
  exact (X3_upsertToggle_changes_its_row ASCII.toLowerCase example_items 1
           {| label := "Sugar"; value := true |} false Hd eq_refl).
Defined.

Lemma X4_witness :
  distinct_labels ASCII.toLowerCase example_items
  /\ example_items !! 0%nat = Some {| label := "TikTok"; value := false |}
  /\ removeToggle ASCII.toLowerCase example_items "TikTok"
     = [{| label := "Sugar"; value := true |}].
Proof.
  assert (Hd : distinct_labels ASCII.toLowerCase example_items)
    by (unfold distinct_labels; distinct_strings).
  split; [exact Hd|]. split; [reflexivity|].
  exact (X4_removeToggle_deletes_its_row ASCII.toLowerCase example_items 0
           {| label := "TikTok"; value := false |} Hd eq_refl).
Defined.

Lemma X5_witness :
  distinct_labels ASCII.toLowerCase example_items
  /\ distinct_labels ASCII.toLowerCase
       (upsertToggle ASCII.toLowerCase example_items "sugar" false)
  /\ distinct_labels ASCII.toLowerCase
       (removeToggle ASCII.toLowerCase example_items "sugar").
Proof.
  assert (Hd : distinct_labels ASCII.toLowerCase example_items)
    by (unfold distinct_labels; distinct_strings).
  split; [exact Hd|].
  exact (X5_distinct_labels_kept ASCII.toLowerCase example_items "sugar" false
           Hd).
Defined.

Lemma X7_witness :
  (5 <= count_on five_items_on)%nat
  /\ (5 <= count_on ({| label := "F"; value := true |} :: five_items_on))%nat
  /\ computeDLS (set_loadItems five_items_on example_day)
     = computeDLS (set_loadItems ({| label := "F"; value := true |}
                                    :: five_items_on) example_day).
Proof.
  assert (H1 : (5 <= count_on five_items_on)%nat) by (vm_compute; lia).
  assert (H2 : (5 <= count_on ({| label := "F"; value := true |}
                                 :: five_items_on))%nat) by (vm_compute; lia).
  split; [exact H1|]. split; [exact H2|].
  exact (X7_load_items_cap example_day _ _ H1 H2).
Defined.

Lemma X9_witness :
  ASCII.is_ascii "  late-night   scrolling " = true
  /\ ASCII.titleCase "  late-night   scrolling " = "Late-night Scrolling"%string
  /\ ASCII.single_spaced (ASCII.titleCase "  late-night   scrolling ") = true
  /\ ASCII.capitalised (ASCII.titleCase "  late-night   scrolling ") = true.
Proof.
  split; [reflexivity|]. split; [reflexivity|].
  exact (X9_titleCase_normal_form "  late-night   scrolling " eq_refl).
Defined.

Lemma X10_witness :
  ASCII.is_ascii "Late-night Scrolling" = true
  /\ ASCII.titleCase "Late-night Scrolling" = "Late-night Scrolling"%string.
Proof.
  split; [reflexivity|].
  exact (proj2 (proj1 (X10_titleCase_fixed_points "Late-night Scrolling"
                         eq_refl))
               (conj eq_refl eq_refl)).
Defined.

Lemma X11_witness :
  Forall (fun it => ASCII.is_ascii (label it) = true) example_items
  /\ ASCII.is_ascii " late-night scrolling " = true
  /\ ASCII.single_spaced (ASCII.trim " late-night scrolling ") = true
  /\ distinct_labels ASCII.toLowerCase example_items
  /\ distinct_labels ASCII.toLowerCase
       (fst (ASCII.addItem example_items " late-night scrolling ")).
Proof.
  assert (Ha : Forall (fun it => ASCII.is_ascii (label it) = true)
                      example_items) by now repeat constructor.
  assert (Hd : distinct_labels ASCII.toLowerCase example_items)
    by (unfold distinct_labels; distinct_strings).
  split; [exact Ha|]. split; [reflexivity|]. split; [reflexivity|].
  split; [exact Hd|].
  exact (proj1 X11_addItem_distinct_labels example_items
               " late-night scrolling " Ha eq_refl eq_refl Hd).
Defined.

Lemma example_sorted_history_sorted :
  StronglySorted date_lt example_sorted_history.
Proof. repeat constructor. Defined.

Lemma X12_witness :
  StronglySorted date_lt example_sorted_history
  /\ saveCheckin (Some example_day) example_sorted_history
     = [makeDefaultCheckin "2025-01-01"; example_day].
Proof.
  split; [exact example_sorted_history_sorted|].
  exact (X12_saveCheckin_position example_day example_sorted_history
           example_sorted_history_sorted).
Defined.

Lemma X13_witness :
  List.NoDup (dates example_history)
  /\ date (set_workout true example_day) = date example_day
  /\ saveCheckin (Some (set_workout true example_day))
       (saveCheckin (Some example_day) example_history)
     = saveCheckin (Some (set_workout true example_day)) example_history.
Proof.
  assert (Hnd : List.NoDup (dates example_history)) by distinct_strings.
  split; [exact Hnd|]. split; [reflexivity|].
  exact (X13_saveCheckin_same_date example_day (set_workout true example_day)
           example_history Hnd eq_refl).
Defined.

Lemma X14_witness :
  List.NoDup (dates example_history)
  /\ date example_day <> date (makeDefaultCheckin "2025-01-04")
  /\ saveCheckin (Some example_day)
       (saveCheckin (Some (makeDefaultCheckin "2025-01-04")) example_history)
     = saveCheckin (Some (makeDefaultCheckin "2025-01-04"))
         (saveCheckin (Some example_day) example_history).
Proof.
  assert (Hnd : List.NoDup (dates example_history)) by distinct_strings.
  assert (Hne : date example_day <> date (makeDefaultCheckin "2025-01-04"))
    by discriminate.
  split; [exact Hnd|]. split; [exact Hne|].
  exact (X14_saveCheckin_commutes example_day
           (makeDefaultCheckin "2025-01-04") example_history Hnd Hne).
Defined.

(** A run of the component: a day is added, dated, edited, saved, a second
    day is added and removed. *)
Lemma X15_witness :
  let addDays := example_addDays in
  let events := [AddDay; EditDraft (set_date "2024-12-31");
                 EditDraft (set_workout true); SaveCheckin; AddDay; RemoveDay] in
  StronglySorted date_lt (st_history example_sorted_state)
  /\ dates_advance "2025-01-01" addDays events example_sorted_state
  /\ dates (st_history (run "2025-01-01" addDays events example_sorted_state))
     = ["2024-12-31"; "2025-01-01"; "2025-01-02"; "2025-01-03"]%string
  /\ StronglySorted date_lt
       (st_history (run "2025-01-01" addDays events example_sorted_state)).
Proof.
  intros addDays events.
  assert (Ha : dates_advance "2025-01-01" addDays events example_sorted_state).
  { split; [intros _ l [= <-]; reflexivity|].
    split; [discriminate|]. split; [discriminate|]. split; [discriminate|].
    split; [intros _ l [= <-]; reflexivity|].
    split; [discriminate | exact I]. }
  split; [exact example_sorted_history_sorted|]. split; [exact Ha|].
  split; [reflexivity|].
  exact (proj1 (X15_history_stays_sorted "2025-01-01" addDays events
                  example_sorted_state example_sorted_history_sorted Ha)).
Defined.

Lemma X16_witness :
  let addDays := example_addDays in
  StronglySorted date_lt (st_history example_sorted_state)
  /\ st_history (save (edit (set_workout true)
                         (addDay "2025-01-01" addDays example_sorted_state)))
     = example_sorted_history
       ++ [set_workout true (makeDefaultCheckin "2025-01-03")].
Proof.
  intros addDays. split; [exact example_sorted_history_sorted|].
  apply (X16_add_edit_save "2025-01-01" addDays (set_workout true)
           example_sorted_state example_sorted_history_sorted).
  - intros l [= <-]. reflexivity.
  - reflexivity.
Defined.

Lemma X18_witness :
  st_draft example_state = Some example_day
  /\ st_draft (resetDraftToActive example_state) = Some example_day.
Proof.
  split; [reflexivity|].
  exact (proj2 (proj2 (proj2 (proj2 (proj2 (proj2
           (X18_resetDraftToActive_keeps_the_draft example_state))))))
           example_day eq_refl).
Defined.

Lemma X19_witness :
  st_planDays example_state <> NaN
  /\ integer_in 0 100 (progressPct example_state)
  /\ progressPct example_state = 3.
Proof.
  assert (H : st_planDays example_state <> NaN) by discriminate.
  split; [exact H|]. split; [|reflexivity].
  exact (proj1 (X19_progressPct_range example_state) H).
Defined.

Lemma X20_witness :
  (7 <= length example_week)%nat
  /\ computeNEI (example_history ++ example_week) = computeNEI example_week.
Proof.
  assert (H : (7 <= length example_week)%nat) by (vm_compute; lia).
  split; [exact H|].
  exact (X20_computeNEI_window example_history example_week H).
Defined.

Lemma X21_witness :
  List.Forall2 NEI_inputs_agree [example_day] [set_caffeineMg 0 example_day]
  /\ computeNEI [example_day] = computeNEI [set_caffeineMg 0 example_day].
Proof.
  assert (H : List.Forall2 NEI_inputs_agree [example_day]
                           [set_caffeineMg 0 example_day])
    by (repeat constructor).
  split; [exact H|].
  exact (X21_computeNEI_inputs _ _ H).
Defined.

Lemma X22_witness :
  List.Forall2 NEI_inputs_le [example_day] [set_sleepHours 8 example_day]
  /\ computeNEI [example_day] ⪯ computeNEI [set_sleepHours 8 example_day].
Proof.
  assert (H : List.Forall2 NEI_inputs_le [example_day]
                           [set_sleepHours 8 example_day]).
  { constructor; [|constructor].
    split; [reflexivity|]. split; [reflexivity|]. split; [reflexivity|].
    split; [reflexivity|]. split; intros E; exact E. }
  split; [exact H|].
  exact (X22_computeNEI_monotone _ _ H).
Defined.

Lemma X23_witness :
  four_digit_year (mkDate 2025 0 31) /\ four_digit_year (mkDate 2025 1 1)
  /\ yyyyMmDd (mkDate 2025 0 31) = "2025-01-31"%string
  /\ yyyyMmDd (mkDate 2025 1 1) = "2025-02-01"%string
  /\ String.compare (yyyyMmDd (mkDate 2025 0 31)) (yyyyMmDd (mkDate 2025 1 1))
     = Lt.
Proof.
  assert (Ha : four_digit_year (mkDate 2025 0 31))
    by (unfold four_digit_year; cbn; lia).
  assert (Hb : four_digit_year (mkDate 2025 1 1))
    by (unfold four_digit_year; cbn; lia).
  split; [exact Ha|]. split; [exact Hb|].
  split; [reflexivity|]. split; [reflexivity|].
  exact (proj1 (X23_yyyyMmDd_order _ _ Ha Hb)).
Defined.


Lemma X26_witness :
  let addDays := example_addDays in
  let st' := run "2025-01-01" addDays [ResetAll; AddDay] example_sorted_state in
  st_draft example_sorted_state = None
  /\ active st' = Some (makeDefaultCheckin "2025-01-01")
  /\ st_history st' <> []
  /\ tasks st' = coachTasks (makeDefaultCheckin "2025-01-01") 1 Standard.
Proof.
  intros addDays st'. split; [reflexivity|]. split; [reflexivity|].
  exact (X26_tasks_day_number "2025-01-01" addDays [ResetAll; AddDay]
           example_sorted_state eq_refl (makeDefaultCheckin "2025-01-01")
           eq_refl).
Defined.

(** Two rows with the same label: the switch of the second one changes
    the first. *)
Lemma X28_witness :
  let items := [{| label := "A B"; value := false |};
                {| label := "A B"; value := false |}] in
  items !! 1%nat = Some {| label := "A B"; value := false |}
  /\ upsertToggle ASCII.toLowerCase items "A B" true
     = [{| label := "A B"; value := true |};
        {| label := "A B"; value := false |}]
  /\ exists (i : nat) (x : ToggleItem),
       (i <= 1)%nat /\ items !! i = Some x
       /\ same_label ASCII.toLowerCase (label x) "A B" = true
       /\ (forall k y, (k < i)%nat -> items !! k = Some y ->
                       same_label ASCII.toLowerCase (label y) "A B" = false)
       /\ upsertToggle ASCII.toLowerCase items "A B" true
          = <[i := {| label := label x; value := true |}]> items.
Proof.
  intros items. split; [reflexivity|]. split; [reflexivity|].
  exact (X28_upsertToggle_first_match ASCII.toLowerCase items 1
           {| label := "A B"; value := false |} true eq_refl).
Defined.


(** A year of five digits breaks the order of the strings. *)
Example yyyyMmDd_year_10000 :
  String.ltb (yyyyMmDd (mkDate 10000 0 1)) (yyyyMmDd (mkDate 9999 11 31)) = true.
Proof. reflexivity. Qed.
